(** * A shallow embedding of the compilers judge (compile_error.py, judge.py)

    The judge builds a learner's compiler, walks a directory tree of test
    fixtures, runs every fixture through the external tool [lit] and reports
    to Dodona.  This development embeds the two source files:

    - [compile_error.py]: the classifier of build-tool output, together with
      the fragment of Python's [re] engine its two patterns need;
    - [judge.py]: the single-test evaluator, the group runners and the
      hierarchy walker, as computations in a state-and-exception monad over
      an explicit description of the environment (file tree, external tool).

    Conventions.
    - A Python [str] is a list of Unicode code points ([N]).
    - A [pathlib.Path] is the list of its components.
    - Python's [float] is the kernel's binary64 ([PrimFloat.float]).
    - [collections.Counter] is a finite map from keys to integers.
    - What the reporting library [dodona_command] prints is recorded as a
      log of events next to the file and tool operations.

    Taken for granted.
    - The file tree does not change during a run and already holds the
      output that a fixture has left by the time it is read; it has no
      symbolic links, and no two entries of a directory share a name.
    - [tempfile.NamedTemporaryFile] succeeds and yields a fresh name, and
      [os.remove] succeeds on a file that exists.
    - [glob] lists a directory before its subdirectories, in the order of
      the directory's entries.
    - The interpreter runs with its default limit on the conversion of
      integers: [int] refuses a text of more than 4300 digits.
    - The numbers of tests stay below 2^53, where [int / int] is the
      quotient of the two floats. *)

From Stdlib Require Import ZArith NArith List String Ascii Lia Permutation.
From Stdlib Require Import DecimalString Floats Uint63.
From stdpp Require Import gmap strings list.

Set Default Goal Selector "!".

(* ===================================================================== *)
(** * Part I. Definitions                                                  *)
(* ===================================================================== *)

(** ** Python strings *)

Definition char := N.
Definition str := list char.

(** A string literal, as its code points. *)
Fixpoint u (s : string) : str :=
  match s with
  | EmptyString => []
  | String a s' => N_of_ascii a :: u s'
  end.
Arguments u s%_string.

(** A character literal. *)
Definition chr (a : ascii) : char := N_of_ascii a.
Arguments chr a%_char.

Definition NL : char := 10%N.
Definition nl : str := [NL].

Definition str_eq_dec : forall a b : str, {a = b} + {a <> b} :=
  List.list_eq_dec N.eq_dec.

Definition str_eqb (a b : str) : bool := if str_eq_dec a b then true else false.

(** [s.split("\n")] *)
Fixpoint split_nl (s : str) : list str :=
  match s with
  | [] => [[]]
  | c :: s' =>
      if N.eqb c NL then [] :: split_nl s'
      else match split_nl s' with
           | l :: ls => (c :: l) :: ls
           | [] => [[c]]
           end
  end.

(** [sep.join(ls)] *)
Fixpoint join (sep : str) (ls : list str) : str :=
  match ls with
  | [] => []
  | [l] => l
  | l :: ls' => l ++ sep ++ join sep ls'
  end.

(** [s.endswith(suffix)] *)
Definition endswith (s suffix : str) : bool :=
  str_eqb (skipn (length s - length suffix) s) suffix
  && (length suffix <=? length s)%nat.

(** [str(z)] for an integer. *)
Definition str_of_Z (z : Z) : str := u (NilZero.string_of_int (Z.to_int z)).

(** [f"{x}"] for an [Optional[int]]. *)
Definition str_of_opt_Z (o : option Z) : str :=
  match o with
  | Some z => str_of_Z z
  | None => u "None"
  end.

(** ** The Python runtime

    Three things the interpreter decides and the source does not: the Unicode
    tables behind [\w], [\d], [int] and [str.capitalize] for code points past
    ASCII, and the order in which a [set] is iterated (any order of its
    distinct elements). *)

Class PythonRuntime := {
  (** [c.isalnum()] for a code point [c >= 128] *)
  unicode_alnum : char -> bool;
  (** the value of a decimal digit [c >= 128], if it is one *)
  unicode_decimal : char -> option Z;
  (** [s.capitalize()] *)
  capitalize : str -> str;
  (** [list(set(l))] *)
  set_iter : list str -> list str;
  set_iter_perm : forall l, Permutation (set_iter l) (List.nodup str_eq_dec l)
}.

(** ** Regular expressions: the fragment of [re] the two patterns use *)

(** Items of a character set. *)
Inductive cclass :=
| CLit (c : char)
| CWord     (* \w *)
| CDigit.   (* \d *)

Inductive regex :=
| RLit (c : char)
| RAny                                       (* .   (no DOTALL: not a newline) *)
| RSet (neg : bool) (items : list cclass)    (* [...] and [^...]; \w is [\w] *)
| REps
| RSeq (r1 r2 : regex)
| RAlt (r1 r2 : regex)                       (* r1|r2, left first *)
| RStar (r : regex)                          (* r*, greedy *)
| RGroup (name : string) (r : regex).        (* (?P<name>r) *)

Definition RPlus (r : regex) : regex := RSeq r (RStar r).      (* r+ *)
Definition ROpt (r : regex) : regex := RAlt r REps.            (* r? *)
Definition RWord : regex := RSet false [CWord].                (* \w *)
Definition RDigit : regex := RSet false [CDigit].              (* \d *)

(** A literal text, character by character. *)
Fixpoint RStr (s : str) : regex :=
  match s with
  | [] => REps
  | [c] => RLit c
  | c :: s' => RSeq (RLit c) (RStr s')
  end.

(** Captured groups, latest binding first. *)
Definition groups := list (string * str).

Fixpoint group_lookup (g : groups) (name : string) : option str :=
  match g with
  | [] => None
  | (n, v) :: g' => if String.eqb n name then Some v else group_lookup g' name
  end.

Definition in_range (lo hi c : N) : bool := (lo <=? c)%N && (c <=? hi)%N.

Definition ascii_alnum (c : char) : bool :=
  in_range 48 57 c || in_range 65 90 c || in_range 97 122 c.

Section Regex.
Context `{RT : PythonRuntime}.

(** [\w]: alphanumeric or underscore. *)
Definition is_word (c : char) : bool :=
  ascii_alnum c || N.eqb c 95 || ((128 <=? c)%N && unicode_alnum c).

(** The value of a decimal digit. *)
Definition digit_value (c : char) : option Z :=
  if in_range 48 57 c then Some (Z.of_N c - 48)%Z
  else if (128 <=? c)%N then unicode_decimal c
  else None.

(** [\d] *)
Definition is_digit (c : char) : bool :=
  match digit_value c with Some _ => true | None => false end.

Definition in_class (i : cclass) (c : char) : bool :=
  match i with
  | CLit c' => N.eqb c' c
  | CWord => is_word c
  | CDigit => is_digit c
  end.

Definition in_set (items : list cclass) (c : char) : bool :=
  existsb (fun i => in_class i c) items.

(** The matcher is a backtracking one, as [re]'s is: a continuation receives
    the rest of the text and the groups, and its failure makes the matcher
    try its next alternative (a shorter repetition, the right branch). *)
Definition cont (R : Type) := str -> groups -> option R.

Fixpoint star_loop {R} (fuel : nat)
    (step : str -> groups -> cont R -> option R)
    (s : str) (g : groups) (k : cont R) : option R :=
  match fuel with
  | O => k s g
  | S n =>
      match step s g (fun s' g' =>
                        if (length s' <? length s)%nat
                        then star_loop n step s' g' k else None) with
      | Some x => Some x
      | None => k s g
      end
  end.

Fixpoint rmatch {R} (r : regex) (s : str) (g : groups) (k : cont R) : option R :=
  match r with
  | RLit c =>
      match s with
      | c' :: s' => if N.eqb c c' then k s' g else None
      | [] => None
      end
  | RAny =>
      match s with
      | c' :: s' => if N.eqb c' NL then None else k s' g
      | [] => None
      end
  | RSet neg items =>
      match s with
      | c' :: s' => if xorb neg (in_set items c') then k s' g else None
      | [] => None
      end
  | REps => k s g
  | RSeq r1 r2 => rmatch r1 s g (fun s' g' => rmatch r2 s' g' k)
  | RAlt r1 r2 =>
      match rmatch r1 s g k with
      | Some x => Some x
      | None => rmatch r2 s g k
      end
  | RStar r1 => star_loop (length s) (rmatch r1) s g k
  | RGroup name r1 =>
      rmatch r1 s g
        (fun s' g' => k s' ((name, firstn (length s - length s') s) :: g'))
  end.

(** A match object: where it starts and ends, and its groups. *)
Record rematch := { m_start : nat; m_end : nat; m_groups : groups }.

(** [m.group(name)]; every named group of the two patterns below takes part
    in every match, so the default is never returned (see
    [undefined_reference_binds] and [compile_error_binds]). *)
Definition group (m : rematch) (name : string) : str :=
  default [] (group_lookup (m_groups m) name).

(** A match starting exactly at the head of [s]; its length and groups. *)
Definition match_here (r : regex) (s : str) : option (nat * groups) :=
  rmatch r s [] (fun s' g => Some ((length s - length s')%nat, g)).

(** [re.search(r, s)] from position [pos] on, [s] being the text from there. *)
Fixpoint search_from (r : regex) (s : str) (pos : nat) : option rematch :=
  match match_here r s with
  | Some (n, g) => Some {| m_start := pos; m_end := pos + n; m_groups := g |}
  | None =>
      match s with
      | [] => None
      | _ :: s' => search_from r s' (S pos)
      end
  end.

Definition re_search (r : regex) (s : str) : option rematch := search_from r s 0.

(** [re.finditer(r, s)]: the matches from left to right, none overlapping
    another; [skip] counts the characters the last match still covers. *)
Fixpoint finditer_from (r : regex) (s : str) (pos skip : nat) : list rematch :=
  match skip with
  | S n =>
      match s with
      | [] => []
      | _ :: s' => finditer_from r s' (S pos) n
      end
  | O =>
      match match_here r s with
      | Some (n, g) =>
          {| m_start := pos; m_end := pos + n; m_groups := g |}
            :: match s with
               | [] => []
               | _ :: s' => finditer_from r s' (S pos) (n - 1)
               end
      | None =>
          match s with
          | [] => []
          | _ :: s' => finditer_from r s' (S pos) 0
          end
      end
  end.

Definition re_finditer (r : regex) (s : str) : list rematch := finditer_from r s 0 0.

(** What a pattern matches, declaratively: [Matches r w g g'] when [r]
    matches exactly the text [w], taking the groups from [g] to [g']. *)
Inductive Matches : regex -> str -> groups -> groups -> Prop :=
| MLit c g : Matches (RLit c) [c] g g
| MAny c g : c <> NL -> Matches RAny [c] g g
| MSet neg items c g :
    xorb neg (in_set items c) = true -> Matches (RSet neg items) [c] g g
| MEps g : Matches REps [] g g
| MSeq r1 r2 w1 w2 g g1 g2 :
    Matches r1 w1 g g1 -> Matches r2 w2 g1 g2 ->
    Matches (RSeq r1 r2) (w1 ++ w2) g g2
| MAltL r1 r2 w g g1 : Matches r1 w g g1 -> Matches (RAlt r1 r2) w g g1
| MAltR r1 r2 w g g1 : Matches r2 w g g1 -> Matches (RAlt r1 r2) w g g1
| MStarNil r g : Matches (RStar r) [] g g
| MStarCons r w1 w2 g g1 g2 :
    w1 <> [] -> Matches r w1 g g1 -> Matches (RStar r) w2 g1 g2 ->
    Matches (RStar r) (w1 ++ w2) g g2
| MGroup name r w g g1 :
    Matches r w g g1 -> Matches (RGroup name r) w g ((name, w) :: g1).

(** The text [s] contains a match of [r] somewhere. *)
Definition Contains (r : regex) (s : str) : Prop :=
  exists pre w post g, s = pre ++ w ++ post /\ Matches r w [] g.

(** The value of a string of decimal digits. *)
Fixpoint int_digits (acc : Z) (s : str) : option Z :=
  match s with
  | [] => Some acc
  | c :: s' =>
      match digit_value c with
      | Some d => int_digits (10 * acc + d) s'
      | None => None
      end
  end.

(** [sys.get_int_max_str_digits()], as the interpreter starts. *)
Definition int_max_str_digits : nat := 4300.

(** [int(s)] for a string of decimal digits ([None]: [ValueError]): the
    empty text is refused, and so is a text of more than
    [int_max_str_digits] digits, leading zeros counted. *)
Definition py_int (s : str) : option Z :=
  match s with
  | [] => None
  | _ =>
      if (length s <=? int_max_str_digits)%nat then int_digits 0 s else None
  end.

End Regex.

(** ** compile_error.py: the two patterns *)

(** The linker's complaint: the literal [/usr/bin/ld: ], the rest of that
    line ([.] starred), an optional newline, a file name ([\w] repeated, a
    dot, [h] or [cpp]), a section in parentheses ([\w], [+] and [.]
    repeated), the words [: undefined reference to], and between a backquote
    and a quote the group [missing_reference]: any text without a quote. *)
Definition _is_undefined_reference : regex :=
  RSeq (RStr (u "/usr/bin/ld: "))
  (RSeq (RStar RAny)
  (RSeq (ROpt (RLit NL))
  (RSeq (RPlus RWord)
  (RSeq (RLit (chr "."))
  (RSeq (RAlt (RStr (u "h")) (RStr (u "cpp")))
  (RSeq (RStr (u ":("))
  (RSeq (RPlus (RSet false [CWord; CLit (chr "+"); CLit (chr ".")]))
  (RSeq (RStr (u "): undefined reference to `"))
  (RSeq (RGroup "missing_reference" (RStar (RSet true [CLit (chr "'")])))
        (RLit (chr "'"))))))))))).

(** The compiler's diagnostic: a path ([/], [\w] and [.] repeated), a colon,
    the group [line] (digits), a colon, the group [column] (digits), the
    words [: error: ] and the group [message]: the rest of the line, not
    empty. *)
Definition _is_compile_error : regex :=
  RSeq (RPlus (RSet false [CLit (chr "/"); CWord; CLit (chr ".")]))
  (RSeq (RLit (chr ":"))
  (RSeq (RGroup "line" (RPlus RDigit))
  (RSeq (RLit (chr ":"))
  (RSeq (RGroup "column" (RPlus RDigit))
  (RSeq (RStr (u ": error: "))
        (RGroup "message" (RPlus RAny))))))).

(** ** Floats: [int / int], [math.floor] and the format [.1f] *)

(** [float(z)], exact for [|z| < 2^53]. *)
Definition float_of_Z (z : Z) : float :=
  if (z <? 0)%Z then PrimFloat.opp (PrimFloat.of_uint63 (Uint63.of_Z (- z)))
  else PrimFloat.of_uint63 (Uint63.of_Z z).

(** [math.floor(x)]; [None] where Python raises (infinities, NaN). *)
Definition floor_float (x : float) : option Z :=
  match Prim2SF x with
  | S754_zero _ => Some 0%Z
  | S754_finite s m e =>
      let n := if s then Z.neg m else Z.pos m in
      Some (if (0 <=? e)%Z then n * 2 ^ e else n / 2 ^ (- e))%Z
  | _ => None
  end.

(** The nearest integer to [n / d], ties to even ([0 < d], [0 <= n]). *)
Definition round_half_even (n d : Z) : Z :=
  let q := (n / d)%Z in
  let r := (n mod d)%Z in
  if (2 * r <? d)%Z then q
  else if (d <? 2 * r)%Z then (q + 1)%Z
  else if Z.even q then q else (q + 1)%Z.

(** [f"{x:.1f}"] *)
Definition format_1f (x : float) : str :=
  match Prim2SF x with
  | S754_nan => u "nan"
  | S754_infinity s => if s then u "-inf" else u "inf"
  | S754_zero s => if s then u "-0.0" else u "0.0"
  | S754_finite s m e =>
      let q := if (0 <=? e)%Z then (Z.pos m * 10 * 2 ^ e)%Z
               else round_half_even (Z.pos m * 10) (2 ^ (- e)) in
      (if s then u "-" else []) ++ str_of_Z (q / 10) ++ u "." ++ str_of_Z (q mod 10)
  end.

(** ** collections.Counter *)

(** [Counter()] *)
Definition Counter_empty : gmap str Z := ∅.

(** [c[key]]: a missing key counts zero. *)
Definition counter_get (c : gmap str Z) (key : str) : Z := default 0%Z (c !! key).

(** [self += other]: the counts are added, and only the positive ones are
    kept ([Counter._keep_positive]). *)
Definition counter_iadd (self other : gmap str Z) : gmap str Z :=
  filter (fun kv => (0 < kv.2)%Z) (union_with (fun a b => Some (a + b)%Z) self other).

(** [c1 == c2] on counters: the same count for every key, missing keys
    counting zero. *)
Definition counter_eq (c1 c2 : gmap str Z) : Prop :=
  forall key, counter_get c1 key = counter_get c2 key.

(** [Counter({"correct": correct, "total": total})] *)
Definition Counter_of (correct total : Z) : gmap str Z :=
  <[u "correct" := correct]> (<[u "total" := total]> ∅).

(** The data model's invariant, and no negative count anywhere. *)
Definition counter_nonneg (c : gmap str Z) : Prop :=
  forall key, (0 <= counter_get c key)%Z.

Definition counter_inv (c : gmap str Z) : Prop :=
  counter_nonneg c /\
  (0 <= counter_get c (u "correct") <= counter_get c (u "total"))%Z.

(** ** The environment: file tree and external tool *)

Definition path := list str.

(** A file holds its text as [read()] returns it (decoded, newlines
    translated), and whether its bytes are valid UTF-8 (a strict decoder
    raises on the others); a directory lists its entries in the order the
    operating system enumerates them. *)
#[warnings="-register-all"]
Inductive fsnode :=
| File (text : str) (utf8 : bool)
| Dir (entries : list (str * fsnode)).

(** The first test of the report [lit -o] writes: its keys [code] and
    [elapsed], each possibly missing. *)
Record lit_test := { code : option str; elapsed : option float }.

(** What running [lit] on a target does: it cannot be started, or it exits
    with a return code and leaves a report ([None]: no report that
    [json.load(f)["tests"][0]] can read). *)
Inductive lit_result :=
| LitNotFound
| LitExit (returncode : Z) (report : option lit_test).

Record world := { fs : fsnode; lit : path -> lit_result }.

Fixpoint child (es : list (str * fsnode)) (name : str) : option fsnode :=
  match es with
  | [] => None
  | (n, x) :: es' => if str_eqb n name then Some x else child es' name
  end.

Fixpoint lookup_path (n : fsnode) (p : path) : option fsnode :=
  match p with
  | [] => Some n
  | c :: p' =>
      match n with
      | Dir es =>
          match child es c with
          | Some n' => lookup_path n' p'
          | None => None
          end
      | File _ _ => None
      end
  end.

(** [p.exists()], [p.is_dir()], [p.name], [p.parent], [str(p)] *)
Definition path_exists (w : world) (p : path) : bool :=
  match lookup_path (fs w) p with Some _ => true | None => false end.

Definition is_dir (w : world) (p : path) : bool :=
  match lookup_path (fs w) p with Some (Dir _) => true | _ => false end.

Definition path_name (p : path) : str := List.last p [].

Definition path_parent (p : path) : path := removelast p.

Definition path_str (p : path) : str :=
  match p with
  | [] => u "."
  | _ => join (u "/") p
  end.

(** [p.relative_to(base)]; [None] where Python raises [ValueError]. *)
Fixpoint relative_to (p base : path) {struct base} : option path :=
  match base with
  | [] => Some p
  | b :: base' =>
      match p with
      | c :: p' => if str_eqb c b then relative_to p' base' else None
      | [] => None
      end
  end.

(** The entries of a directory (none for a file or a missing path). *)
Definition entries (w : world) (p : path) : list (str * fsnode) :=
  match lookup_path (fs w) p with
  | Some (Dir es) => es
  | _ => []
  end.

Definition is_c_name (name : str) : bool := endswith name (u ".c").

(** [p.glob("*")] *)
Definition glob_star (w : world) (p : path) : list path :=
  map (fun e => p ++ [e.1]) (entries w p).

(** [p.glob("*.c")] *)
Definition glob_c (w : world) (p : path) : list path :=
  map (fun e => p ++ [e.1]) (List.filter (fun e => is_c_name e.1) (entries w p)).

(** The [*.c] entries of a directory and of every directory below it, each
    directory before its subdirectories. *)
Fixpoint walk_c (p : path) (n : fsnode) {struct n} : list path :=
  match n with
  | File _ _ => []
  | Dir es =>
      map (fun e => p ++ [e.1]) (List.filter (fun e => is_c_name e.1) es) ++
      flat_map (fun e => walk_c (p ++ [e.1]) e.2) es
  end.

(** [p.glob("**/*.c")] *)
Definition glob_rec_c (w : world) (p : path) : list path :=
  match lookup_path (fs w) p with
  | Some n => walk_c p n
  | None => []
  end.

(** [p.glob("*/**/*.c")] *)
Definition glob_sub_rec_c (w : world) (p : path) : list path :=
  flat_map (fun e => walk_c (p ++ [e.1]) e.2) (entries w p).

(** [p.glob("grading/**/*.c")] *)
Definition glob_grading_rec_c (w : world) (p : path) : list path :=
  match child (entries w p) (u "grading") with
  | Some n => walk_c (p ++ [u "grading"]) n
  | None => []
  end.

(** ** The reporting library and the log *)

Inductive MessageFormat := PLAIN | HTML | MARKDOWN | CODE.

Inductive ErrorType := CORRECT | WRONG.

(** A description with its format, as the judge passes it: a dictionary
    with the keys [description] and [format]. *)
Record description := { d_description : str; d_format : MessageFormat }.

(** Modelled from the spec: the node kinds of [dodona_command] (a module
    imported by both files and not among the sources), with the arguments
    the judge gives each one: a scoped emission, every node opened and
    always closed, also when its body raises. *)
Inductive node :=
| Tab (title : str)
| Context (descr : option description)
| TestCase (descr : description)
| Test (descr : description) (expected : option str)
| Message (descr : str) (format : MessageFormat) (type : option str)
| Annotation (row : Z) (text : str) (type : str).

(** Attributes the judge sets on an open node; they are sent when the node
    is closed. *)
Inductive attr :=
| badgeCount (n : Z)
| accepted (b : bool)
| status (enum human : ErrorType)
| generated (g : option str).

(** What the judge does to the outside, in order. *)
Inductive event :=
| Start (n : node)
| Close (n : node) (attrs : list attr)
| Open (p : path)                         (* a file is opened and read *)
| MkTemp (tmp : N)                        (* tempfile.NamedTemporaryFile(delete=False) *)
| Lit (target : path) (out : N)           (* subprocess.run(["lit", target, "-o", out]) *)
| OpenTemp (tmp : N)                      (* the report is opened and parsed *)
| Remove (tmp : N).                       (* os.remove *)

Inductive exn :=
| ZeroDivisionError
| FileNotFoundError
| IsADirectoryError
| UnicodeDecodeError
| ValueError
| KeyError
| JSONDecodeError.

Inductive result (A : Type) :=
| Ok (a : A)
| Raise (e : exn).
Arguments Ok {A} a.
Arguments Raise {A} e.

(** The state a run threads: the temporary files that exist, and the log. *)
Record state := { tmp_files : gset N; log : list event }.

Definition M (A : Type) := state -> result A * state.

Definition ret {A} (a : A) : M A := fun st => (Ok a, st).

Definition raise {A} (e : exn) : M A := fun st => (Raise e, st).

Definition bind {A B} (m : M A) (k : A -> M B) : M B :=
  fun st =>
    match m st with
    | (Ok a, st') => k a st'
    | (Raise e, st') => (Raise e, st')
    end.

Notation "x <- m ;; k" := (bind m (fun x => k))
  (at level 100, m at next level, right associativity).
Notation "m ;;; k" := (bind m (fun _ => k))
  (at level 100, right associativity).

Definition emit (e : event) : M unit :=
  fun st => (Ok tt, {| tmp_files := tmp_files st; log := log st ++ [e] |}).

(** Modelled from the spec: the context managers of [dodona_command].
    [with n as x: body]: the node is opened, the body yields its value and
    the attributes it set on [x], and the node is closed however the body
    ends, an exception leaving through it. *)
Definition with_attrs {A} (n : node) (body : M (A * list attr)) : M A :=
  fun st =>
    match (emit (Start n) ;;; body) st with
    | (Ok (a, attrs), st') => (emit (Close n attrs) ;;; ret a) st'
    | (Raise e, st') => (emit (Close n []) ;;; raise e) st'
    end.

Definition with_ {A} (n : node) (body : M A) : M A :=
  with_attrs n (a <- body ;; ret (a, [])).

(** [try: body finally: cleanup] *)
Definition try_finally {A} (body : M A) (cleanup : M unit) : M A :=
  fun st =>
    match body st with
    | (Ok a, st') => (cleanup ;;; ret a) st'
    | (Raise e, st') => (cleanup ;;; raise e) st'
    end.

(** [for x in xs: acc = body(x, acc)] *)
Fixpoint for_each {A S} (xs : list A) (body : A -> S -> M S) (acc : S) : M S :=
  match xs with
  | [] => ret acc
  | x :: xs' => acc' <- body x acc ;; for_each xs' body acc'
  end.

Definition of_option {A} (o : option A) (e : exn) : M A :=
  match o with
  | Some a => ret a
  | None => raise e
  end.

(** The events a computation adds to the log of [st]. *)
Definition emitted {A} (m : M A) (st : state) : list event :=
  skipn (length (log st)) (log (m st).2).

Definition initial_state : state := {| tmp_files := ∅; log := [] |}.

(** ** compile_error.py *)

Section CompileError.
Context `{RT : PythonRuntime}.

Definition handle_compile_error (stderr_content : str) (exit_code : option Z) : M unit :=
  let undefined_references := re_finditer _is_undefined_reference stderr_content in
  match undefined_references with
  | _ :: _ =>
      let missing_references :=
        set_iter (map (fun m => group m "missing_reference") undefined_references) in
      with_ (Message
               (u "Could not find the following references:" ++ nl ++
                join nl (map (fun m_ref => u " * `" ++ m_ref ++ u "`") missing_references))
               MARKDOWN (Some (u "error")))
        (ret tt)
  | [] =>
      match re_search _is_compile_error stderr_content with
      | Some compile_error_match =>
          let line := group compile_error_match "line" in
          let column := group compile_error_match "column" in
          let error_message := group compile_error_match "message" in
          with_ (Message error_message CODE None)
            (row <- of_option (py_int line) ValueError ;;
             with_ (Annotation row error_message (u "error")) (ret tt))
      | None =>
          let error_message_md :=
            u "> ```" ++ nl ++
            join nl (map (fun line => u "> " ++ line) (split_nl stderr_content)) ++
            nl ++ u "> ```" in
          with_ (Message
                   (u "Failed to build solution." ++ nl ++
                    u "Cmake returned exit code **" ++ str_of_opt_Z exit_code ++ u "**." ++ nl ++
                    error_message_md)
                   MARKDOWN (Some (u "error")))
            (ret tt)
      end
  end.

End CompileError.

(** ** judge.py *)

(** [p.open("r", errors="replace").read()], and with [strict] the reading
    of a file opened with [encoding="utf-8"]. *)
Definition read_text (w : world) (p : path) (strict : bool) : M str :=
  emit (Open p) ;;;
  match lookup_path (fs w) p with
  | Some (File text utf8) =>
      if strict && negb utf8 then raise UnicodeDecodeError else ret text
  | Some (Dir _) => raise IsADirectoryError
  | None => raise FileNotFoundError
  end.

(** [tempfile.NamedTemporaryFile(delete=False)]: a file of a fresh name. *)
Definition NamedTemporaryFile : M N :=
  fun st =>
    let name := fresh (tmp_files st) in
    (Ok name, {| tmp_files := {[name]} ∪ tmp_files st;
                 log := log st ++ [MkTemp name] |}).

(** [subprocess.run(["lit", str(target), "-o", out], ...)]: the return code,
    and what the tool left in [out]. *)
Definition subprocess_run_lit (w : world) (target : path) (out : N)
    : M (Z * option lit_test) :=
  emit (Lit target out) ;;;
  match lit w target with
  | LitNotFound => raise FileNotFoundError
  | LitExit returncode report => ret (returncode, report)
  end.

(** [with open(out, "r") as f: json.load(f)["tests"][0]] *)
Definition json_load_tests0 (out : N) (report : option lit_test) : M lit_test :=
  emit (OpenTemp out) ;;; of_option report JSONDecodeError.

(** [os.remove(name)] *)
Definition os_remove (name : N) : M unit :=
  fun st =>
    let st' := {| tmp_files := tmp_files st ∖ {[name]};
                  log := log st ++ [Remove name] |} in
    if decide (name ∈ tmp_files st) then (Ok tt, st')
    else (Raise FileNotFoundError, st').

(** The dictionary [_test_run_helper] returns. *)
Record outcome := {
  correct : bool;
  o_status : str;
  duration : float;
  expected_output : option str;
  expected_error : option str;
  generated_output : option str;
  generated_error : option str
}.

Definition get_test_output_files
    (test_source_path evaluation_folder build_path : path) : M (path * path) :=
  rel_path <- of_option (relative_to test_source_path evaluation_folder) ValueError ;;
  let out_dir := build_path ++ [u "test"] ++ path_parent rel_path ++ [u "Output"] in
  ret (out_dir ++ [path_name test_source_path ++ u ".tmp.stdout"],
       out_dir ++ [path_name test_source_path ++ u ".tmp.stderr"]).

Definition _test_run_helper (w : world)
    (test_source_path expected_output_path expected_error_path
     evaluation_folder build_path : path) : M outcome :=
  expected_output <-
    (if path_exists w expected_output_path
     then read_text w expected_output_path false else ret []) ;;
  expected_error <-
    (if path_exists w expected_error_path
     then read_text w expected_error_path false else ret []) ;;
  rel <- of_option (relative_to test_source_path evaluation_folder) ValueError ;;
  let lit_target_path := build_path ++ [u "test"] ++ rel in
  (* the temporary file is created by the first statement of the [try]
     block; creating it is taken to succeed, so it is bound when the
     [finally] clause runs *)
  tmp_lit_ouput_file <- NamedTemporaryFile ;;
  run <- try_finally
           (proc_rec <- subprocess_run_lit w lit_target_path tmp_lit_ouput_file ;;
            lit_output_json <- json_load_tests0 tmp_lit_ouput_file proc_rec.2 ;;
            ret (proc_rec.1, lit_output_json))
           (os_remove tmp_lit_ouput_file) ;;
  let is_correct := (run.1 =? 0)%Z in
  test_status <- of_option (code run.2) KeyError ;;
  test_duration <- of_option (elapsed run.2) KeyError ;;
  if endswith (path_name lit_target_path) (u ".custom.c") then
    ret {| correct := is_correct;
           o_status := test_status;
           duration := test_duration;
           expected_output := None;
           expected_error := None;
           generated_output := None;
           generated_error := None |}
  else
    files <- get_test_output_files test_source_path evaluation_folder build_path ;;
    generated_output <- read_text w files.1 false ;;
    generated_error <- read_text w files.2 false ;;
    ret {| correct := is_correct;
           o_status := test_status;
           duration := test_duration;
           expected_output := Some expected_output;
           expected_error := Some expected_error;
           generated_output := Some generated_output;
           generated_error := Some generated_error |}.

(** Every line of a text prefixed by [> ]:
    ["\n".join(f"> {l}" for l in warning.split("\n"))] *)
Definition block_quote (text : str) : str :=
  join nl (map (fun l => u "> " ++ l) (split_nl text)).

Definition warn_unexpected_error (error_message : str) : M unit :=
  let lightning_icon := u "&#9889;" in
  let warning :=
    lightning_icon ++ u " **Your solution threw an unexpected error:**" ++ nl ++
    u "```" ++ nl ++ error_message ++ nl ++ u "```" in
  with_ (Message (block_quote warning) MARKDOWN None) (ret tt).

Definition warn_timeout (duration : float) : M unit :=
  let stopwatch_icon := u "&#9201;&#65039;" in
  let warning :=
    stopwatch_icon ++ u " **Your solution timed out:** it took more than " ++
    format_1f duration ++ u " s" in
  with_ (Message (block_quote warning) MARKDOWN None) (ret tt).

(** [f.readlines()]: the lines, each with its newline. *)
Fixpoint readlines (s : str) : list str :=
  match s with
  | [] => []
  | c :: s' =>
      if N.eqb c NL then [c] :: readlines s'
      else match readlines s' with
           | l :: ls => (c :: l) :: ls
           | [] => [[c]]
           end
  end.

(** Truth of an optional text: neither [None] nor empty. *)
Definition truthy (o : option str) : bool :=
  match o with
  | Some (_ :: _) => true
  | _ => false
  end.

Definition _status_correct : attr := status CORRECT CORRECT.
Definition _status_wrong : attr := status WRONG WRONG.

Definition run_test (w : world)
    (test_source_path expected_output_path expected_error_path
     evaluation_folder build_path : path) : M (gmap str Z) :=
  o <- _test_run_helper w test_source_path expected_output_path
         expected_error_path evaluation_folder build_path ;;
  let is_correct := correct o in
  let did_timeout := str_eqb (o_status o) (u "TIMEOUT") in
  (* --- Test file to markdown --- *)
  text <- read_text w test_source_path true ;;
  rel <- of_option (relative_to test_source_path evaluation_folder) ValueError ;;
  let short_file_path_str := path_str rel in
  let test_code := readlines text in
  let test_code :=
    if (10 <? length test_code)%nat
    then firstn 9 test_code ++ [u "... // Remainder of code omitted"]
    else test_code in
  let test_code_md := u "```c" ++ nl ++ concat test_code ++ nl ++ u "```" in
  (* the branch under [if False:] is never taken *)
  (* --- Get expected output/error --- *)
  let '(expected, generated_, unexpected_error) :=
    if truthy (expected_error o)
    then (expected_error o, generated_error o, false)
    else (expected_output o, generated_output o, truthy (generated_error o)) in
  (* --- Output test info --- *)
  with_attrs
    (Test {| d_description := u " &#x1F4C4; " ++ short_file_path_str ++ nl ++ test_code_md;
             d_format := MARKDOWN |} expected)
    ((if unexpected_error then warn_unexpected_error (default [] (generated_error o))
      else if did_timeout then warn_timeout (duration o)
      else ret tt) ;;;
     ret (tt, [if is_correct then _status_correct else _status_wrong;
               generated generated_])) ;;;
  (* --- Help counting the total number of (in)correct tests *)
  ret (Counter_of (if is_correct then 1 else 0) 1).

Definition success_bar (num_success num_total : Z) (width : Z) : M str :=
  if (num_total =? 0)%Z then raise ZeroDivisionError
  else
    let success_rate := PrimFloat.div (float_of_Z num_success) (float_of_Z num_total) in
    bar_length <- of_option (floor_float (PrimFloat.mul success_rate (float_of_Z width)))
                    ValueError ;;
    ret (repeat 9608%N (Z.to_nat bar_length) ++
         repeat 9617%N (Z.to_nat (width - bar_length))).

Definition run_hidden_tests (w : world)
    (hidden_tests_folder evaluation_folder build_path : path) : M (gmap str Z) :=
  let all_source_files := glob_rec_c w hidden_tests_folder in
  counts <- for_each all_source_files
    (fun test_source_path (acc : Z * Z) =>
       let expected_output_path :=
         hidden_tests_folder ++ [path_name test_source_path ++ u ".stdout"] in
       let expected_error_path :=
         hidden_tests_folder ++ [path_name test_source_path ++ u ".stderr"] in
       o <- _test_run_helper w test_source_path expected_output_path
              expected_error_path evaluation_folder build_path ;;
       ret ((acc.1 + (if correct o then 1 else 0))%Z, (acc.2 + 1)%Z))
    (0%Z, 0%Z) ;;
  let num_success := counts.1 in
  let num_tests := counts.2 in
  bar <- success_bar num_success num_tests 20 ;;
  let test_case_message :=
    {| d_description :=
         u "##### Hidden tests: " ++ bar ++ u " " ++ str_of_Z num_success ++
         u "/" ++ str_of_Z num_tests ++ u " correct";
       d_format := MARKDOWN |} in
  with_attrs (TestCase test_case_message)
    (ret (tt, [accepted (num_success =? num_tests)%Z])) ;;;
  ret (Counter_of num_success num_tests).

Section Judge.
Context `{RT : PythonRuntime}.

(** [s.replace(a, b)] for single characters. *)
Definition replace_char (a b : char) (s : str) : str :=
  map (fun c => if N.eqb c a then b else c) s.

Definition folder_path_to_title (folder_path : path) : str :=
  capitalize (replace_char (chr "-") (chr " ")
                (replace_char (chr "_") (chr " ") (path_name folder_path))).

Definition run_test_case (w : world)
    (test_case_folder_path evaluation_folder build_path : path) : M (gmap str Z) :=
  let test_case_name :=
    {| d_description := u "##### " ++ folder_path_to_title test_case_folder_path;
       d_format := MARKDOWN |} in
  with_ (TestCase test_case_name)
    (let all_source_files := glob_c w test_case_folder_path in
     for_each all_source_files
       (fun test_source_path res =>
          let expected_output_path :=
            test_case_folder_path ++ [path_name test_source_path ++ u ".stdout"] in
          let expected_error_path :=
            test_case_folder_path ++ [path_name test_source_path ++ u ".stderr"] in
          c <- run_test w test_source_path expected_output_path
                 expected_error_path evaluation_folder build_path ;;
          ret (counter_iadd res c))
       Counter_empty).

(** [bool(list(xs))] *)
Definition nonempty {A} (xs : list A) : bool :=
  match xs with
  | [] => false
  | _ :: _ => true
  end.

(** [p.name in names] *)
Definition name_in (names : list str) (p : path) : bool :=
  existsb (str_eqb (path_name p)) names.

Definition create_context (w : world)
    (context_folder evaluation_folder build_path : path) (is_dummy : bool)
    : M (gmap str Z) :=
  let ctx_kwargs :=
    if negb is_dummy
    then Some {| d_description := u "#### " ++ folder_path_to_title context_folder;
                 d_format := MARKDOWN |}
    else None in
  let has_sub_folders :=
    nonempty (glob_sub_rec_c w context_folder) &&
    negb (forallb (name_in [u "hidden"])
            (List.filter (is_dir w) (glob_star w context_folder))) in
  let hidden_tests :=
    fun res =>
      if path_exists w (context_folder ++ [u "hidden"])
      then c <- run_hidden_tests w (context_folder ++ [u "hidden"])
                  evaluation_folder build_path ;;
           ret (counter_iadd res c)
      else ret res in
  with_ (Context ctx_kwargs)
    (if negb has_sub_folders then
       c <- run_test_case w context_folder evaluation_folder build_path ;;
       hidden_tests (counter_iadd Counter_empty c)
     else
       let test_case_folders := List.filter (is_dir w) (glob_star w context_folder) in
       res <- for_each test_case_folders
                (fun folder res =>
                   if name_in [u "hidden"; u "grading"] folder
                   then ret res (* We want to run the hidden tests last *)
                   else c <- run_test_case w folder evaluation_folder build_path ;;
                        ret (counter_iadd res c))
                Counter_empty ;;
       hidden_tests res).

(** [set(a) == set(b)] for two lists of paths. *)
Definition same_set (a b : list path) : bool :=
  bool_decide ((list_to_set a : gset path) = list_to_set b).

Definition create_tab (w : world)
    (tab_folder evaluation_folder build_path : path) : M (gmap str Z) :=
  let is_grading_only :=
    same_set (glob_rec_c w tab_folder) (glob_grading_rec_c w tab_folder) in
  if is_grading_only then ret Counter_empty
  else
    let has_sub_rubrics :=
      nonempty (glob_sub_rec_c w tab_folder) &&
      negb (forallb (name_in [u "hidden"; u "grading"])
              (List.filter (is_dir w) (glob_star w tab_folder))) in
    with_attrs (Tab (folder_path_to_title tab_folder))
      (res <-
         (if negb has_sub_rubrics then
            c <- create_context w tab_folder evaluation_folder build_path true ;;
            ret (counter_iadd Counter_empty c)
          else
            let context_folders := List.filter (is_dir w) (glob_star w tab_folder) in
            for_each context_folders
              (fun folder res =>
                 c <- create_context w folder evaluation_folder build_path false ;;
                 ret (counter_iadd res c))
              Counter_empty) ;;
       let num_incorrect := (counter_get res (u "total") - counter_get res (u "correct"))%Z in
       ret (res, [badgeCount num_incorrect])).

Definition test_submission (w : world) (evaluation_folder build_path : path)
    : M (gmap str Z) :=
  let tab_folders := List.filter (is_dir w) (glob_star w evaluation_folder) in
  for_each tab_folders
    (fun folder res =>
       c <- create_tab w folder evaluation_folder build_path ;;
       ret (counter_iadd res c))
    Counter_empty.

End Judge.

(** ** Notions the statements below use *)

(** The groups a pattern binds whatever branch it takes. *)
Fixpoint binds (name : string) (r : regex) : bool :=
  match r with
  | RSeq r1 r2 => binds name r1 || binds name r2
  | RAlt r1 r2 => binds name r1 && binds name r2
  | RGroup n r1 => String.eqb n name || binds name r1
  | _ => false
  end.

(** The rest of the text is empty or starts a new line. *)
Definition at_eol (s : str) : Prop := s = [] \/ exists s', s = NL :: s'.

(** The pattern ends with a greedy [.*]: it runs to the end of the line. *)
Fixpoint ends_with_rest_of_line (r : regex) : bool :=
  match r with
  | RSeq _ r2 => ends_with_rest_of_line r2
  | RGroup _ r1 => ends_with_rest_of_line r1
  | RStar RAny => true
  | _ => false
  end.

(** A line: a text without a newline. *)
Definition no_newline (l : str) : Prop := Forall (fun c => c <> NL) l.

(** The state [st] with [evs] added to its log. *)
Definition add_log (st : state) (evs : list event) : state :=
  {| tmp_files := tmp_files st; log := log st ++ evs |}.

(** One line for each name: a newline, a bullet and the name between
    backquotes. *)
Fixpoint bullet_lines (names : list str) : str :=
  match names with
  | [] => []
  | name :: names' => nl ++ u " * `" ++ name ++ u "`" ++ bullet_lines names'
  end.

(** The three variants of the spec's DiagnosticReport, as the reporting
    library receives them. *)
Definition unresolved_symbols_report (names : list str) : list event :=
  let m := Message
             (u "Could not find the following references:" ++ bullet_lines names)
             MARKDOWN (Some (u "error")) in
  [Start m; Close m []].

Definition located_error_report (row : Z) (message : str) : list event :=
  let m := Message message CODE None in
  let a := Annotation row message (u "error") in
  [Start m; Start a; Close a []; Close m []].

(** The located report cut short: the message is opened, [int] refuses the
    line number, and the message is closed as the exception leaves. *)
Definition refused_line_report (message : str) : list event :=
  let m := Message message CODE None in
  [Start m; Close m []].

Definition fallback_report (exit_code : option Z) (quoted : str) : list event :=
  let m := Message
             (u "Failed to build solution." ++ nl ++
              u "Cmake returned exit code **" ++ str_of_opt_Z exit_code ++ u "**." ++ nl ++
              quoted)
             MARKDOWN (Some (u "error")) in
  [Start m; Close m []].

(** The block quote of the fallback, undone: the prefix [> ] is taken off
    every line, and the two fence lines are dropped. *)
Definition unquote_block (quoted : str) : str :=
  join nl (removelast (tl (map (skipn 2) (split_nl quoted)))).

Section PatternTexts.
Context `{RT : PythonRuntime}.

(** A character of the path of a compiler diagnostic: [/], [\w] or [.]. *)
Definition path_char (c : char) : bool :=
  N.eqb c (chr "/") || is_word c || N.eqb c (chr ".").

(** The first compiler diagnostic of the text [s]: [s] is [pre], the
    diagnostic and [post]; the diagnostic is a path, a line number, a column
    number and a message that runs to the end of its line; and no match of
    the compile-error pattern starts before it in [s]. *)
Definition first_diagnostic (s pre path line col msg post : str) : Prop :=
  s = pre ++ (path ++ u ":" ++ line ++ u ":" ++ col ++ u ": error: " ++ msg) ++ post /\
  path <> [] /\ Forall (fun c => path_char c = true) path /\
  line <> [] /\ Forall (fun c => is_digit c = true) line /\
  col <> [] /\ Forall (fun c => is_digit c = true) col /\
  msg <> [] /\ no_newline msg /\ at_eol post /\
  (forall pre' w' post' g0 g',
      s = pre' ++ w' ++ post' -> Matches _is_compile_error w' g0 g' ->
      (length pre <= length pre')%nat).

(** A character of the section of a linker's location: [\w], [+] or [.]. *)
Definition section_char (c : char) : bool :=
  is_word c || N.eqb c (chr "+") || N.eqb c (chr ".").

(** The part of the undefined-reference pattern behind [.*\n?]: the
    location, the words and the name. *)
Definition reference_location : regex :=
  RSeq (RPlus RWord)
  (RSeq (RLit (chr "."))
  (RSeq (RAlt (RStr (u "h")) (RStr (u "cpp")))
  (RSeq (RStr (u ":("))
  (RSeq (RPlus (RSet false [CWord; CLit (chr "+"); CLit (chr ".")]))
  (RSeq (RStr (u "): undefined reference to `"))
  (RSeq (RGroup "missing_reference" (RStar (RSet true [CLit (chr "'")])))
        (RLit (chr "'")))))))).

(** The location and the name of a linker's complaint, in words: a file
    name with the extension [h] or [cpp], a section in parentheses, the
    words [undefined reference to] and the name between a backquote and the
    next quote. *)
Definition reference_tail (name t : str) : Prop :=
  exists file ext sect,
    t = file ++ u "." ++ ext ++ u ":(" ++ sect ++
        u "): undefined reference to `" ++ name ++ u "'" /\
    file <> [] /\ Forall (fun c => is_word c = true) file /\
    (ext = u "h" \/ ext = u "cpp") /\
    sect <> [] /\ Forall (fun c => section_char c = true) sect /\
    Forall (fun c => c <> chr "'") name.

(** A linker's complaint about [name]: the literal [/usr/bin/ld: ], the rest
    of that line or a part of it, a newline or none, and the location with
    the name; [lead] counts the characters between the literal and the
    location. *)
Definition reference_text (lead : nat) (name w : str) : Prop :=
  exists rest onl t,
    w = u "/usr/bin/ld: " ++ rest ++ onl ++ t /\
    no_newline rest /\ (onl = [] \/ onl = nl) /\
    lead = length (rest ++ onl) /\
    reference_tail name t.

(** A complaint found in a text: the text before it, the complaint, how far
    behind the literal its location starts, and the name it gives. *)
Record finding := {
  f_before : str;
  f_text : str;
  f_lead : nat;
  f_name : str
}.

Definition f_start (f : finding) : nat := length (f_before f).
Definition f_end (f : finding) : nat := (length (f_before f) + length (f_text f))%nat.

(** What a scan of the text [s] from left to right finds, from the position
    [from] on:
    - every finding stands in [s], at [from] or behind it, and is a
      complaint; of all complaints that start where it starts, it is the one
      whose location starts last (the starred [.] and the optional newline
      take all they can);
    - the findings stand one behind the other, none overlapping another;
    - every complaint of [s] at [from] or behind it starts inside a finding,
      so that a finding is the first complaint behind the finding before
      it. *)
Definition scan (from : nat) (s : str) (found : list finding) : Prop :=
  Forall (fun f =>
            (from <= f_start f)%nat /\
            (exists after, s = f_before f ++ f_text f ++ after) /\
            reference_text (f_lead f) (f_name f) (f_text f) /\
            (forall w post lead name,
                s = f_before f ++ w ++ post -> reference_text lead name w ->
                (lead <= f_lead f)%nat)) found /\
  List.ForallOrdPairs (fun f1 f2 => (f_end f1 <= f_start f2)%nat) found /\
  (forall pre w post lead name,
      s = pre ++ w ++ post -> reference_text lead name w -> (from <= length pre)%nat ->
      exists f, In f found /\ (f_start f <= length pre < f_end f)%nat).

End PatternTexts.

(** A file is opened and read: the only thing [_test_run_helper] does
    outside the block that owns the temporary file. *)
Definition is_open (e : event) : Prop := exists p, e = Open p.

(** What reading an optional expectation file logs. *)
Definition opt_read_events (w : world) (p : path) : list event :=
  if path_exists w p then [Open p] else [].

(** A file or tool operation, as opposed to a report node. *)
Definition tool_event (e : event) : bool :=
  match e with
  | Start _ | Close _ _ => false
  | _ => true
  end.

(** The fixture a target of the tool was built from: [build/test/rel] comes
    from [evaluation/rel]. *)
Definition lit_source (evaluation_folder build_path target : path) : option path :=
  option_map (app evaluation_folder) (relative_to target (build_path ++ [u "test"])).

(** [p] lies under the directory [dir]. *)
Definition under (dir p : path) : bool :=
  match relative_to p dir with
  | Some _ => true
  | None => false
  end.

(** A computation run from [st] changes no temporary file in the end, logs
    events that all satisfy [Pe], and returns, if it returns, a value that
    satisfies [Pr]. *)
Definition spec {A} (m : M A) (st : state) (Pe : event -> Prop) (Pr : A -> Prop) : Prop :=
  exists r evs, m st = (r, add_log st evs) /\ Forall Pe evs /\ (forall a, r = Ok a -> Pr a).

Section EventKinds.
Variables evaluation_folder build_path : path.

(** Events of [_test_run_helper] on the fixture [src]. *)
Definition helper_event (src : path) (e : event) : Prop :=
  tool_event e = true /\
  match e with
  | Lit t _ => lit_source evaluation_folder build_path t = Some src
  | _ => True
  end.

(** Events of [run_test] on the fixture [src]: those of the helper, the
    reading of the fixture, the test node and its warning. *)
Definition test_event (src : path) (e : event) : Prop :=
  match e with
  | Lit t _ => lit_source evaluation_folder build_path t = Some src
  | Start (Test _ _) | Close (Test _ _) _ => True
  | Start (Message _ _ _) | Close (Message _ _ _) _ => True
  | Start _ | Close _ _ => False
  | _ => True
  end.

(** Events of [run_test_case] on [folder]: a test case node closed without
    attributes, around the events of the tests on the [*.c] files directly
    in [folder]. *)
Definition group_event (folder : path) (e : event) : Prop :=
  match e with
  | Lit t _ =>
      exists name, lit_source evaluation_folder build_path t = Some (folder ++ [name]) /\
                   is_c_name name = true
  | Start (TestCase _) => True
  | Close (TestCase _) attrs => attrs = []
  | Start (Test _ _) | Close (Test _ _) _ => True
  | Start (Message _ _ _) | Close (Message _ _ _) _ => True
  | Start _ | Close _ _ => False
  | _ => True
  end.

(** The tool is run on a fixture under [dir]. *)
Definition lit_under (dir : path) (e : event) : bool :=
  match e with
  | Lit t _ =>
      match lit_source evaluation_folder build_path t with
      | Some src => under dir src
      | None => false
      end
  | _ => false
  end.

(** The tool is run on a fixture that is not under [dir]. *)
Definition lit_outside (dir : path) (e : event) : bool :=
  match e with
  | Lit t _ => negb (lit_under dir e)
  | _ => false
  end.

(** An event of a visible group next to the hidden folder [hid]: anything
    but a run of the tool on a fixture under [hid] and a test case closed
    with attributes (the hidden summary, closed with [accepted], is the only
    such node). *)
Definition visible_event (hid : path) (e : event) : Prop :=
  lit_under hid e = false /\
  match e with
  | Close (TestCase _) attrs => attrs = []
  | _ => True
  end.

(** An event of the hidden batch before its summary: a file or tool
    operation, the tool running on fixtures under [hid] only. *)
Definition hidden_event (hid : path) (e : event) : Prop :=
  tool_event e = true /\ lit_outside hid e = false.

End EventKinds.

(** The summary node of the hidden batch. *)
Definition hidden_summary (bar : str) (num_success num_tests : Z) : list event :=
  let n := TestCase
             {| d_description :=
                  u "##### Hidden tests: " ++ bar ++ u " " ++ str_of_Z num_success ++
                  u "/" ++ str_of_Z num_tests ++ u " correct";
                d_format := MARKDOWN |} in
  [Start n; Close n [accepted (num_success =? num_tests)%Z]].

(** The two warnings [run_test] can attach to a test node. *)
Definition unexpected_error_message (error_message : str) : node :=
  Message
    (block_quote
       (u "&#9889;" ++ u " **Your solution threw an unexpected error:**" ++ nl ++
        u "```" ++ nl ++ error_message ++ nl ++ u "```"))
    MARKDOWN None.

Definition timeout_message (duration : float) : node :=
  Message
    (block_quote
       (u "&#9201;&#65039;" ++ u " **Your solution timed out:** it took more than " ++
        format_1f duration ++ u " s"))
    MARKDOWN None.

(** The messages (warnings) a log attaches. *)
Definition attached_messages (evs : list event) : list node :=
  flat_map (fun e => match e with
                     | Start (Message d f t) => [Message d f t]
                     | _ => []
                     end) evs.

(** ** Notions of the further properties *)

(** [s.startswith(prefix)] *)
Fixpoint startswith (s prefix : str) {struct prefix} : bool :=
  match prefix with
  | [] => true
  | c :: prefix' =>
      match s with
      | d :: s' => N.eqb c d && startswith s' prefix'
      | [] => false
      end
  end.

(** [sub in s] *)
Fixpoint str_in (sub s : str) : bool :=
  startswith s sub ||
  match s with
  | [] => false
  | _ :: s' => str_in sub s'
  end.

(** [s.count("\n")] *)
Definition count_nl (s : str) : nat := length (List.filter (N.eqb NL) s).

(** The code of a fixture as [run_test] shows it: all of it up to ten
    lines, the first nine lines and a remark beyond. *)
Definition shown_code (text : str) : str :=
  let test_code := readlines text in
  concat (if (10 <? length test_code)%nat
          then firstn 9 test_code ++ [u "... // Remainder of code omitted"]
          else test_code).

(** The description of the test node of a fixture. *)
Definition test_description (rel : path) (text : str) : description :=
  {| d_description :=
       u " &#x1F4C4; " ++ path_str rel ++ nl ++
       (u "```c" ++ nl ++ shown_code text ++ nl ++ u "```");
     d_format := MARKDOWN |}.

(** The text of the file at [p], empty where there is no file. *)
Definition text_at (w : world) (p : path) : str :=
  match lookup_path (fs w) p with
  | Some (File text _) => text
  | _ => []
  end.

(** The fixture [src] passes: the tool exits with code 0 on its target. *)
Definition passes (w : world) (evaluation_folder build_path src : path) : bool :=
  match relative_to src evaluation_folder with
  | Some rel =>
      match lit w (build_path ++ [u "test"] ++ rel) with
      | LitExit returncode _ => (returncode =? 0)%Z
      | LitNotFound => false
      end
  | None => false
  end.

(** The number of cells [success_bar] fills, as it computes it:
    [math.floor(num_success / num_total * width)] in floating point. *)
Definition bar_length (num_success num_total width : Z) : option Z :=
  floor_float (PrimFloat.mul (PrimFloat.div (float_of_Z num_success) (float_of_Z num_total))
                             (float_of_Z width)).

(** The bar of width 20 fills [20 * s / t] cells (the exact quotient,
    rounded down) for all [0 <= s <= t] and [0 < t <= n]. *)
Definition bar_exact_upto (n : nat) : bool :=
  forallb (fun t =>
    forallb (fun s =>
      match bar_length (Z.of_nat s) (Z.of_nat (S t)) 20 with
      | Some k => (k =? 20 * Z.of_nat s / Z.of_nat (S t))%Z
      | None => false
      end) (seq 0 (S (S t)))) (seq 0 n).

(** Whenever the tool is run, it is run on the target of a fixture that
    satisfies [Q]. *)
Definition lit_on (evaluation_folder build_path : path) (Q : path -> Prop) (e : event) : Prop :=
  match e with
  | Lit t _ => exists src, lit_source evaluation_folder build_path t = Some src /\ Q src
  | _ => True
  end.

(** The classification [create_context] makes of a folder: it has
    sub-folders when a [*.c] entry lies below one of its entries and its
    directories are not all named [hidden]. *)
Definition has_sub_folders (w : world) (context_folder : path) : bool :=
  nonempty (glob_sub_rec_c w context_folder) &&
  negb (forallb (name_in [u "hidden"])
          (List.filter (is_dir w) (glob_star w context_folder))).

(** The fixtures of a sub-rubric folder: its own [*.c] entries when it has
    no sub-folders, else those of its directories other than [hidden] and
    [grading]; and in both cases every [*.c] entry below its [hidden]
    folder. *)
Definition context_fixture (w : world) (context_folder src : path) : Prop :=
  (has_sub_folders w context_folder = false /\ In src (glob_c w context_folder)) \/
  (has_sub_folders w context_folder = true /\
   exists folder,
     In folder (List.filter (is_dir w) (glob_star w context_folder)) /\
     name_in [u "hidden"; u "grading"] folder = false /\
     In src (glob_c w folder)) \/
  In src (glob_rec_c w (context_folder ++ [u "hidden"])).

(** The classification [create_tab] makes of a folder: it has sub-rubrics
    when a [*.c] entry lies below one of its entries and its directories are
    not all named [hidden] or [grading]. *)
Definition has_sub_rubrics (w : world) (tab_folder : path) : bool :=
  nonempty (glob_sub_rec_c w tab_folder) &&
  negb (forallb (name_in [u "hidden"; u "grading"])
          (List.filter (is_dir w) (glob_star w tab_folder))).

(** The fixtures of a rubric folder: those of the folder itself, taken as
    one sub-rubric, when it has no sub-rubrics, else those of each of its
    directories. *)
Definition tab_fixture (w : world) (tab_folder src : path) : Prop :=
  (has_sub_rubrics w tab_folder = false /\ context_fixture w tab_folder src) \/
  (has_sub_rubrics w tab_folder = true /\
   exists folder,
     In folder (List.filter (is_dir w) (glob_star w tab_folder)) /\
     context_fixture w folder src).

(** The depth at which a node of each kind stands in a report: tabs hold
    contexts, contexts test cases, test cases tests, tests messages. *)
Definition rank (n : node) : nat :=
  match n with
  | Tab _ => 0
  | Context _ => 1
  | TestCase _ => 2
  | Test _ _ => 3
  | Message _ _ _ => 4
  | Annotation _ _ _ => 5
  end.

(** Two nodes are the same or differ. *)
Definition node_eq_dec : forall a b : node, {a = b} + {a <> b}.
Proof.
  assert (Hf : forall a b : MessageFormat, {a = b} + {a <> b}) by decide equality.
  assert (Hd : forall a b : description, {a = b} + {a <> b})
    by (decide equality; apply str_eq_dec).
  assert (Hos : forall a b : option str, {a = b} + {a <> b})
    by (decide equality; apply str_eq_dec).
  assert (Hod : forall a b : option description, {a = b} + {a <> b})
    by (decide equality).
  decide equality; try apply str_eq_dec; try apply Z.eq_dec.
Defined.

(** The report nodes of a log are well nested inside the nodes [open]
    (innermost first): a node is closed by a [Close] of that very node,
    after the nodes opened inside it, none is left open at the end, and a
    node opened inside [k] others is of rank [k]. *)
Fixpoint well_nested (open : list node) (evs : list event) : bool :=
  match evs with
  | [] => match open with [] => true | _ :: _ => false end
  | Start n :: evs' => (rank n =? length open)%nat && well_nested (n :: open) evs'
  | Close n _ :: evs' =>
      match open with
      | m :: open' => (if node_eq_dec m n then true else false) && well_nested open' evs'
      | [] => false
      end
  | _ :: evs' => well_nested open evs'
  end.

(** A stretch of a log that is well nested at depth [k] on its own:
    checking it inside [k] open nodes comes back to the same open nodes. *)
Definition nests (k : nat) (evs : list event) : Prop :=
  forall open rest, length open = k -> well_nested open (evs ++ rest) = well_nested open rest.

(** Every run of [m] logs a stretch well nested at depth [k]. *)
Definition nested_run {A} (m : M A) (k : nat) : Prop :=
  forall st, exists r evs, m st = (r, add_log st evs) /\ nests k evs.

(** The runs of the tool in a log, and those on which it exited with 0. *)
Definition is_lit (e : event) : bool :=
  match e with
  | Lit _ _ => true
  | _ => false
  end.

Definition lit_passed (w : world) (e : event) : bool :=
  match e with
  | Lit target _ =>
      match lit w target with
      | LitExit returncode _ => (returncode =? 0)%Z
      | LitNotFound => false
      end
  | _ => false
  end.

(** The counter [c] counts the runs of the tool in [evs]: every run once in
    the total, the runs that exited with 0 as correct. *)
Definition counts_runs (w : world) (c : gmap str Z) (evs : list event) : Prop :=
  counter_nonneg c /\
  counter_get c (u "total") = Z.of_nat (length (List.filter is_lit evs)) /\
  counter_get c (u "correct") = Z.of_nat (length (List.filter (lit_passed w) evs)).

(** When [m] returns, its counter counts the runs of the tool it made. *)
Definition accounted (w : world) (m : M (gmap str Z)) : Prop :=
  forall st c st',
    m st = (Ok c, st') -> exists evs, st' = add_log st evs /\ counts_runs w c evs.

(** When [step] returns, it has added to its counter the runs it made. *)
Definition accumulates (w : world) (step : gmap str Z -> M (gmap str Z)) : Prop :=
  forall res evs0 st a st',
    counts_runs w res evs0 -> step res st = (Ok a, st') ->
    exists evs, st' = add_log st evs /\ counts_runs w a (evs0 ++ evs).


(** ** Notions of the order of the work in a sub-rubric *)

(** What a log shows of the order of the work: the fixtures the tool was
    run on, and the test case nodes that were opened. *)
Inductive mark :=
| Ran (fixture : option path)
| Group (description : str).

Definition outline (evaluation_folder build_path : path) (evs : list event) : list mark :=
  flat_map (fun e =>
              match e with
              | Lit t _ => [Ran (lit_source evaluation_folder build_path t)]
              | Start (TestCase d) => [Group (d_description d)]
              | _ => []
              end) evs.

(** There is a file at [p]. *)
Definition is_file (w : world) (p : path) : Prop :=
  exists text utf8, lookup_path (fs w) p = Some (File text utf8).

(** What it takes for [_test_run_helper] to return on the fixture [src]
    with the expectation paths [eo] and [ee]: neither path is a directory,
    the fixture lies below the evaluation folder, the tool runs on its
    target and leaves a report with a status and a duration, and unless the
    fixture is a custom one its two files of generated output are there. *)
Definition helper_returns (w : world) (evaluation_folder build_path src eo ee : path) : Prop :=
  is_dir w eo = false /\ is_dir w ee = false /\
  exists rel rc t test_status test_duration,
    relative_to src evaluation_folder = Some rel /\
    lit w (build_path ++ [u "test"] ++ rel) = LitExit rc (Some t) /\
    code t = Some test_status /\ elapsed t = Some test_duration /\
    (endswith (path_name (build_path ++ [u "test"] ++ rel)) (u ".custom.c") = false ->
     is_file w (build_path ++ [u "test"] ++ path_parent rel ++ [u "Output"] ++
                [path_name src ++ u ".tmp.stdout"]) /\
     is_file w (build_path ++ [u "test"] ++ path_parent rel ++ [u "Output"] ++
                [path_name src ++ u ".tmp.stderr"])).

(** What it takes for [run_test] to return: the above, and the fixture is a
    file that decodes as UTF-8. *)
Definition test_returns (w : world) (evaluation_folder build_path src eo ee : path) : Prop :=
  helper_returns w evaluation_folder build_path src eo ee /\
  exists text, lookup_path (fs w) src = Some (File text true).

(** Every fixture of a visible group, and of a hidden batch, can be run to
    its end; the expectation files are looked for in the folder itself. *)
Definition group_returns (w : world) (evaluation_folder build_path folder : path) : Prop :=
  forall src, In src (glob_c w folder) ->
    test_returns w evaluation_folder build_path src
      (folder ++ [path_name src ++ u ".stdout"]) (folder ++ [path_name src ++ u ".stderr"]).

Definition batch_returns (w : world) (evaluation_folder build_path hid : path) : Prop :=
  forall src, In src (glob_rec_c w hid) ->
    helper_returns w evaluation_folder build_path src
      (hid ++ [path_name src ++ u ".stdout"]) (hid ++ [path_name src ++ u ".stderr"]).

(** The bar of a batch of [n] fixtures can be drawn, however many passed. *)
Definition bar_drawn (n : Z) : Prop :=
  forall s, (0 <= s <= n)%Z -> is_Some (bar_length s n 20).

(** Every run of [m] goes by the outline [expected]: when [ok] holds the
    run returns, and a run that returns has shown [ok] and left exactly
    that outline. *)
Definition plays {A} (evaluation_folder build_path : path) (m : M A)
    (expected : list mark) (ok : Prop) : Prop :=
  forall st, exists r evs,
    m st = (r, add_log st evs) /\
    (ok -> exists a, r = Ok a) /\
    ((exists a, r = Ok a) -> ok /\ outline evaluation_folder build_path evs = expected).

Section Order.
Context `{RT : PythonRuntime}.

(** The visible groups of a sub-rubric folder, in the order in which
    [create_context] runs them: the folder itself when it has no
    sub-folders, else its directories other than [hidden] and [grading], as
    the folder lists them. *)
Definition visible_folders (w : world) (context_folder : path) : list path :=
  if has_sub_folders w context_folder
  then List.filter (fun folder => negb (name_in [u "hidden"; u "grading"] folder))
         (List.filter (is_dir w) (glob_star w context_folder))
  else [context_folder].

(** The outline of a visible group: its test case node, then its fixtures
    in the order of the listing. *)
Definition group_outline (w : world) (folder : path) : list mark :=
  Group (u "##### " ++ folder_path_to_title folder) ::
  map (fun src => Ran (Some src)) (glob_c w folder).

End Order.

(** ** Sample data *)

Definition ascii_upper (c : char) : char :=
  if in_range 97 122 c then (c - 32)%N else c.

Definition ascii_lower (c : char) : char :=
  if in_range 65 90 c then (c + 32)%N else c.

Definition ascii_capitalize (s : str) : str :=
  match s with
  | [] => []
  | c :: s' => ascii_upper c :: map ascii_lower s'
  end.

(** A runtime for ASCII texts, whose sets iterate in the order of first
    insertion. *)
Definition ascii_runtime : PythonRuntime :=
  {| unicode_alnum := fun _ => false;
     unicode_decimal := fun _ => None;
     capitalize := ascii_capitalize;
     set_iter := List.nodup str_eq_dec;
     set_iter_perm := fun l => Permutation_refl _ |}.

(** Build-tool output: a link failure with a compiler error beside it, two
    compiler errors, two compiler errors that differ in the column only,
    and a text of neither kind. *)
Definition sample_link_error : str :=
  u "/usr/bin/ld: CMakeFiles/x.dir/main.cpp.o: in function `main':" ++ nl ++
  u "main.cpp:(.text+0x5): undefined reference to `foo(int)'" ++ nl ++
  u "/usr/bin/ld: main.cpp:(.text+0x15): undefined reference to `bar'" ++ nl ++
  u "/usr/bin/ld: main.cpp:(.text+0x25): undefined reference to `foo(int)'" ++ nl ++
  u "src/a.cpp:12:5: error: expected ;" ++ nl ++
  u "collect2: error: ld returned 1 exit status".

Definition sample_compile_error : str :=
  u "[ 50%] Building CXX object CMakeFiles/x.dir/src/a.cpp.o" ++ nl ++
  u "src/a.cpp:12:5: error: expected ;" ++ nl ++
  u "src/b.cpp:3:1: error: second".

Definition column_5 : str := u "a.cpp:3:5: error: x".
Definition column_7 : str := u "a.cpp:3:7: error: x".

Definition sample_unknown_error : str :=
  u "make: *** No rule to make target 'all'." ++ nl ++ nl ++ u "> Stop." ++ nl.

(** A link failure in two lines, the second without the linker's prefix;
    and a compiler error at a line whose number has 4301 digits. *)
Definition sample_reference_line : str :=
  u "/usr/bin/ld: a.cpp:(.text+0x1): undefined reference to `f'".

Definition sample_location_line : str :=
  u "b.cpp:(.text+0x2): undefined reference to `g'".

Definition sample_two_references : str :=
  sample_reference_line ++ nl ++ sample_location_line.

Definition sample_long_line : str :=
  u "a.cpp:" ++ repeat (chr "1") 4301 ++ u ":1: error: x".


(** A small course: the rubric [literals] with the sub-rubric [numeric],
    whose test case [integers] holds three fixtures next to a [hidden]
    folder (listed first) with one more, the rubric [instructor] with
    fixtures for grading only and an empty [hidden] folder, and the build tree with the output the
    fixtures left. *)
Definition sample_file (text : string) : fsnode := File (u text) true.

Definition sample_tree : fsnode :=
  Dir [(u "evaluation", Dir [
          (u "literals", Dir [
             (u "numeric", Dir [
                (u "hidden", Dir [(u "h.c", sample_file "int main() { return 2; }")]);
                (u "integers", Dir [
                   (u "a.c", sample_file "int main() { return 5; }");
                   (u "a.c.stdout", File (u "5" ++ nl) true);
                   (u "slow.c", sample_file "int main() { for (;;); }");
                   (u "t.custom.c", sample_file "// RUN: custom");
                   (u "t.custom.c.stdout", sample_file "unused")])])]);
          (u "instructor", Dir [
             (u "grading", Dir [(u "g.c", sample_file "int main() { return 0; }")]);
             (u "hidden", Dir [])])]);
       (u "build", Dir [
          (u "test", Dir [
             (u "literals", Dir [
                (u "numeric", Dir [
                   (u "hidden", Dir [
                      (u "Output", Dir [
                         (u "h.c.tmp.stdout", sample_file "2");
                         (u "h.c.tmp.stderr", sample_file "")])]);
                   (u "integers", Dir [
                      (u "Output", Dir [
                         (u "a.c.tmp.stdout", File (u "5" ++ nl) true);
                         (u "a.c.tmp.stderr", sample_file "");
                         (u "slow.c.tmp.stdout", sample_file "");
                         (u "slow.c.tmp.stderr", sample_file "segfault")])])])])])])].

(** The tool passes [a.c] and [h.c], fails [t.custom.c] and times out on
    [slow.c] after 2.5 seconds. *)
Definition sample_lit (target : path) : lit_result :=
  if str_eqb (path_name target) (u "slow.c")
  then LitExit 1 (Some {| code := Some (u "TIMEOUT"); elapsed := Some 2.5%float |})
  else if str_eqb (path_name target) (u "t.custom.c")
  then LitExit 1 (Some {| code := Some (u "FAIL"); elapsed := Some 0.25%float |})
  else LitExit 0 (Some {| code := Some (u "PASS"); elapsed := Some 0.125%float |}).

Definition sample_world : world := {| fs := sample_tree; lit := sample_lit |}.

Definition sample_evaluation : path := [u "evaluation"].
Definition sample_build : path := [u "build"].
Definition sample_context : path := [u "evaluation"; u "literals"; u "numeric"].
Definition sample_test_case : path := sample_context ++ [u "integers"].

(** The custom fixture of the sample and its expectation files. *)
Definition sample_custom : path := sample_test_case ++ [u "t.custom.c"].
Definition sample_custom_stdout : path := sample_test_case ++ [u "t.custom.c.stdout"].
Definition sample_custom_stderr : path := sample_test_case ++ [u "t.custom.c.stderr"].


(** The fixture that times out. *)
Definition sample_slow : path := sample_test_case ++ [u "slow.c"].


Definition sample_empty_hidden : path := [u "evaluation"; u "instructor"; u "hidden"].
Definition sample_grading_tab : path := [u "evaluation"; u "instructor"].

(** A linker failure of a C project: the location names a [.c] file. *)
Definition sample_c_link_error : str :=
  u "/usr/bin/ld: main.o: in function `main':" ++ nl ++
  u "main.c:(.text+0x5): undefined reference to `foo'" ++ nl ++
  u "collect2: error: ld returned 1 exit status".

(** A second course: the rubric [basics] with a fixture of twelve lines, a
    fixture that is expected to write to its standard error, and a fixture
    whose bytes are not UTF-8; the tool passes all three. *)
Definition sample_long_code : str := concat (repeat (u "int x;" ++ nl) 12).

Definition sample_tree2 : fsnode :=
  Dir [(u "evaluation", Dir [
          (u "basics", Dir [
             (u "long.c", File sample_long_code true);
             (u "err.c", sample_file "int main() { abort(); }");
             (u "err.c.stderr", File (u "Aborted" ++ nl) true);
             (u "bad.c", File (u "int main() { }") false)])]);
       (u "build", Dir [
          (u "test", Dir [
             (u "basics", Dir [
                (u "Output", Dir [
                   (u "long.c.tmp.stdout", sample_file "");
                   (u "long.c.tmp.stderr", sample_file "");
                   (u "err.c.tmp.stdout", sample_file "");
                   (u "err.c.tmp.stderr", File (u "Aborted" ++ nl) true);
                   (u "bad.c.tmp.stdout", sample_file "");
                   (u "bad.c.tmp.stderr", sample_file "")])])])])].

Definition sample_world2 : world :=
  {| fs := sample_tree2;
     lit := fun _ => LitExit 0 (Some {| code := Some (u "PASS"); elapsed := Some 0.5%float |}) |}.

Definition sample_basics : path := [u "evaluation"; u "basics"].


(* ===================================================================== *)
(** * Part II. Theorems                                                    *)
(* ===================================================================== *)

(** ** The model on the sample data *)

(** [re.finditer] on the sample link failure: three matches, the first
    running over two lines, and the names they capture. *)
Example finditer_sample :
  map (fun m => (m_start m, m_end m, group m "missing_reference"))
      (re_finditer (RT := ascii_runtime) _is_undefined_reference sample_link_error)
  = [(0%nat, 117%nat, u "foo(int)"); (118%nat, 182%nat, u "bar");
     (183%nat, 252%nat, u "foo(int)")].
Proof. vm_compute. reflexivity. Qed.

(** [re.search] on two compiler errors: the first one, at line 12, column 5. *)
Example search_sample :
  option_map (fun m => (py_int (RT := ascii_runtime) (group m "line"),
                        group m "column", group m "message"))
    (re_search (RT := ascii_runtime) _is_compile_error sample_compile_error)
  = Some (Some 12%Z, u "5", u "expected ;").
Proof. vm_compute. reflexivity. Qed.

(** A line number of 4301 digits: [int] refuses it, and the message is
    closed as [ValueError] leaves. *)
Example long_line_sample :
  handle_compile_error (RT := ascii_runtime) sample_long_line None initial_state =
    (Raise ValueError, add_log initial_state (refused_line_report (u "x"))).
Proof. vm_compute. reflexivity. Qed.

Example split_sample : split_nl (u "a" ++ nl ++ nl ++ u "b" ++ nl) = [u "a"; []; u "b"; []].
Proof. reflexivity. Qed.

Example readlines_sample :
  readlines (u "a" ++ nl ++ nl ++ u "b") = [u "a" ++ nl; nl; u "b"].
Proof. reflexivity. Qed.

(** Formatting rounds the exact binary value, ties to even. *)
Example format_1f_samples :
  format_1f 2.5%float = u "2.5" /\ format_1f 0.25%float = u "0.2" /\
  format_1f 0.75%float = u "0.8" /\ format_1f 1234.5625%float = u "1234.6" /\
  format_1f (-0.03125)%float = u "-0.0".
Proof. repeat split; vm_compute; reflexivity. Qed.

(** Seven of twenty: [floor(7/20 * 20)] filled cells. *)
Example success_bar_sample :
  (success_bar 7 20 20 initial_state).1 = Ok (repeat 9608%N 7 ++ repeat 9617%N 13).
Proof. vm_compute. reflexivity. Qed.

Example counter_sample :
  counter_iadd Counter_empty (Counter_of 0 1) = {[u "total" := 1%Z]} /\
  counter_get (counter_iadd Counter_empty (Counter_of 0 1)) (u "correct") = 0%Z.
Proof. split; vm_compute; reflexivity. Qed.

Example glob_sample :
  glob_rec_c sample_world sample_context =
    [sample_context ++ [u "hidden"; u "h.c"];
     sample_test_case ++ [u "a.c"]; sample_test_case ++ [u "slow.c"];
     sample_test_case ++ [u "t.custom.c"]] /\
  glob_c sample_world sample_test_case =
    [sample_test_case ++ [u "a.c"]; sample_test_case ++ [u "slow.c"];
     sample_test_case ++ [u "t.custom.c"]].
Proof. split; vm_compute; reflexivity. Qed.

(** The passing fixture of the sample: expected and generated output agree,
    the tool exits with 0; the test is counted correct and gets no warning. *)
Example passing_fixture :
  let run := run_test sample_world (sample_test_case ++ [u "a.c"])
               (sample_test_case ++ [u "a.c.stdout"]) (sample_test_case ++ [u "a.c.stderr"])
               sample_evaluation sample_build in
  (run initial_state).1 = Ok (Counter_of 1 1) /\
  attached_messages (emitted run initial_state) = [] /\
  tmp_files (run initial_state).2 = ∅.
Proof. repeat split; vm_compute; reflexivity. Qed.

(** The whole sample course: the rubric [literals] reports its test case
    and then the hidden summary, the rubric [instructor] reports nothing;
    two of four tests are correct. *)
Example sample_submission :
  let run := test_submission (RT := ascii_runtime) sample_world sample_evaluation sample_build in
  option_map (fun c => (counter_get c (u "correct"), counter_get c (u "total")))
    (match (run initial_state).1 with Ok c => Some c | Raise _ => None end)
  = Some (2%Z, 4%Z) /\
  List.filter (fun e => negb (tool_event e)) (emitted run initial_state)
  = List.filter (fun e => negb (tool_event e))
      (emitted (create_tab (RT := ascii_runtime) sample_world
                  [u "evaluation"; u "literals"] sample_evaluation sample_build)
         initial_state) /\
  List.last (emitted run initial_state) (Open []) = Close (Tab (u "Literals")) [badgeCount 2].
Proof. repeat split; vm_compute; reflexivity. Qed.

(** [sub in s] on the sample link failure. *)
Example str_in_sample :
  str_in (u ".cpp:(") sample_link_error = true /\
  str_in (u ".cpp:(") sample_c_link_error = false /\
  str_in [] [] = true.
Proof. repeat split; vm_compute; reflexivity. Qed.

(** Which logs are well nested: a tab around a context is, a node left
    open is not, a node closed by another is not, and a test directly in a
    tab is not. *)
Example well_nested_samples :
  let t := Tab (u "T") in
  let c := Context None in
  let x := Test {| d_description := []; d_format := MARKDOWN |} None in
  well_nested [] [Start t; Start c; Open []; Close c []; Close t [badgeCount 0]] = true /\
  well_nested [] [Start t; Start c; Close c []] = false /\
  well_nested [] [Start t; Start c; Close t []; Close c []] = false /\
  well_nested [] [Start t; Start x; Close x []; Close t []] = false.
Proof. repeat split; vm_compute; reflexivity. Qed.

(** The report of the whole sample course is well nested. *)
Example well_nested_sample_submission :
  well_nested []
    (emitted (test_submission (RT := ascii_runtime) sample_world sample_evaluation sample_build)
       initial_state) = true.
Proof. vm_compute. reflexivity. Qed.

(** The fixture of twelve lines is shown as nine lines and the remark. *)
Example shown_code_sample :
  shown_code sample_long_code =
    concat (repeat (u "int x;" ++ nl) 9) ++ u "... // Remainder of code omitted" /\
  shown_code (u "int x;") = u "int x;".
Proof. split; vm_compute; reflexivity. Qed.

(** The tool passes [a.c] of the sample and fails [slow.c]. *)
Example passes_sample :
  passes sample_world sample_evaluation sample_build (sample_test_case ++ [u "a.c"]) = true /\
  passes sample_world sample_evaluation sample_build sample_slow = false.
Proof. split; vm_compute; reflexivity. Qed.

(** ** The matcher against the declarative meaning of a pattern *)

Section RegexFacts.
Context `{RT : PythonRuntime}.

Lemma star_loop_ext {R} (step : str -> groups -> cont R -> option R) :
  (forall s g k1 k2, (forall s' g', k1 s' g' = k2 s' g') -> step s g k1 = step s g k2) ->
  forall n s g k1 k2,
    (forall s' g', k1 s' g' = k2 s' g') ->
    star_loop n step s g k1 = star_loop n step s g k2.
Proof.
  intros Hstep n. induction n as [|n IH]; intros s g k1 k2 Hk; simpl.
  - apply Hk.
  - rewrite (Hstep s g _ (fun s' g' =>
       if (length s' <? length s)%nat then star_loop n step s' g' k2 else None)).
    + rewrite Hk. reflexivity.
    + intros s' g'. destruct (length s' <? length s)%nat; [apply IH; exact Hk | reflexivity].
Qed.

Lemma rmatch_ext {R} (r : regex) :
  forall s g (k1 k2 : cont R),
    (forall s' g', k1 s' g' = k2 s' g') -> rmatch r s g k1 = rmatch r s g k2.
Proof.
  induction r as [c| |neg items| |r1 IH1 r2 IH2|r1 IH1 r2 IH2|r IH|name r IH];
    intros s g k1 k2 Hk; simpl.
  - destruct s as [|c' s']; [reflexivity|]. destruct (N.eqb c c'); [apply Hk | reflexivity].
  - destruct s as [|c' s']; [reflexivity|]. destruct (N.eqb c' NL); [reflexivity | apply Hk].
  - destruct s as [|c' s']; [reflexivity|].
    destruct (xorb neg (in_set items c')); [apply Hk | reflexivity].
  - apply Hk.
  - apply IH1. intros s' g'. apply IH2. exact Hk.
  - rewrite (IH1 s g k1 k2 Hk), (IH2 s g k1 k2 Hk). reflexivity.
  - apply star_loop_ext; [exact IH | exact Hk].
  - apply IH. intros s' g'. apply Hk.
Qed.

Lemma star_loop_sound {R} (r : regex) :
  (forall s g (k : cont R) x,
      rmatch r s g k = Some x ->
      exists w s' g', s = w ++ s' /\ Matches r w g g' /\ k s' g' = Some x) ->
  forall n s g (k : cont R) x,
    star_loop n (rmatch r) s g k = Some x ->
    exists w s' g', s = w ++ s' /\ Matches (RStar r) w g g' /\ k s' g' = Some x.
Proof.
  intros Hr n. induction n as [|n IH]; intros s g k x H; simpl in H.
  - exists [], s, g. split; [reflexivity|]. split; [constructor | exact H].
  - destruct (rmatch r s g _) as [y|] eqn:E.
    + injection H as ->. apply Hr in E. destruct E as (w1 & s1 & g1 & -> & Hm & Hk).
      destruct (length s1 <? length (w1 ++ s1))%nat eqn:Hlt; [|discriminate].
      apply IH in Hk. destruct Hk as (w2 & s2 & g2 & -> & Hm2 & Hk).
      exists (w1 ++ w2), s2, g2. split; [rewrite <- app_assoc; reflexivity|].
      split; [|exact Hk].
      apply MStarCons with (g1 := g1); [|exact Hm|exact Hm2].
      intros ->. apply Nat.ltb_lt in Hlt. simpl in Hlt. lia.
    + exists [], s, g. split; [reflexivity|]. split; [constructor | exact H].
Qed.

Lemma rmatch_sound {R} (r : regex) :
  forall s g (k : cont R) x,
    rmatch r s g k = Some x ->
    exists w s' g', s = w ++ s' /\ Matches r w g g' /\ k s' g' = Some x.
Proof.
  induction r as [c| |neg items| |r1 IH1 r2 IH2|r1 IH1 r2 IH2|r IH|name r IH];
    intros s g k x H; simpl in H.
  - destruct s as [|c' s']; [discriminate|].
    destruct (N.eqb c c') eqn:E; [|discriminate]. apply N.eqb_eq in E. subst c'.
    exists [c], s', g. repeat split; [constructor | exact H].
  - destruct s as [|c' s']; [discriminate|].
    destruct (N.eqb c' NL) eqn:E; [discriminate|]. apply N.eqb_neq in E.
    exists [c'], s', g. repeat split; [constructor; exact E | exact H].
  - destruct s as [|c' s']; [discriminate|].
    destruct (xorb neg (in_set items c')) eqn:E; [|discriminate].
    exists [c'], s', g. repeat split; [constructor; exact E | exact H].
  - exists [], s, g. repeat split; [constructor | exact H].
  - apply IH1 in H. destruct H as (w1 & s1 & g1 & -> & Hm1 & H).
    apply IH2 in H. destruct H as (w2 & s2 & g2 & -> & Hm2 & H).
    exists (w1 ++ w2), s2, g2. split; [rewrite <- app_assoc; reflexivity|].
    split; [econstructor; eassumption | exact H].
  - destruct (rmatch r1 s g k) as [y|] eqn:E.
    + injection H as ->. apply IH1 in E. destruct E as (w & s' & g' & -> & Hm & Hk).
      exists w, s', g'. repeat split; [apply MAltL; exact Hm | exact Hk].
    + apply IH2 in H. destruct H as (w & s' & g' & -> & Hm & Hk).
      exists w, s', g'. repeat split; [apply MAltR; exact Hm | exact Hk].
  - eapply star_loop_sound; [exact IH | exact H].
  - apply IH in H. destruct H as (w & s' & g' & -> & Hm & Hk).
    exists w, s', ((name, w) :: g'). split; [reflexivity|]. split; [constructor; exact Hm|].
    rewrite length_app in Hk.
    replace (length w + length s' - length s')%nat with (length w) in Hk by lia.
    rewrite firstn_app, Nat.sub_diag, firstn_all in Hk. simpl in Hk.
    rewrite app_nil_r in Hk. exact Hk.
Qed.

(** A matcher succeeds only through its continuation. *)
Lemma rmatch_fail {R} (r : regex) s g : rmatch (R := R) r s g (fun _ _ => None) = None.
Proof.
  destruct (rmatch r s g (fun _ _ => None)) as [x|] eqn:E; [|reflexivity].
  apply rmatch_sound in E. destruct E as (w & s' & g' & _ & _ & H). discriminate.
Qed.

(** Fuel past the length of the text changes nothing. *)
Lemma star_loop_fuel {R} (r : regex) :
  forall n m s g (k : cont R),
    (length s <= n)%nat -> (length s <= m)%nat ->
    star_loop n (rmatch r) s g k = star_loop m (rmatch r) s g k.
Proof.
  intros n. induction n as [|n IH]; intros m s g k Hn Hm.
  - destruct s; [|simpl in Hn; lia]. destruct m as [|m]; [reflexivity|]. simpl.
    rewrite rmatch_fail. reflexivity.
  - destruct m as [|m].
    + destruct s; [|simpl in Hm; lia]. simpl.
      rewrite rmatch_fail. reflexivity.
    + simpl.
      rewrite rmatch_ext with (k2 := fun s' g' =>
         if (length s' <? length s)%nat then star_loop m (rmatch r) s' g' k else None);
        [reflexivity|].
      intros s' g'. destruct (length s' <? length s)%nat eqn:E; [|reflexivity].
      apply Nat.ltb_lt in E. apply IH; lia.
Qed.

Lemma rmatch_complete (r : regex) w g g' :
  Matches r w g g' ->
  forall R (k : cont R) s' g0,
    (forall g'', k s' g'' <> None) -> rmatch r (w ++ s') g0 k <> None.
Proof.
  induction 1 as [c g| c g Hc| neg items c g Hc| g
                  | r1 r2 w1 w2 g g1 g2 H1 IH1 H2 IH2
                  | r1 r2 w g g1 H1 IH1 | r1 r2 w g g1 H1 IH1
                  | r g | r w1 w2 g g1 g2 Hne H1 IH1 H2 IH2
                  | name r w g g1 H1 IH1];
    intros R k s' g0 Hk; simpl.
  - rewrite N.eqb_refl. apply Hk.
  - apply N.eqb_neq in Hc. rewrite Hc. apply Hk.
  - rewrite Hc. apply Hk.
  - apply Hk.
  - rewrite <- app_assoc. apply IH1. intros g''. apply IH2. exact Hk.
  - specialize (IH1 R k s' g0 Hk). destruct (rmatch r1 (w ++ s') g0 k); [discriminate | contradiction].
  - destruct (rmatch r1 (w ++ s') g0 k); [discriminate|]. apply IH1. exact Hk.
  - destruct (length s'); simpl; [apply Hk|].
    match goal with |- context [match ?x with _ => _ end] => destruct x end;
      [discriminate | apply Hk].
  - destruct (length ((w1 ++ w2) ++ s')) as [|n] eqn:Hlen.
    + destruct w1; [contradiction | simpl in Hlen; discriminate].
    + simpl. rewrite <- app_assoc.
      match goal with |- context [rmatch r ?s ?g ?k'] =>
        assert (Hstep : rmatch r s g k' <> None) end.
      { apply IH1. intros g''.
        assert (Hlt : (length (w2 ++ s') <? length (w1 ++ w2 ++ s'))%nat = true).
        { apply Nat.ltb_lt. rewrite (length_app w1). destruct w1; [contradiction|simpl; lia]. }
        rewrite app_assoc, <- app_assoc in Hlt. rewrite app_assoc. rewrite <- app_assoc.
        rewrite Hlt.
        specialize (IH2 R k s' g'' Hk). simpl in IH2.
        rewrite star_loop_fuel with (m := length (w2 ++ s')); [exact IH2| |lia].
        rewrite <- app_assoc in Hlen. rewrite (length_app w1) in Hlen.
        destruct w1; [contradiction | simpl in Hlen; lia]. }
      match goal with |- context [match ?x with _ => _ end] => destruct x end;
        [discriminate | contradiction].
  - apply IH1. intros g''. apply Hk.
Qed.

End RegexFacts.

(** ** Searching: [re.search] and [re.finditer] *)

Section SearchFacts.
Context `{RT : PythonRuntime}.

Lemma match_here_sound r s n g :
  match_here r s = Some (n, g) ->
  exists w s', s = w ++ s' /\ Matches r w [] g /\ n = length w.
Proof.
  unfold match_here. intros H. apply rmatch_sound in H.
  destruct H as (w & s' & g' & -> & Hm & H). injection H as <- <-.
  exists w, s'. repeat split; [exact Hm|]. rewrite length_app. lia.
Qed.

Lemma match_here_complete r w s' g0 g' :
  Matches r w g0 g' -> match_here r (w ++ s') <> None.
Proof.
  intros H. unfold match_here. eapply rmatch_complete; [exact H|]. discriminate.
Qed.

(** [re.search] returns a match of the pattern, and the leftmost one: no
    match of the pattern starts before it. *)
Lemma search_from_sound r :
  forall s pos m,
    search_from r s pos = Some m ->
    exists pre w post,
      s = pre ++ w ++ post /\ Matches r w [] (m_groups m) /\
      m_start m = (pos + length pre)%nat /\ m_end m = (m_start m + length w)%nat /\
      match_here r (w ++ post) = Some (length w, m_groups m) /\
      (forall pre' w' post' g0 g',
          s = pre' ++ w' ++ post' -> Matches r w' g0 g' ->
          (length pre <= length pre')%nat).
Proof.
  induction s as [|c s IH]; intros pos m H; simpl in H.
  - destruct (match_here r []) as [[n g]|] eqn:E; [|discriminate].
    injection H as <-. destruct (match_here_sound _ _ _ _ E) as (w & s' & Hs & Hm & ->).
    exists [], w, s'. simpl.
    split; [exact Hs|]. split; [exact Hm|]. split; [lia|]. split; [reflexivity|].
    split; [rewrite <- Hs; exact E | intros; lia].
  - destruct (match_here r (c :: s)) as [[n g]|] eqn:E.
    + injection H as <-. destruct (match_here_sound _ _ _ _ E) as (w & s' & Hs & Hm & ->).
      exists [], w, s'. simpl.
      split; [exact Hs|]. split; [exact Hm|]. split; [lia|]. split; [reflexivity|].
      split; [rewrite <- Hs; exact E | intros; lia].
    + apply IH in H. destruct H as (pre & w & post & -> & Hm & Hst & Hen & Hh & Hleft).
      exists (c :: pre), w, post. simpl.
      split; [reflexivity|]. split; [exact Hm|]. split; [lia|]. split; [exact Hen|].
      split; [exact Hh|].
      intros pre' w' post' g0 g' Hs Hm'. destruct pre' as [|c' pre'].
      * simpl in Hs. exfalso. apply (match_here_complete _ _ post' _ _ Hm').
        rewrite <- Hs. exact E.
      * simpl in Hs. injection Hs as _ Hs. simpl.
        specialize (Hleft pre' w' post' g0 g' Hs Hm'). lia.
Qed.

Lemma search_from_complete r pre w post g0 g' :
  Matches r w g0 g' ->
  forall pos, search_from r (pre ++ w ++ post) pos <> None.
Proof.
  intros Hm. induction pre as [|c pre IH]; intros pos.
  - simpl. pose proof (match_here_complete _ _ post _ _ Hm) as H.
    destruct (w ++ post) as [|c s]; simpl;
      (destruct (match_here r _) as [[n g]|]; [discriminate | contradiction]).
  - simpl. destruct (match_here r (c :: pre ++ w ++ post)) as [[n g]|];
      [discriminate | apply IH].
Qed.

Lemma re_search_complete r s : Contains r s -> re_search r s <> None.
Proof.
  intros (pre & w & post & g & -> & Hm). eapply search_from_complete. exact Hm.
Qed.

Lemma re_search_none r s : ~ Contains r s -> re_search r s = None.
Proof.
  intros Hno. destruct (re_search r s) as [m|] eqn:E; [|reflexivity].
  exfalso. apply Hno. apply search_from_sound in E.
  destruct E as (pre & w & post & Hs & Hm & _). exists pre, w, post, (m_groups m). auto.
Qed.

(** [re.finditer] finds nothing exactly when [re.search] does. *)
Lemma finditer_from_nil r :
  forall s pos, finditer_from r s pos 0 = [] <-> search_from r s pos = None.
Proof.
  induction s as [|c s IH]; intros pos; simpl.
  - destruct (match_here r []) as [[n g]|]; split; (discriminate || reflexivity).
  - destruct (match_here r (c :: s)) as [[n g]|]; [split; discriminate | apply IH].
Qed.

Lemma re_finditer_complete r s : Contains r s -> re_finditer r s <> [].
Proof.
  intros H E. apply finditer_from_nil in E. exact (re_search_complete _ _ H E).
Qed.

Lemma re_finditer_none r s : ~ Contains r s -> re_finditer r s = [].
Proof.
  intros H. apply finditer_from_nil. apply re_search_none. exact H.
Qed.

(** Every match [re.finditer] yields is a match of the pattern in the text. *)
Lemma finditer_from_sound r :
  forall s pos skip m,
    In m (finditer_from r s pos skip) ->
    exists pre w post, s = pre ++ w ++ post /\ Matches r w [] (m_groups m).
Proof.
  assert (Hshift : forall c (s : str) m,
    (exists pre w post, s = pre ++ w ++ post /\ Matches r w [] (m_groups m)) ->
    exists pre w post, c :: s = pre ++ w ++ post /\ Matches r w [] (m_groups m)).
  { intros c s m (pre & w & post & -> & Hm). exists (c :: pre), w, post. auto. }
  induction s as [|c s IH]; intros pos skip m H; simpl in H.
  - destruct skip; [|contradiction].
    destruct (match_here r []) as [[n g]|] eqn:E; [|contradiction].
    destruct H as [<-|[]]. destruct (match_here_sound _ _ _ _ E) as (w & s' & Hs & Hm & _).
    exists [], w, s'. auto.
  - destruct skip as [|skip].
    + destruct (match_here r (c :: s)) as [[n g]|] eqn:E.
      * destruct H as [<-|H].
        -- destruct (match_here_sound _ _ _ _ E) as (w & s' & Hs & Hm & _). exists [], w, s'. auto.
        -- apply Hshift. eapply IH. exact H.
      * apply Hshift. eapply IH. exact H.
    + apply Hshift. eapply IH. exact H.
Qed.

Lemma Matches_keeps r w g g' name :
  Matches r w g g' ->
  is_Some (group_lookup g name) -> is_Some (group_lookup g' name).
Proof.
  induction 1; intros Hg; auto.
  simpl. destruct (String.eqb name0 name); [eexists; reflexivity | auto].
Qed.

Lemma Matches_binds r w g g' name :
  Matches r w g g' -> binds name r = true -> is_Some (group_lookup g' name).
Proof.
  induction 1 as [| | | | r1 r2 w1 w2 g g1 g2 H1 IH1 H2 IH2
                  | r1 r2 w g g1 H1 IH1 | r1 r2 w g g1 H1 IH1
                  | | | n r w g g1 H1 IH1]; simpl; intros Hb; try discriminate.
  - apply orb_true_iff in Hb. destruct Hb as [Hb|Hb]; [|auto].
    eapply Matches_keeps; [exact H2 | auto].
  - apply andb_true_iff in Hb. destruct Hb. auto.
  - apply andb_true_iff in Hb. destruct Hb. auto.
  - destruct (String.eqb n name); [eexists; reflexivity | auto].
Qed.

End SearchFacts.

(** ** Lines: [split] and [join] *)

Lemma split_nl_nonempty s : split_nl s <> [].
Proof.
  destruct s as [|c s]; simpl; [discriminate|].
  destruct (N.eqb c NL); [discriminate|]. destruct (split_nl s); discriminate.
Qed.

Lemma join_cons sep l l' ls : join sep (l :: l' :: ls) = l ++ sep ++ join sep (l' :: ls).
Proof. reflexivity. Qed.

Lemma join_snoc sep ls l : ls <> [] -> join sep (ls ++ [l]) = join sep ls ++ sep ++ l.
Proof.
  induction ls as [|a ls IH]; intros Hne; [contradiction|].
  destruct ls as [|b ls]; [reflexivity|].
  change ((a :: b :: ls) ++ [l]) with (a :: (b :: ls) ++ [l]).
  simpl app at 1. rewrite join_cons. rewrite join_cons.
  change (b :: ls ++ [l]) with ((b :: ls) ++ [l]). rewrite IH; [|discriminate].
  rewrite <- !app_assoc. reflexivity.
Qed.

Lemma join_split_nl s : join nl (split_nl s) = s.
Proof.
  induction s as [|c s IH]; [reflexivity|]. simpl.
  pose proof (split_nl_nonempty s) as Hne.
  destruct (N.eqb c NL) eqn:E.
  - apply N.eqb_eq in E. subst c. destruct (split_nl s) as [|l ls]; [contradiction|].
    rewrite join_cons, IH. reflexivity.
  - destruct (split_nl s) as [|l ls]; [contradiction|].
    destruct ls as [|l' ls]; simpl in *; rewrite IH; reflexivity.
Qed.

Lemma split_nl_no_newline s : Forall no_newline (split_nl s).
Proof.
  induction s as [|c s IH]; simpl.
  - repeat constructor.
  - destruct (N.eqb c NL) eqn:E.
    + constructor; [constructor | exact IH].
    + apply N.eqb_neq in E. destruct (split_nl s) as [|l ls]; [repeat constructor; exact E|].
      inversion IH; subst. constructor; [constructor; assumption | assumption].
Qed.

Lemma split_nl_line l rest :
  no_newline l -> split_nl (l ++ NL :: rest) = l :: split_nl rest.
Proof.
  induction 1 as [|c l Hc _ IH]; simpl.
  - reflexivity.
  - apply N.eqb_neq in Hc. rewrite Hc, IH. reflexivity.
Qed.

Lemma split_nl_last l : no_newline l -> split_nl l = [l].
Proof.
  induction 1 as [|c l Hc _ IH]; simpl; [reflexivity|].
  apply N.eqb_neq in Hc. rewrite Hc, IH. reflexivity.
Qed.

Lemma split_nl_join ls :
  ls <> [] -> Forall no_newline ls -> split_nl (join nl ls) = ls.
Proof.
  induction ls as [|l ls IH]; intros Hne HF; [contradiction|].
  inversion HF as [|? ? Hl HF']; subst. destruct ls as [|l' ls].
  - simpl. apply split_nl_last. exact Hl.
  - rewrite join_cons. change (nl ++ join nl (l' :: ls)) with (NL :: join nl (l' :: ls)).
    rewrite split_nl_line by exact Hl. rewrite IH; [reflexivity | discriminate | exact HF'].
Qed.

Lemma join_wrap sep a ls b :
  ls <> [] -> join sep ([a] ++ ls ++ [b]) = a ++ sep ++ join sep ls ++ sep ++ b.
Proof.
  intros Hne. destruct ls as [|x ls]; [contradiction|].
  change ([a] ++ (x :: ls) ++ [b]) with (a :: x :: (ls ++ [b])).
  rewrite join_cons. change (x :: ls ++ [b]) with ((x :: ls) ++ [b]).
  rewrite join_snoc by discriminate. reflexivity.
Qed.

Lemma block_quote_fenced s :
  u "> ```" ++ nl ++ block_quote s ++ nl ++ u "> ```" =
  join nl (map (fun l => u "> " ++ l) ([u "```"] ++ split_nl s ++ [u "```"])).
Proof.
  rewrite !map_app. simpl (map _ [_]). unfold block_quote.
  rewrite join_wrap; [reflexivity|].
  pose proof (split_nl_nonempty s) as Hne.
  destruct (split_nl s); [contradiction | discriminate].
Qed.

Lemma block_quote_lossless s :
  unquote_block (u "> ```" ++ nl ++ block_quote s ++ nl ++ u "> ```") = s.
Proof.
  unfold unquote_block. rewrite block_quote_fenced. rewrite split_nl_join.
  - rewrite map_map. rewrite (map_ext _ id); [|intros l; reflexivity]. rewrite map_id.
    simpl tl. rewrite removelast_last. apply join_split_nl.
  - discriminate.
  - apply Forall_map. apply Forall_app. split; [repeat constructor; discriminate|].
    apply Forall_app. split; [|repeat constructor; discriminate].
    eapply List.Forall_impl; [|apply split_nl_no_newline].
    intros l Hl. apply Forall_app. split; [repeat constructor; discriminate | exact Hl].
Qed.

(** ** The shape of what the two patterns match *)

Section PatternFacts.
Context `{RT : PythonRuntime}.

Lemma Matches_star_set neg items w g g' :
  Matches (RStar (RSet neg items)) w g g' ->
  g' = g /\ Forall (fun c => xorb neg (in_set items c) = true) w.
Proof.
  remember (RStar (RSet neg items)) as r eqn:Er. intros H.
  induction H as [| | | | | | | |r0 w1 w2 g g1 g2 Hne H1 _ H2 IH2|]; try discriminate.
  - split; [reflexivity | constructor].
  - injection Er as ->. specialize (IH2 eq_refl). destruct IH2 as [-> HF].
    inversion H1; subst. split; [reflexivity|]. simpl. constructor; assumption.
Qed.

Lemma Matches_star_any w g g' :
  Matches (RStar RAny) w g g' -> g' = g /\ Forall (fun c => c <> NL) w.
Proof.
  remember (RStar RAny) as r eqn:Er. intros H.
  induction H as [| | | | | | | |r0 w1 w2 g g1 g2 Hne H1 _ H2 IH2|]; try discriminate.
  - split; [reflexivity | constructor].
  - injection Er as ->. specialize (IH2 eq_refl). destruct IH2 as [-> HF].
    inversion H1; subst. split; [reflexivity|]. simpl. constructor; assumption.
Qed.

Lemma inv_seq r1 r2 w g g' :
  Matches (RSeq r1 r2) w g g' ->
  exists w1 w2 g1, w = w1 ++ w2 /\ Matches r1 w1 g g1 /\ Matches r2 w2 g1 g'.
Proof. intros H. inversion H; subst. eauto 6. Qed.

Lemma inv_lit c w g g' : Matches (RLit c) w g g' -> w = [c] /\ g' = g.
Proof. intros H. inversion H; subst. auto. Qed.

Lemma inv_alt r1 r2 w g g' :
  Matches (RAlt r1 r2) w g g' -> Matches r1 w g g' \/ Matches r2 w g g'.
Proof. intros H. inversion H; subst; auto. Qed.

Lemma inv_eps w g g' : Matches REps w g g' -> w = [] /\ g' = g.
Proof. intros H. inversion H; subst. auto. Qed.

Lemma inv_group name r w g g' :
  Matches (RGroup name r) w g g' -> exists g1, Matches r w g g1 /\ g' = (name, w) :: g1.
Proof. intros H. inversion H; subst. eauto. Qed.

Lemma inv_str s : forall w g g', Matches (RStr s) w g g' -> w = s /\ g' = g.
Proof.
  induction s as [|c s IH]; intros w g g' H.
  - inversion H; subst. auto.
  - destruct s as [|c' s].
    + apply inv_lit in H. exact H.
    + change (RStr (c :: c' :: s)) with (RSeq (RLit c) (RStr (c' :: s))) in H.
      apply inv_seq in H. destruct H as (w1 & w2 & g1 & -> & H1 & H2).
      apply inv_lit in H1. destruct H1 as [-> ->].
      apply IH in H2. destruct H2 as [-> ->]. auto.
Qed.

Lemma inv_plus_set neg items w g g' :
  Matches (RPlus (RSet neg items)) w g g' ->
  g' = g /\ w <> [] /\ Forall (fun c => xorb neg (in_set items c) = true) w.
Proof.
  intros H. apply inv_seq in H. destruct H as (w1 & w2 & g1 & -> & H1 & H2).
  apply Matches_star_set in H2. destruct H2 as [-> HF].
  inversion H1; subst. split; [reflexivity|]. split; [discriminate|].
  constructor; assumption.
Qed.

Lemma inv_plus_any w g g' :
  Matches (RPlus RAny) w g g' -> g' = g /\ w <> [] /\ Forall (fun c => c <> NL) w.
Proof.
  intros H. apply inv_seq in H. destruct H as (w1 & w2 & g1 & -> & H1 & H2).
  apply Matches_star_any in H2. destruct H2 as [-> HF].
  inversion H1; subst. split; [reflexivity|]. split; [discriminate|].
  constructor; assumption.
Qed.

Lemma set_digit c : xorb false (in_set [CDigit] c) = true -> is_digit c = true.
Proof. simpl. rewrite orb_false_r. auto. Qed.

Lemma set_path_char c :
  xorb false (in_set [CLit (chr "/"); CWord; CLit (chr ".")] c) = path_char c.
Proof.
  unfold path_char, in_set, existsb, in_class.
  rewrite (N.eqb_sym c (chr "/")), (N.eqb_sym c (chr ".")), orb_false_r, orb_assoc.
  reflexivity.
Qed.

Lemma compile_error_shape w g0 g :
  Matches _is_compile_error w g0 g ->
  exists path line col msg,
    w = path ++ u ":" ++ line ++ u ":" ++ col ++ u ": error: " ++ msg /\
    g = ("message"%string, msg) :: ("column"%string, col) :: ("line"%string, line) :: g0 /\
    path <> [] /\ line <> [] /\ col <> [] /\ msg <> [] /\
    Forall (fun c => is_digit c = true) line /\
    Forall (fun c => is_digit c = true) col /\
    Forall (fun c => c <> NL) msg /\
    Forall (fun c => path_char c = true) path.
Proof.
  unfold _is_compile_error. intros H.
  apply inv_seq in H. destruct H as (path & w1 & g1 & -> & Hpath & H).
  apply inv_plus_set in Hpath. destruct Hpath as (-> & Hpath & Fpath).
  apply inv_seq in H. destruct H as (c1 & w2 & g2 & -> & Hc1 & H).
  apply inv_lit in Hc1. destruct Hc1 as [-> ->].
  apply inv_seq in H. destruct H as (line & w3 & g3 & -> & Hline & H).
  apply inv_group in Hline. destruct Hline as (g4 & Hline & ->).
  apply inv_plus_set in Hline. destruct Hline as (-> & Hline & Fline).
  apply inv_seq in H. destruct H as (c2 & w4 & g5 & -> & Hc2 & H).
  apply inv_lit in Hc2. destruct Hc2 as [-> ->].
  apply inv_seq in H. destruct H as (col & w5 & g6 & -> & Hcol & H).
  apply inv_group in Hcol. destruct Hcol as (g7 & Hcol & ->).
  apply inv_plus_set in Hcol. destruct Hcol as (-> & Hcol & Fcol).
  apply inv_seq in H. destruct H as (w6 & msg & g8 & -> & Herr & H).
  apply inv_str in Herr. destruct Herr as [-> ->].
  apply inv_group in H. destruct H as (g9 & Hmsg & ->).
  apply inv_plus_any in Hmsg. destruct Hmsg as (-> & Hmsg & Fmsg).
  exists path, line, col, msg.
  split; [reflexivity|]. split; [reflexivity|].
  repeat (split; [assumption|]).
  split; [|split; [|split; [assumption|]]].
  - eapply List.Forall_impl; [|exact Fline]. intros c. apply set_digit.
  - eapply List.Forall_impl; [|exact Fcol]. intros c. apply set_digit.
  - eapply List.Forall_impl; [|exact Fpath]. intros c Hc. rewrite <- set_path_char. exact Hc.
Qed.

Lemma star_loop_S {R} n (step : str -> groups -> cont R -> option R) s g k :
  star_loop (S n) step s g k =
  match step s g (fun s' g' =>
                    if (length s' <? length s)%nat
                    then star_loop n step s' g' k else None) with
  | Some x => Some x
  | None => k s g
  end.
Proof. reflexivity. Qed.

Lemma star_any_greedy {R} :
  forall n s g (k : cont R),
    (length s <= n)%nat -> (forall s' g', k s' g' <> None) ->
    exists w s', s = w ++ s' /\ at_eol s' /\ star_loop n (rmatch RAny) s g k = k s' g.
Proof.
  induction n as [|n IH]; intros s g k Hn Hk.
  - destruct s; [|simpl in Hn; lia]. exists [], []. split; [reflexivity|].
    split; [left; reflexivity | reflexivity].
  - destruct s as [|c s].
    + exists [], []. split; [reflexivity|]. split; [left; reflexivity | reflexivity].
    + rewrite star_loop_S. cbn [rmatch]. destruct (N.eqb c NL) eqn:E.
      * apply N.eqb_eq in E. subst c. exists [], (NL :: s).
        split; [reflexivity|]. split; [right; eauto | reflexivity].
      * assert (Hlt : (length s <? length (c :: s))%nat = true)
          by (apply Nat.ltb_lt; simpl; lia).
        rewrite Hlt. simpl in Hn.
        destruct (IH s g k ltac:(lia) Hk) as (w & s' & Hs & He & Heq).
        exists (c :: w), s'. split; [rewrite Hs; reflexivity|]. split; [exact He|].
        cbn [rmatch] in Heq. rewrite Heq. specialize (Hk s' g). destruct (k s' g); [reflexivity | contradiction].
Qed.

Lemma greedy_eol {R} r :
  ends_with_rest_of_line r = true ->
  forall s g (k : cont R) x,
    (forall s' g', k s' g' <> None) ->
    rmatch r s g k = Some x ->
    exists w s' g', s = w ++ s' /\ at_eol s' /\ k s' g' = Some x.
Proof.
  induction r as [c| |neg items| |r1 IH1 r2 IH2|r1 IH1 r2 IH2|r IH|name r IH];
    simpl; intros He s g k x Hk H; try discriminate.
  - apply rmatch_sound in H. destruct H as (w1 & s1 & g1 & -> & _ & H).
    destruct (IH2 He _ _ _ _ Hk H) as (w2 & s' & g' & -> & Heol & Hx).
    exists (w1 ++ w2), s', g'. rewrite <- app_assoc. auto.
  - destruct r; try discriminate.
    destruct (@star_any_greedy R (length s) s g k ltac:(lia) Hk)
      as (w & s' & Hs & Heol & Heq).
    rewrite Heq in H. exists w, s', g. auto.
  - apply IH in H; [|exact He|intros; apply Hk].
    destruct H as (w & s' & g' & -> & Heol & H). eauto 6.
Qed.

Lemma int_digits_total s :
  Forall (fun c => is_digit c = true) s -> forall acc, is_Some (int_digits acc s).
Proof.
  induction 1 as [|c s Hc _ IH]; intros acc; simpl; [eexists; reflexivity|].
  unfold is_digit in Hc. destruct (digit_value c); [apply IH | discriminate].
Qed.

(** [int] converts a text of digits exactly when it is not longer than the
    limit. *)
Lemma py_int_total s :
  s <> [] -> Forall (fun c => is_digit c = true) s ->
  (length s <= int_max_str_digits)%nat -> is_Some (py_int s).
Proof.
  intros Hne HF Hlen. destruct s as [|c s]; [contradiction|]. unfold py_int.
  apply Nat.leb_le in Hlen. rewrite Hlen. apply int_digits_total. exact HF.
Qed.

Lemma py_int_long s : (int_max_str_digits < length s)%nat -> py_int s = None.
Proof.
  intros Hlen. destruct s as [|c s]; [reflexivity|]. unfold py_int.
  apply Nat.leb_gt in Hlen. rewrite Hlen. reflexivity.
Qed.

Lemma py_int_refuses s :
  s <> [] -> Forall (fun c => is_digit c = true) s ->
  (py_int s = None <-> (int_max_str_digits < length s)%nat).
Proof.
  intros Hne HF. split; [|apply py_int_long].
  intros Hn. destruct (Nat.le_gt_cases (length s) int_max_str_digits) as [Hle|Hgt];
    [|exact Hgt].
  destruct (py_int_total s Hne HF Hle) as [row Hrow]. congruence.
Qed.

(** Building matches of the pieces of the two patterns. *)
Lemma Matches_str_intro s g : Matches (RStr s) s g g.
Proof.
  induction s as [|c s IH]; [constructor|].
  destruct s as [|c' s]; [constructor|].
  change (RStr (c :: c' :: s)) with (RSeq (RLit c) (RStr (c' :: s))).
  change (c :: c' :: s) with ([c] ++ c' :: s). econstructor; [constructor | exact IH].
Qed.

Lemma Matches_star_set_intro neg items w g :
  Forall (fun c => xorb neg (in_set items c) = true) w ->
  Matches (RStar (RSet neg items)) w g g.
Proof.
  induction 1 as [|c w Hc _ IH]; [constructor|].
  change (c :: w) with ([c] ++ w).
  eapply MStarCons; [discriminate | constructor; exact Hc | exact IH].
Qed.

Lemma Matches_plus_set_intro neg items w g :
  w <> [] -> Forall (fun c => xorb neg (in_set items c) = true) w ->
  Matches (RPlus (RSet neg items)) w g g.
Proof.
  intros Hne HF. destruct w as [|c w]; [contradiction|].
  inversion HF; subst. change (c :: w) with ([c] ++ w).
  econstructor; [constructor; assumption | apply Matches_star_set_intro; assumption].
Qed.

Lemma Matches_star_any_intro w g : no_newline w -> Matches (RStar RAny) w g g.
Proof.
  induction 1 as [|c w Hc _ IH]; [constructor|].
  change (c :: w) with ([c] ++ w).
  eapply MStarCons; [discriminate | constructor; exact Hc | exact IH].
Qed.

Lemma Matches_plus_any_intro w g : w <> [] -> no_newline w -> Matches (RPlus RAny) w g g.
Proof.
  intros Hne HF. destruct w as [|c w]; [contradiction|].
  inversion HF; subst. change (c :: w) with ([c] ++ w).
  econstructor; [constructor; assumption | apply Matches_star_any_intro; assumption].
Qed.

Lemma digit_set c : is_digit c = true -> xorb false (in_set [CDigit] c) = true.
Proof. simpl. rewrite orb_false_r. auto. Qed.

(** A text of the shape of a compiler diagnostic matches the pattern. *)
Lemma compile_error_intro path line col msg g0 :
  path <> [] -> Forall (fun c => path_char c = true) path ->
  line <> [] -> Forall (fun c => is_digit c = true) line ->
  col <> [] -> Forall (fun c => is_digit c = true) col ->
  msg <> [] -> no_newline msg ->
  Matches _is_compile_error
    (path ++ u ":" ++ line ++ u ":" ++ col ++ u ": error: " ++ msg) g0
    (("message"%string, msg) :: ("column"%string, col) :: ("line"%string, line) :: g0).
Proof.
  intros Hpath Fpath Hline Fline Hcol Fcol Hmsg Fmsg. unfold _is_compile_error.
  econstructor.
  { apply Matches_plus_set_intro; [exact Hpath|].
    eapply List.Forall_impl; [|exact Fpath]. intros c Hc. rewrite set_path_char. exact Hc. }
  change (u ":" ++ line ++ u ":" ++ col ++ u ": error: " ++ msg)
    with ([chr ":"] ++ line ++ [chr ":"] ++ col ++ u ": error: " ++ msg).
  econstructor; [constructor|].
  econstructor.
  { constructor. apply Matches_plus_set_intro; [exact Hline|].
    eapply List.Forall_impl; [|exact Fline]. intros c. apply digit_set. }
  econstructor; [constructor|].
  econstructor.
  { constructor. apply Matches_plus_set_intro; [exact Hcol|].
    eapply List.Forall_impl; [|exact Fcol]. intros c. apply digit_set. }
  econstructor; [apply Matches_str_intro|].
  constructor. apply Matches_plus_any_intro; assumption.
Qed.

(** A run of characters of one kind that ends before a character of another
    kind is cut from a text in one way only. *)
Lemma span_unique (P : char -> Prop) :
  forall (a a' : str) c c' (b b' : str),
    Forall P a -> Forall P a' -> ~ P c -> ~ P c' ->
    a ++ c :: b = a' ++ c' :: b' -> a = a' /\ c = c' /\ b = b'.
Proof.
  induction a as [|x a IH]; intros a' c c' b b' Fa Fa' Hc Hc' E.
  - destruct a' as [|y a']; simpl in E.
    + injection E as -> ->. auto.
    + injection E as -> _. inversion Fa'; subst. contradiction.
  - destruct a' as [|y a']; simpl in E.
    + injection E as -> _. inversion Fa; subst. contradiction.
    + injection E as -> E. inversion Fa; subst. inversion Fa'; subst.
      destruct (IH a' c c' b b') as (-> & -> & ->); auto.
Qed.

(** A line is cut from the text behind it in one way only. *)
Lemma line_unique (l l' post post' : str) :
  no_newline l -> no_newline l' -> at_eol post -> at_eol post' ->
  l ++ post = l' ++ post' -> l = l' /\ post = post'.
Proof.
  intros Fl Fl' Hp Hp' E.
  destruct Hp as [->|[s ->]]; destruct Hp' as [->|[s' ->]].
  - rewrite !app_nil_r in E. auto.
  - exfalso. rewrite app_nil_r in E. subst l.
    apply Forall_app in Fl. destruct Fl as [_ Fl]. inversion Fl; subst. congruence.
  - exfalso. rewrite app_nil_r in E. subst l'.
    apply Forall_app in Fl'. destruct Fl' as [_ Fl']. inversion Fl'; subst. congruence.
  - destruct (span_unique (fun c => c <> NL) l l' NL NL s s') as (-> & _ & ->); auto.
Qed.

(** Two prefixes of a text of the same length are the same. *)
Lemma prefix_unique (a a' b b' : str) :
  a ++ b = a' ++ b' -> length a = length a' -> a = a' /\ b = b'.
Proof. intros E Hl. apply app_inj_1 in E; [exact E | exact Hl]. Qed.

End PatternFacts.
(** ** Scanning for the linker's complaints *)

Section ScanFacts.
Context `{RT : PythonRuntime}.

Lemma undefined_reference_parts :
  _is_undefined_reference =
  RSeq (RStr (u "/usr/bin/ld: "))
    (RSeq (RStar RAny) (RSeq (ROpt (RLit NL)) reference_location)).
Proof. reflexivity. Qed.

Lemma set_section_char c :
  xorb false (in_set [CWord; CLit (chr "+"); CLit (chr ".")] c) = section_char c.
Proof.
  unfold section_char, in_set, existsb, in_class.
  rewrite (N.eqb_sym c (chr "+")), (N.eqb_sym c (chr ".")), orb_false_r, orb_assoc.
  reflexivity.
Qed.

Lemma set_not_quote c : xorb true (in_set [CLit (chr "'")] c) = true <-> c <> chr "'".
Proof.
  unfold in_set, existsb, in_class. rewrite orb_false_r.
  destruct (N.eqb_spec (chr "'") c) as [E|E]; simpl; split; intros H; auto; congruence.
Qed.

Lemma set_word c : xorb false (in_set [CWord] c) = is_word c.
Proof. unfold in_set, existsb, in_class. rewrite orb_false_r. reflexivity. Qed.

(** The location part of the pattern matches the texts [reference_tail]
    describes, and captures the name. *)
Lemma reference_tail_shape t g0 g :
  Matches reference_location t g0 g ->
  exists name, reference_tail name t /\ g = ("missing_reference"%string, name) :: g0.
Proof.
  unfold reference_location. intros H.
  apply inv_seq in H. destruct H as (file & w4 & g4 & -> & Hfile & H).
  apply inv_plus_set in Hfile. destruct Hfile as (-> & Hfile & Ffile).
  apply inv_seq in H. destruct H as (dot & w5 & g5 & -> & Hdot & H).
  apply inv_lit in Hdot. destruct Hdot as [-> ->].
  apply inv_seq in H. destruct H as (ext & w6 & g6 & -> & Hext & H).
  assert (He : (ext = u "h" \/ ext = u "cpp") /\ g6 = g0).
  { apply inv_alt in Hext. destruct Hext as [He|He];
      apply inv_str in He; destruct He as [-> ->]; auto. }
  destruct He as [He ->]. clear Hext.
  apply inv_seq in H. destruct H as (par & w7 & g7 & -> & Hpar & H).
  apply inv_str in Hpar. destruct Hpar as [-> ->].
  apply inv_seq in H. destruct H as (sect & w8 & g8 & -> & Hsect & H).
  apply inv_plus_set in Hsect. destruct Hsect as (-> & Hsect & Fsect).
  apply inv_seq in H. destruct H as (und & w9 & g9 & -> & Hund & H).
  apply inv_str in Hund. destruct Hund as [-> ->].
  apply inv_seq in H. destruct H as (name & q & g10 & -> & Hname & H).
  apply inv_group in Hname. destruct Hname as (g11 & Hname & ->).
  apply Matches_star_set in Hname. destruct Hname as [-> Fname].
  apply inv_lit in H. destruct H as [-> ->].
  exists name. split; [|reflexivity].
  exists file, ext, sect.
  split; [reflexivity|]. split; [exact Hfile|].
  split.
  { eapply List.Forall_impl; [|exact Ffile]. intros c Hc. rewrite <- set_word. exact Hc. }
  split; [exact He|]. split; [exact Hsect|].
  split.
  { eapply List.Forall_impl; [|exact Fsect]. intros c Hc. rewrite <- set_section_char. exact Hc. }
  eapply List.Forall_impl; [|exact Fname]. intros c. apply set_not_quote.
Qed.

Lemma reference_tail_intro name t g0 :
  reference_tail name t ->
  Matches reference_location t g0 (("missing_reference"%string, name) :: g0).
Proof.
  intros (file & ext & sect & -> & Hfile & Ffile & Hext & Hsect & Fsect & Fname).
  unfold reference_location.
  econstructor.
  { apply Matches_plus_set_intro; [exact Hfile|].
    eapply List.Forall_impl; [|exact Ffile]. intros c Hc. rewrite set_word. exact Hc. }
  change (u ".") with [chr "."].
  econstructor; [constructor|].
  econstructor.
  { destruct Hext as [-> | ->]; [apply MAltL | apply MAltR]; apply Matches_str_intro. }
  econstructor; [apply Matches_str_intro|].
  econstructor.
  { apply Matches_plus_set_intro; [exact Hsect|].
    eapply List.Forall_impl; [|exact Fsect]. intros c Hc. rewrite set_section_char. exact Hc. }
  econstructor; [apply Matches_str_intro|].
  change (u "'") with [chr "'"].
  econstructor; [|constructor].
  constructor. apply Matches_star_set_intro.
  eapply List.Forall_impl; [|exact Fname]. intros c. apply set_not_quote.
Qed.

(** A complaint matches the pattern, and a match of the pattern is a
    complaint. *)
Lemma reference_text_intro lead name w g0 :
  reference_text lead name w ->
  Matches _is_undefined_reference w g0 (("missing_reference"%string, name) :: g0).
Proof.
  intros (rest & onl & t & -> & Frest & Honl & _ & Ht).
  rewrite undefined_reference_parts.
  econstructor; [apply Matches_str_intro|].
  econstructor; [apply Matches_star_any_intro; exact Frest|].
  econstructor; [|apply reference_tail_intro; exact Ht].
  destruct Honl as [-> | ->]; [apply MAltR | apply MAltL]; constructor.
Qed.

Lemma reference_text_shape w g0 g :
  Matches _is_undefined_reference w g0 g ->
  exists lead name,
    reference_text lead name w /\ g = ("missing_reference"%string, name) :: g0.
Proof.
  rewrite undefined_reference_parts. intros H.
  apply inv_seq in H. destruct H as (w0 & w1 & g1 & -> & H0 & H).
  apply inv_str in H0. destruct H0 as [-> ->].
  apply inv_seq in H. destruct H as (rest & w2 & g2 & -> & Hrest & H).
  apply Matches_star_any in Hrest. destruct Hrest as [-> Frest].
  apply inv_seq in H. destruct H as (onl & t & g3 & -> & Honl & H).
  assert (Ho : (onl = [] \/ onl = nl) /\ g3 = g0).
  { apply inv_alt in Honl. destruct Honl as [Ho|Ho].
    - apply inv_lit in Ho. destruct Ho as [-> ->]. auto.
    - apply inv_eps in Ho. destruct Ho as [-> ->]. auto. }
  destruct Ho as [Ho ->]. clear Honl.
  apply reference_tail_shape in H. destruct H as (name & Ht & ->).
  exists (length (rest ++ onl)), name. split; [|reflexivity].
  exists rest, onl, t. auto.
Qed.

Lemma reference_text_nonempty lead name w :
  reference_text lead name w -> (0 < length w)%nat.
Proof. intros (rest & onl & t & -> & _). simpl. lia. Qed.

Lemma dot_not_word : is_word (chr ".") <> true.
Proof. unfold is_word. simpl. discriminate. Qed.

Lemma paren_not_section_char : section_char (chr ")") <> true.
Proof. unfold section_char, is_word. simpl. discriminate. Qed.

(** From a given place on, the location and the name are read in one way
    only. *)
Lemma reference_tail_unique name name' (t t' post post' : str) :
  reference_tail name t -> reference_tail name' t' -> t ++ post = t' ++ post' ->
  t = t' /\ name = name' /\ post = post'.
Proof.
  intros (file & ext & sect & -> & Hfile & Ffile & Hext & Hsect & Fsect & Fname)
         (file' & ext' & sect' & -> & Hfile' & Ffile' & Hext' & Hsect' & Fsect' & Fname') E.
  repeat rewrite <- app_assoc in E.
  change (u ".") with [chr "."] in E. cbn [app] in E.
  destruct (span_unique (fun c => is_word c = true) _ _ _ _ _ _
              Ffile Ffile' dot_not_word dot_not_word E) as (<- & _ & E1).
  assert (He : ext = ext' /\
               sect ++ u "): undefined reference to `" ++ name ++ u "'" ++ post =
               sect' ++ u "): undefined reference to `" ++ name' ++ u "'" ++ post').
  { destruct Hext as [-> | ->]; destruct Hext' as [-> | ->];
      simpl in E1; try discriminate; injection E1 as E1; auto. }
  destruct He as [<- E2]. clear E1.
  change (u "): undefined reference to `") with (chr ")" :: u ": undefined reference to `") in E2.
  cbn [app] in E2.
  destruct (span_unique (fun c => section_char c = true) _ _ _ _ _ _
              Fsect Fsect' paren_not_section_char paren_not_section_char E2) as (<- & _ & E3).
  apply app_inv_head in E3.
  change (u "'") with [chr "'"] in E3. cbn [app] in E3.
  destruct (span_unique (fun c => c <> chr "'") _ _ _ _ _ _ Fname Fname'
              ltac:(intros H; apply H; reflexivity) ltac:(intros H; apply H; reflexivity) E3)
    as (<- & _ & <-).
  repeat split; reflexivity.
Qed.

End ScanFacts.

Section GreedyStar.
Context `{RT : PythonRuntime}.

Lemma rmatch_str {R} l s g (k : cont R) x :
  rmatch (RStr l) s g k = Some x -> exists s', s = l ++ s' /\ k s' g = Some x.
Proof.
  intros H. apply rmatch_sound in H. destruct H as (w & s' & g' & -> & Hm & Hk).
  apply inv_str in Hm. destruct Hm as [-> ->]. eauto.
Qed.

(** The starred [.] that finds nothing has tried every part of the line. *)
Lemma star_any_none {R} :
  forall n s g (k : cont R),
    (length s <= n)%nat ->
    star_loop n (rmatch RAny) s g k = None ->
    forall w2 s2, s = w2 ++ s2 -> no_newline w2 -> k s2 g = None.
Proof.
  induction n as [|n IH]; intros s g k Hn H w2 s2 Hs F2.
  - destruct s; [|simpl in Hn; lia]. destruct w2; [|discriminate].
    simpl in Hs. subst s2. exact H.
  - destruct s as [|c s].
    + destruct w2; [|discriminate]. simpl in Hs. subst s2. exact H.
    + rewrite star_loop_S in H. cbn [rmatch] in H. destruct (N.eqb c NL) eqn:E.
      * apply N.eqb_eq in E. subst c. destruct w2 as [|c2 w2].
        -- simpl in Hs. subst s2. exact H.
        -- simpl in Hs. injection Hs as <- _. inversion F2; subst. congruence.
      * assert (Hlt : (length s <? length (c :: s))%nat = true)
          by (apply Nat.ltb_lt; simpl; lia).
        rewrite Hlt in H. cbv beta iota in H. simpl in Hn.
        destruct (star_loop n _ s g k) as [y|] eqn:Es; [discriminate|].
        destruct w2 as [|c2 w2].
        -- simpl in Hs. subst s2. exact H.
        -- simpl in Hs. injection Hs as <- Hs. inversion F2; subst.
           eapply IH; [|exact Es | reflexivity | assumption]. lia.
Qed.

(** The starred [.] takes the longest part of the line behind which the
    rest of the pattern matches. *)
Lemma star_any_first {R} :
  forall n s g (k : cont R) x,
    (length s <= n)%nat ->
    star_loop n (rmatch RAny) s g k = Some x ->
    exists w s',
      s = w ++ s' /\ no_newline w /\ k s' g = Some x /\
      (forall w2 s2, s = w2 ++ s2 -> no_newline w2 -> (length w < length w2)%nat ->
                     k s2 g = None).
Proof.
  induction n as [|n IH]; intros s g k x Hn H.
  - destruct s; [|simpl in Hn; lia]. exists [], []. split; [reflexivity|].
    split; [constructor|]. split; [exact H|].
    intros w2 s2 Hs _ Hl. destruct w2; [simpl in Hl; lia | discriminate].
  - destruct s as [|c s].
    + exists [], []. split; [reflexivity|]. split; [constructor|]. split; [exact H|].
      intros w2 s2 Hs _ Hl. destruct w2; [simpl in Hl; lia | discriminate].
    + rewrite star_loop_S in H. cbn [rmatch] in H. destruct (N.eqb c NL) eqn:E.
      * apply N.eqb_eq in E. subst c. exists [], (NL :: s).
        split; [reflexivity|]. split; [constructor|]. split; [exact H|].
        intros w2 s2 Hs F2 Hl. destruct w2 as [|c2 w2]; [simpl in Hl; lia|].
        simpl in Hs. injection Hs as <- _. inversion F2; subst. congruence.
      * apply N.eqb_neq in E.
        assert (Hlt : (length s <? length (c :: s))%nat = true)
          by (apply Nat.ltb_lt; simpl; lia).
        rewrite Hlt in H. cbv beta iota in H. simpl in Hn.
        destruct (star_loop n _ s g k) as [y|] eqn:Es.
        -- injection H as ->.
           destruct (IH s g k x ltac:(lia) Es) as (w & s' & Hs0 & Fw & Hk & Hmax).
           subst s.
           exists (c :: w), s'. split; [reflexivity|].
           split; [constructor; assumption|]. split; [exact Hk|].
           intros w2 s2 Hs F2 Hl. destruct w2 as [|c2 w2]; [simpl in Hl; lia|].
           simpl in Hs. injection Hs as <- Hs. inversion F2 as [|? ? Hc2 F2']; subst.
           apply (Hmax w2 s2 Hs); [assumption | simpl in Hl; lia].
        -- exists [], (c :: s). split; [reflexivity|]. split; [constructor|].
           split; [exact H|].
           intros w2 s2 Hs F2 Hl. destruct w2 as [|c2 w2]; [simpl in Hl; lia|].
           simpl in Hs. injection Hs as <- Hs. inversion F2 as [|? ? Hc2 F2']; subst.
           eapply star_any_none; [|exact Es | reflexivity | assumption]. lia.
Qed.

(** A part of a line is not longer than the line. *)
Lemma line_part_bound (rest rest' x y : str) :
  no_newline rest' -> rest' ++ x = rest ++ NL :: y -> (length rest' <= length rest)%nat.
Proof.
  revert rest'. induction rest as [|c rest IH]; intros rest' F E.
  - destruct rest' as [|c' rest']; [simpl; lia|].
    simpl in E. injection E as -> _. inversion F; subst. congruence.
  - destruct rest' as [|c' rest']; [simpl; lia|].
    simpl in E. injection E as _ E. inversion F; subst. simpl.
    specialize (IH rest' ltac:(assumption) E). lia.
Qed.

End GreedyStar.

Section GreedyLead.
Context `{RT : PythonRuntime}.

Lemma rmatch_seq {R} r1 r2 s g (k : cont R) :
  rmatch (RSeq r1 r2) s g k = rmatch r1 s g (fun s' g' => rmatch r2 s' g' k).
Proof. reflexivity. Qed.

Lemma rmatch_alt {R} r1 r2 s g (k : cont R) :
  rmatch (RAlt r1 r2) s g k =
  match rmatch r1 s g k with Some x => Some x | None => rmatch r2 s g k end.
Proof. reflexivity. Qed.

Lemma rmatch_star {R} r s g (k : cont R) :
  rmatch (RStar r) s g k = star_loop (length s) (rmatch r) s g k.
Proof. reflexivity. Qed.

(** A pattern that starts with a literal, a starred [.] and an optional
    newline: the match found is the one whose remaining part [r3] starts
    last. *)
Lemma lead_greedy {R} (l : str) (r3 : regex) s g (k : cont R) x :
  (forall s' g', k s' g' <> None) ->
  rmatch (RSeq (RStr l) (RSeq (RStar RAny) (RSeq (ROpt (RLit NL)) r3))) s g k = Some x ->
  exists rest onl t post g',
    s = l ++ rest ++ onl ++ t ++ post /\ no_newline rest /\ (onl = [] \/ onl = nl) /\
    Matches r3 t g g' /\ k post g' = Some x /\
    (forall rest' onl' t' post' g0 g1,
        s = l ++ rest' ++ onl' ++ t' ++ post' -> no_newline rest' ->
        (onl' = [] \/ onl' = nl) -> Matches r3 t' g0 g1 ->
        (length (rest' ++ onl') <= length (rest ++ onl))%nat).
Proof.
  intros Hk H.
  rewrite rmatch_seq in H. apply rmatch_str in H. destruct H as (s1 & -> & H).
  rewrite rmatch_seq, rmatch_star in H.
  apply star_any_first in H; [|apply le_n].
  destruct H as (rest & s2 & -> & Frest & H2 & Hmax).
  assert (HA : forall onl' t' post' g0 g1,
             (onl' = [] \/ onl' = nl) -> Matches r3 t' g0 g1 ->
             rmatch (RSeq (ROpt (RLit NL)) r3) (onl' ++ t' ++ post') g k <> None).
  { intros onl' t' post' g0 g1 Ho Ht. rewrite app_assoc.
    eapply (rmatch_complete _ _ g0 g1); [|intros g''; apply Hk].
    econstructor; [|exact Ht].
    destruct Ho as [-> | ->]; [apply MAltR | apply MAltL]; constructor. }
  rewrite rmatch_seq in H2. unfold ROpt in H2. rewrite rmatch_alt in H2.
  destruct (rmatch (RLit NL) s2 g (fun s' g' => rmatch r3 s' g' k)) as [y|] eqn:EA.
  - injection H2 as ->.
    apply rmatch_sound in EA. destruct EA as (w & s3 & g' & -> & Hw & H3).
    apply inv_lit in Hw. destruct Hw as [-> ->].
    apply rmatch_sound in H3. destruct H3 as (t & post & g' & -> & Ht & Hx).
    exists rest, nl, t, post, g'.
    split; [reflexivity|]. split; [exact Frest|]. split; [right; reflexivity|].
    split; [exact Ht|]. split; [exact Hx|].
    intros rest' onl' t' post' g0 g1 E F' Ho' Ht'.
    apply app_inv_head in E. symmetry in E.
    pose proof (line_part_bound rest rest' _ _ F' E) as Hb.
    rewrite !length_app. destruct Ho' as [-> | ->]; simpl; lia.
  - simpl in H2.
    apply rmatch_sound in H2. destruct H2 as (t & post & g' & -> & Ht & Hx).
    exists rest, [], t, post, g'.
    split; [reflexivity|]. split; [exact Frest|]. split; [left; reflexivity|].
    split; [exact Ht|]. split; [exact Hx|].
    intros rest' onl' t' post' g0 g1 E F' Ho' Ht'.
    apply app_inv_head in E. simpl in E.
    rewrite app_nil_r.
    destruct (Nat.le_gt_cases (length (rest' ++ onl')) (length rest)) as [Hle|Hgt];
      [exact Hle|]. exfalso.
    destruct (Nat.le_gt_cases (length rest') (length rest)) as [Hr|Hr].
    + rewrite length_app in Hgt.
      destruct Ho' as [-> | ->]; [simpl in Hgt; lia|]. simpl in Hgt.
      assert (Hl : length rest = length rest') by lia.
      destruct (prefix_unique _ _ _ _ E Hl) as [<- E2].
      rewrite E2 in EA. simpl in EA.
      revert EA. eapply (rmatch_complete _ _ g0 g1); [exact Ht' | intros g''; apply Hk].
    + apply (HA onl' t' post' g0 g1 Ho' Ht').
      rewrite rmatch_seq. apply (Hmax rest' _ E F' Hr).
Qed.

(** A match of the undefined-reference pattern at the head of a text is a
    complaint, and of all complaints at the head of the text it is the one
    whose location starts last. *)
Lemma undefined_reference_here s n g :
  match_here _is_undefined_reference s = Some (n, g) ->
  exists w post lead name,
    s = w ++ post /\ n = length w /\ reference_text lead name w /\
    g = [("missing_reference"%string, name)] /\
    (forall w' post' lead' name',
        s = w' ++ post' -> reference_text lead' name' w' -> (lead' <= lead)%nat).
Proof.
  unfold match_here. rewrite undefined_reference_parts. intros H.
  apply lead_greedy in H; [|discriminate].
  destruct H as (rest & onl & t & post & g' & Hs & Frest & Honl & Ht & Hx & Hmax).
  apply reference_tail_shape in Ht. destruct Ht as (name & Ht & ->).
  injection Hx as Hn <-.
  exists (u "/usr/bin/ld: " ++ rest ++ onl ++ t), post, (length (rest ++ onl)), name.
  split; [rewrite Hs, <- !app_assoc; reflexivity|].
  split.
  { rewrite <- Hn, Hs. rewrite !length_app. lia. }
  split; [exists rest, onl, t; auto|]. split; [reflexivity|].
  intros w' post' lead' name' Hs' (rest' & onl' & t' & -> & F' & Ho' & -> & Ht').
  eapply (Hmax rest' onl' t' post' [] _); [|exact F' | exact Ho' |].
  - rewrite Hs'. rewrite <- !app_assoc. reflexivity.
  - apply reference_tail_intro. exact Ht'.
Qed.

End GreedyLead.

Section ScanLists.
Context `{RT : PythonRuntime}.

Lemma undefined_reference_not_at_end : match_here _is_undefined_reference [] = None.
Proof.
  destruct (match_here _is_undefined_reference []) as [[n g]|] eqn:E; [|reflexivity].
  apply undefined_reference_here in E.
  destruct E as (w & post & lead & name & Hs & _ & Ht & _).
  apply reference_text_nonempty in Ht. destruct w; [simpl in Ht; lia | discriminate].
Qed.

(** [re.finditer] scans the text: what it yields from the position
    [pos + skip] on is a scan of the text from there. *)
Lemma finditer_from_scan :
  forall (s pre0 : str) pos skip,
    pos = length pre0 ->
    exists found,
      scan (pos + skip) (pre0 ++ s) found /\
      map f_name found =
        map (fun m => group m "missing_reference")
            (finditer_from _is_undefined_reference s pos skip).
Proof.
  induction s as [|c s IH]; intros pre0 pos skip Hpos.
  - exists []. split.
    + split; [constructor|]. split; [constructor|].
      intros pre w post lead name Hs Ht Hfrom. exfalso.
      apply reference_text_nonempty in Ht.
      apply (f_equal (@length _)) in Hs. rewrite !length_app in Hs. simpl in Hs. lia.
    + destruct skip; cbn [finditer_from]; [|reflexivity].
      rewrite undefined_reference_not_at_end. reflexivity.
  - assert (Hpos' : S pos = length (pre0 ++ [c]))
      by (rewrite length_app; simpl; lia).
    assert (Htext : (pre0 ++ [c]) ++ s = pre0 ++ c :: s)
      by (rewrite <- app_assoc; reflexivity).
    destruct skip as [|skip].
    + cbn [finditer_from].
      destruct (match_here _is_undefined_reference (c :: s)) as [[n g]|] eqn:E.
      * destruct (undefined_reference_here _ _ _ E)
          as (w & post & lead & name & Hs & Hn & Ht & Hg & Hmax).
        pose proof (reference_text_nonempty _ _ _ Ht) as Hw.
        destruct (IH (pre0 ++ [c]) (S pos) (n - 1)%nat Hpos')
          as (found & (Hall & Hord & Hcov) & Hnames).
        rewrite Htext in Hall, Hcov.
        exists ({| f_before := pre0; f_text := w; f_lead := lead; f_name := name |} :: found).
        split; [split; [|split]|].
        -- constructor.
           ++ unfold f_start. simpl. split; [lia|].
              split; [exists post; rewrite Hs; reflexivity|]. split; [exact Ht|].
              intros w' post' lead' name' Hs' Ht'. apply app_inv_head in Hs'.
              exact (Hmax _ _ _ _ Hs' Ht').
           ++ eapply List.Forall_impl; [|exact Hall].
              intros f (Hf & Hrest). split; [lia | exact Hrest].
        -- constructor; [|exact Hord].
           eapply List.Forall_impl; [|exact Hall].
           intros f (Hf & _). unfold f_end. simpl. lia.
        -- intros pre w' post' lead' name' Hs' Ht' Hfrom.
           destruct (Nat.lt_ge_cases (length pre) (pos + n)) as [Hlt|Hge].
           ++ eexists. split; [left; reflexivity|].
              unfold f_start, f_end. simpl. lia.
           ++ destruct (Hcov pre w' post' lead' name' Hs' Ht' ltac:(lia)) as (f & Hin & Hf).
              exists f. split; [right; exact Hin | exact Hf].
        -- simpl. rewrite Hnames. f_equal. unfold group. simpl. rewrite Hg. reflexivity.
      * destruct (IH (pre0 ++ [c]) (S pos) 0%nat Hpos')
          as (found & (Hall & Hord & Hcov) & Hnames).
        rewrite Htext in Hall, Hcov.
        exists found. split; [split; [|split]|exact Hnames].
        -- eapply List.Forall_impl; [|exact Hall].
           intros f (Hf & Hrest). split; [lia | exact Hrest].
        -- exact Hord.
        -- intros pre w' post' lead' name' Hs' Ht' Hfrom.
           destruct (Nat.eq_dec (length pre) pos) as [Heq|Hne].
           ++ exfalso. rewrite Hpos in Heq. symmetry in Heq.
              destruct (prefix_unique _ _ _ _ Hs' Heq) as [_ Hs2].
              apply (match_here_complete _ _ post' [] _
                       (reference_text_intro _ _ _ [] Ht')).
              rewrite <- Hs2. exact E.
           ++ apply (Hcov pre w' post' lead' name' Hs' Ht'). lia.
    + cbn [finditer_from].
      destruct (IH (pre0 ++ [c]) (S pos) skip Hpos') as (found & Hscan & Hnames).
      rewrite Htext in Hscan.
      exists found. split; [|exact Hnames].
      replace (pos + S skip)%nat with (S pos + skip)%nat by lia. exact Hscan.
Qed.

(** A scan's first finding starts where the first complaint starts. *)
Lemma scan_head_first from s f fs pre w post lead name :
  scan from s (f :: fs) ->
  s = pre ++ w ++ post -> reference_text lead name w -> (from <= length pre)%nat ->
  (f_start f <= length pre)%nat.
Proof.
  intros (Hall & Hord & Hcov) Hs Ht Hfrom.
  destruct (Hcov pre w post lead name Hs Ht Hfrom) as (g & [<-|Hin] & Hg); [lia|].
  inversion Hord as [|? ? Hhead _]; subst.
  rewrite List.Forall_forall in Hhead. specialize (Hhead g Hin).
  unfold f_end, f_start in *. lia.
Qed.

Lemma scan_tail from s f fs : scan from s (f :: fs) -> scan (f_end f) s fs.
Proof.
  intros (Hall & Hord & Hcov).
  pose proof (List.Forall_inv Hall) as Hf.
  pose proof (List.Forall_inv_tail Hall) as Hall'.
  inversion Hord as [|? ? Hhead Hord']; subst.
  split; [|split; [exact Hord'|]].
  - rewrite List.Forall_forall in *. intros g Hin.
    destruct (Hall' g Hin) as (_ & Hrest). split; [exact (Hhead g Hin) | exact Hrest].
  - intros pre w post lead name Hs Ht Hfrom.
    destruct Hf as (Hf & _).
    destruct (Hcov pre w post lead name Hs Ht) as (g & [<-|Hin] & Hg).
    + unfold f_end, f_start in *. lia.
    + lia.
    + exists g. auto.
Qed.

(** Where a finding starts decides what it is. *)
Lemma finding_determined (s : str) (f f' : finding) :
  (exists after, s = f_before f ++ f_text f ++ after) ->
  reference_text (f_lead f) (f_name f) (f_text f) ->
  (forall w post lead name,
      s = f_before f ++ w ++ post -> reference_text lead name w -> (lead <= f_lead f)%nat) ->
  (exists after, s = f_before f' ++ f_text f' ++ after) ->
  reference_text (f_lead f') (f_name f') (f_text f') ->
  (forall w post lead name,
      s = f_before f' ++ w ++ post -> reference_text lead name w -> (lead <= f_lead f')%nat) ->
  f_start f = f_start f' -> f = f'.
Proof.
  destruct f as [b w l n], f' as [b' w' l' n']. unfold f_start. simpl.
  intros [after Hs] Ht Hmax [after' Hs'] Ht' Hmax' Hlen.
  assert (Hb : b = b' /\ w ++ after = w' ++ after').
  { rewrite Hs in Hs'. exact (prefix_unique _ _ _ _ Hs' Hlen). }
  destruct Hb as [<- Hw].
  assert (Hl : l = l').
  { apply Nat.le_antisymm.
    - exact (Hmax' w after l n Hs Ht).
    - exact (Hmax w' after' l' n' Hs' Ht'). }
  subst l'.
  destruct Ht as (rest & onl & t & -> & _ & _ & Hlead & Htail).
  destruct Ht' as (rest' & onl' & t' & -> & _ & _ & Hlead' & Htail').
  repeat rewrite <- app_assoc in Hw. apply app_inv_head in Hw.
  rewrite (app_assoc rest), (app_assoc rest') in Hw.
  destruct (prefix_unique _ _ _ _ Hw ltac:(congruence)) as [Hro Hta].
  destruct (reference_tail_unique _ _ _ _ _ _ Htail Htail' Hta) as (<- & <- & _).
  rewrite (app_assoc rest), (app_assoc rest'), Hro. reflexivity.
Qed.

(** A text has one scan. *)
Lemma scan_unique (s : str) :
  forall found from found', scan from s found -> scan from s found' -> found' = found.
Proof.
  assert (Hnil : forall from f fs, scan from s [] -> scan from s (f :: fs) -> False).
  { intros from f fs (_ & _ & Hcov) (Hall & _).
    apply List.Forall_inv in Hall. destruct Hall as (Hf & [after Hs] & Ht & _).
    destruct (Hcov _ _ _ _ _ Hs Ht Hf) as (g & [] & _). }
  induction found as [|f fs IH]; intros from found' H H'.
  - destruct found' as [|f' fs']; [reflexivity|]. exfalso. eapply Hnil; eassumption.
  - destruct found' as [|f' fs']; [exfalso; eapply Hnil; eassumption|].
    assert (Hf : f' = f).
    { pose proof (List.Forall_inv (proj1 H)) as (Hfrom & [after Hs] & Ht & Hmax).
      pose proof (List.Forall_inv (proj1 H')) as (Hfrom' & [after' Hs'] & Ht' & Hmax').
      apply (finding_determined s); eauto.
      apply Nat.le_antisymm.
      - exact (scan_head_first from s f' fs' _ _ _ _ _ H' Hs Ht Hfrom).
      - exact (scan_head_first from s f fs _ _ _ _ _ H Hs' Ht' Hfrom'). }
    subst f'. f_equal.
    apply (IH (f_end f)); eapply scan_tail; eassumption.
Qed.

End ScanLists.

(** ** Paths *)

Lemma str_eqb_refl s : str_eqb s s = true.
Proof. unfold str_eqb. destruct (str_eq_dec s s); [reflexivity | contradiction]. Qed.

Lemma str_eqb_eq a b : str_eqb a b = true <-> a = b.
Proof. unfold str_eqb. destruct (str_eq_dec a b); split; congruence. Qed.

Lemma relative_to_Some base : forall p rel, relative_to p base = Some rel -> p = base ++ rel.
Proof.
  induction base as [|b base IH]; intros p rel H; simpl in H.
  - injection H as ->. reflexivity.
  - destruct p as [|c p]; [discriminate|].
    destruct (str_eqb c b) eqn:E; [|discriminate]. apply str_eqb_eq in E. subst c.
    simpl. f_equal. apply IH. exact H.
Qed.

Lemma relative_to_app base rel : relative_to (base ++ rel) base = Some rel.
Proof.
  induction base as [|b base IH]; simpl; [reflexivity|]. rewrite str_eqb_refl. exact IH.
Qed.

Lemma lit_source_target evaluation_folder build_path src rel :
  relative_to src evaluation_folder = Some rel ->
  lit_source evaluation_folder build_path (build_path ++ [u "test"] ++ rel) = Some src.
Proof.
  intros H. unfold lit_source. rewrite app_assoc, relative_to_app. simpl.
  rewrite (relative_to_Some _ _ _ H). reflexivity.
Qed.

Lemma path_name_app (p rel : path) : rel <> [] -> path_name (p ++ rel) = path_name rel.
Proof.
  intros Hne. unfold path_name. induction p as [|c p IH]; [reflexivity|].
  simpl. destruct (p ++ rel) eqn:E; [|exact IH].
  destruct p; [|discriminate]. simpl in E. contradiction.
Qed.


(** ** The monad *)

Lemma add_log_nil st : add_log st [] = st.
Proof. destruct st. unfold add_log. simpl. rewrite app_nil_r. reflexivity. Qed.

Lemma add_log_app st e1 e2 : add_log (add_log st e1) e2 = add_log st (e1 ++ e2).
Proof. unfold add_log. simpl. rewrite app_assoc. reflexivity. Qed.

Lemma emit_run e st : emit e st = (Ok tt, add_log st [e]).
Proof. reflexivity. Qed.

Lemma bind_run {A B} (m : M A) (k : A -> M B) st r st' :
  m st = (r, st') ->
  bind m k st = match r with Ok a => k a st' | Raise e => (Raise e, st') end.
Proof. intros H. unfold bind. rewrite H. reflexivity. Qed.

Lemma of_option_run {A} (o : option A) e st :
  of_option o e st = (match o with Some a => Ok a | None => Raise e end, st).
Proof. destruct o; reflexivity. Qed.

Lemma with_attrs_run {A} n (body : M (A * list attr)) st r evs :
  body (add_log st [Start n]) = (r, add_log (add_log st [Start n]) evs) ->
  with_attrs n body st =
  (match r with Ok x => Ok x.1 | Raise e => Raise e end,
   add_log st ([Start n] ++ evs ++
               [Close n match r with Ok x => x.2 | Raise _ => [] end])).
Proof.
  intros H. unfold with_attrs.
  change ((emit (Start n) ;;; body) st) with (body (add_log st [Start n])). rewrite H.
  destruct r as [[a attrs]|e]; unfold bind, emit, ret, raise; simpl;
    unfold add_log; simpl; rewrite <- !app_assoc; reflexivity.
Qed.

Lemma with_ret n st :
  with_ n (ret tt) st = (Ok tt, add_log st [Start n; Close n []]).
Proof.
  unfold with_, with_attrs, bind, emit, ret, add_log. simpl.
  rewrite <- app_assoc. reflexivity.
Qed.

Lemma spec_ret {A} (a : A) st Pe (Pr : A -> Prop) : Pr a -> spec (ret a) st Pe Pr.
Proof.
  intros H. exists (Ok a), []. rewrite add_log_nil. split; [reflexivity|].
  split; [constructor|]. intros a' E. injection E as <-. exact H.
Qed.

Lemma spec_raise {A} e st Pe (Pr : A -> Prop) : spec (raise e) st Pe Pr.
Proof.
  exists (Raise e), []. rewrite add_log_nil. split; [reflexivity|].
  split; [constructor | discriminate].
Qed.

Lemma spec_of_option {A} (o : option A) e st Pe (Pr : A -> Prop) :
  (forall a, o = Some a -> Pr a) -> spec (of_option o e) st Pe Pr.
Proof. intros H. destruct o; [apply spec_ret; auto | apply spec_raise]. Qed.

Lemma spec_weaken {A} (m : M A) st (Pe Pe' : event -> Prop) (Pr Pr' : A -> Prop) :
  (forall e, Pe e -> Pe' e) -> (forall a, Pr a -> Pr' a) ->
  spec m st Pe Pr -> spec m st Pe' Pr'.
Proof.
  intros He Hr (r & evs & Hrun & Hevs & Hres). exists r, evs. split; [exact Hrun|].
  split; [eapply List.Forall_impl; [exact He | exact Hevs] | auto].
Qed.

Lemma spec_bind {A B} (m : M A) (k : A -> M B) st Pe (Pa : A -> Prop) (Pb : B -> Prop) :
  spec m st Pe Pa ->
  (forall a st1, Pa a -> spec (k a) st1 Pe Pb) ->
  spec (bind m k) st Pe Pb.
Proof.
  intros (r & evs & Hrun & Hevs & Hres) Hk.
  pose proof (bind_run m k st r _ Hrun) as Hb. destruct r as [a|e].
  - destruct (Hk a (add_log st evs) (Hres a eq_refl)) as (r' & evs' & Hrun' & Hevs' & Hres').
    exists r', (evs ++ evs'). rewrite Hb, <- add_log_app. split; [exact Hrun'|].
    split; [apply Forall_app; auto | exact Hres'].
  - exists (Raise e), evs. split; [exact Hb|]. split; [exact Hevs | discriminate].
Qed.

Lemma spec_with_attrs {A} n (body : M (A * list attr)) st Pe (Pr : A -> Prop)
    (Pattrs : list attr -> Prop) :
  Pe (Start n) -> Pattrs [] -> (forall attrs, Pattrs attrs -> Pe (Close n attrs)) ->
  (forall st1, spec body st1 Pe (fun x => Pr x.1 /\ Pattrs x.2)) ->
  spec (with_attrs n body) st Pe Pr.
Proof.
  intros Hs Hnil Hc Hbody.
  destruct (Hbody (add_log st [Start n])) as (r & evs & Hrun & Hevs & Hres).
  eexists _, _. split; [apply (with_attrs_run _ _ _ _ _ Hrun)|]. split.
  - apply Forall_app. split; [repeat constructor; exact Hs|]. apply Forall_app.
    split; [exact Hevs|]. repeat constructor. apply Hc.
    destruct r as [x|e]; [apply (Hres x eq_refl) | exact Hnil].
  - intros a E. destruct r as [x|e]; [|discriminate]. injection E as <-.
    apply (Hres x eq_refl).
Qed.

Lemma spec_with {A} n (body : M A) st Pe (Pr : A -> Prop) :
  Pe (Start n) -> Pe (Close n []) ->
  (forall st1, spec body st1 Pe Pr) ->
  spec (with_ n body) st Pe Pr.
Proof.
  intros Hs Hc Hbody. unfold with_.
  apply spec_with_attrs with (Pattrs := fun attrs => attrs = []);
    [exact Hs | reflexivity | intros attrs ->; exact Hc |].
  intros st1. eapply spec_bind; [apply Hbody|].
  intros a st2 Ha. apply spec_ret. auto.
Qed.

Lemma spec_for_each {A S} (xs : list A) (body : A -> S -> M S) acc st Pe (Pr : S -> Prop) :
  Pr acc ->
  (forall x acc st1, In x xs -> Pr acc -> spec (body x acc) st1 Pe Pr) ->
  spec (for_each xs body acc) st Pe Pr.
Proof.
  revert acc st. induction xs as [|x xs IH]; intros acc st Hacc Hbody; simpl.
  - apply spec_ret. exact Hacc.
  - eapply spec_bind; [apply Hbody; [left; reflexivity | exact Hacc]|].
    intros acc' st1 Hacc'. apply IH; [exact Hacc'|].
    intros y acc'' st2 Hy. apply Hbody. right. exact Hy.
Qed.


(** ** compile_error.py: the classifier *)

Section CompileErrorFacts.
Context `{RT : PythonRuntime}.

Lemma undefined_reference_binds :
  binds "missing_reference" _is_undefined_reference = true.
Proof. reflexivity. Qed.

(** The bullet lines of the message, as the code joins them. *)
Lemma bullet_lines_join (names : list str) :
  names <> [] ->
  nl ++ join nl (map (fun name => u " * `" ++ name ++ u "`") names) = bullet_lines names.
Proof.
  induction names as [|a names IH]; [contradiction|]. intros _.
  destruct names as [|b names].
  - cbn [map join bullet_lines]. rewrite app_nil_r. reflexivity.
  - specialize (IH ltac:(discriminate)).
    change (bullet_lines (a :: b :: names))
      with (nl ++ u " * `" ++ a ++ u "`" ++ bullet_lines (b :: names)).
    rewrite <- IH.
    change (join nl (map (fun name => u " * `" ++ name ++ u "`") (a :: b :: names)))
      with ((u " * `" ++ a ++ u "`") ++ nl ++
            join nl (map (fun name => u " * `" ++ name ++ u "`") (b :: names))).
    rewrite <- !app_assoc. reflexivity.
Qed.

Lemma set_iter_nonempty (names : list str) : names <> [] -> set_iter names <> [].
Proof.
  intros Hne Hnil. pose proof (set_iter_perm names) as Hp.
  rewrite Hnil in Hp. apply Permutation_nil in Hp.
  destruct names as [|a names]; [contradiction|].
  assert (Hin : In a (List.nodup str_eq_dec (a :: names)))
    by (apply nodup_In; left; reflexivity).
  rewrite Hp in Hin. exact Hin.
Qed.

(** The run on a text in which [re.finditer] finds undefined references. *)
Lemma undefined_references_run stderr_content exit_code st :
  re_finditer _is_undefined_reference stderr_content <> [] ->
  handle_compile_error stderr_content exit_code st =
    (Ok tt,
     add_log st (unresolved_symbols_report
                   (set_iter (map (fun m => group m "missing_reference")
                                  (re_finditer _is_undefined_reference stderr_content))))).
Proof.
  intros Hms. unfold handle_compile_error.
  destruct (re_finditer _is_undefined_reference stderr_content) as [|m ms]; [contradiction|].
  rewrite with_ret. unfold unresolved_symbols_report.
  rewrite <- bullet_lines_join; [reflexivity|].
  apply set_iter_nonempty. discriminate.
Qed.

(** C2, amended. A text with a match of the undefined-reference pattern is
    reported as unresolved symbols, and as nothing else, whatever compiler
    diagnostics it also holds: the report is one message, the heading and a
    bullet line for each listed name; it is neither a located compile error
    nor the fallback. The names listed, each once and in some order, are
    those of the findings of the one scan of the text from left to right:
    complaints that do not overlap, each the first complaint behind the
    finding before it, and of the complaints that start there the one whose
    location starts last. *)
Theorem undefined_references_reported stderr_content exit_code st :
  Contains _is_undefined_reference stderr_content ->
  exists found listed,
    scan 0 stderr_content found /\
    (forall found', scan 0 stderr_content found' -> found' = found) /\
    found <> [] /\
    List.NoDup listed /\
    (forall name, In name listed <-> In name (map f_name found)) /\
    handle_compile_error stderr_content exit_code st =
      (Ok tt, add_log st (unresolved_symbols_report listed)) /\
    (forall row message, unresolved_symbols_report listed <> located_error_report row message) /\
    (forall code quoted, unresolved_symbols_report listed <> fallback_report code quoted).
Proof.
  intros Hc.
  pose proof (re_finditer_complete _ _ Hc) as Hms.
  destruct (finditer_from_scan stderr_content [] 0 0 eq_refl) as (found & Hscan & Hnames).
  simpl in Hscan. fold (re_finditer _is_undefined_reference stderr_content) in Hnames.
  set (names := map (fun m => group m "missing_reference")
                    (re_finditer _is_undefined_reference stderr_content)) in *.
  exists found, (set_iter names).
  split; [exact Hscan|].
  split; [intros found' H'; exact (scan_unique _ _ _ _ Hscan H')|].
  split.
  { intros Hnil. rewrite Hnil in Hnames. simpl in Hnames. subst names.
    symmetry in Hnames. apply map_eq_nil in Hnames. contradiction. }
  pose proof (set_iter_perm names) as Hp.
  split; [eapply Permutation_NoDup; [symmetry; exact Hp | apply List.NoDup_nodup]|].
  split.
  { intros name. rewrite Hnames. split; intros Hin.
    - apply (nodup_In str_eq_dec). eapply Permutation_in; [exact Hp | exact Hin].
    - eapply Permutation_in; [symmetry; exact Hp|]. apply nodup_In. exact Hin. }
  split; [apply undefined_references_run; exact Hms|].
  split; [intros row message; discriminate|].
  intros code quoted H. injection H as H. vm_compute in H. discriminate.
Qed.

Lemma compile_error_ends_line : ends_with_rest_of_line _is_compile_error = true.
Proof. reflexivity. Qed.

Lemma re_search_contains r s m : re_search r s = Some m -> Contains r s.
Proof.
  intros H. apply search_from_sound in H.
  destruct H as (pre & w & post & Hs & Hm & _). exists pre, w, post, (m_groups m). auto.
Qed.

Lemma re_search_not_contains r s :
  re_search r s = None -> ~ Contains r s.
Proof. intros H Hc. exact (re_search_complete _ _ Hc H). Qed.

Lemma colon_not_path_char : path_char (chr ":") <> true.
Proof. unfold path_char, is_word. simpl. discriminate. Qed.

Lemma colon_not_digit : is_digit (chr ":") <> true.
Proof. unfold is_digit, digit_value. simpl. discriminate. Qed.

(** What [re.search] finds with the compile-error pattern is the first
    diagnostic of the text. *)
Lemma first_match_diagnostic stderr_content m :
  re_search _is_compile_error stderr_content = Some m ->
  exists pre path line col msg post,
    first_diagnostic stderr_content pre path line col msg post /\
    group m "line" = line /\ group m "column" = col /\ group m "message" = msg.
Proof.
  intros Em.
  destruct (search_from_sound _ _ _ _ Em) as (pre & w & post & Hs & Hm & _ & _ & Hh & Hleft).
  destruct (compile_error_shape _ _ _ Hm)
    as (path & line & col & msg & Hw & Hg & Hpath & Hline & Hcol & Hmsg & Fline & Fcol & Fmsg & Fpath).
  exists pre, path, line, col, msg, post.
  split; [|unfold group; rewrite Hg; repeat split; reflexivity].
  split; [rewrite <- Hw; exact Hs|].
  split; [exact Hpath|]. split; [exact Fpath|].
  split; [exact Hline|]. split; [exact Fline|].
  split; [exact Hcol|]. split; [exact Fcol|]. split; [exact Hmsg|]. split; [exact Fmsg|].
  split; [|exact Hleft].
  unfold match_here in Hh.
  apply (greedy_eol _ compile_error_ends_line) in Hh; [|discriminate].
  destruct Hh as (w2 & s' & g' & Hsplit & Heol & Hx). injection Hx as Hlen _.
  assert (Hl : length s' = length post).
  { apply (f_equal (@length _)) in Hsplit. rewrite !length_app in Hsplit.
    rewrite length_app in Hlen. lia. }
  symmetry in Hsplit. apply app_inj_2 in Hsplit; [|exact Hl].
  destruct Hsplit as [_ ->]. exact Heol.
Qed.

(** A text has one first diagnostic at most. *)
Lemma first_diagnostic_unique s pre path line col msg post pre' path' line' col' msg' post' :
  first_diagnostic s pre path line col msg post ->
  first_diagnostic s pre' path' line' col' msg' post' ->
  pre' = pre /\ path' = path /\ line' = line /\ col' = col /\ msg' = msg /\ post' = post.
Proof.
  intros (Hs & Hpath & Fpath & Hline & Fline & Hcol & Fcol & Hmsg & Fmsg & Hpost & Hleft)
         (Hs' & Hpath' & Fpath' & Hline' & Fline' & Hcol' & Fcol' & Hmsg' & Fmsg' & Hpost' & Hleft').
  assert (Hlen : length pre = length pre').
  { apply Nat.le_antisymm.
    - eapply (Hleft pre' _ post' []); [exact Hs'|].
      apply compile_error_intro; assumption.
    - eapply (Hleft' pre _ post []); [exact Hs|].
      apply compile_error_intro; assumption. }
  rewrite Hs in Hs'.
  destruct (prefix_unique _ _ _ _ Hs' Hlen) as [<- E]. clear Hs'.
  split; [reflexivity|].
  repeat rewrite <- app_assoc in E.
  change (u ":") with ([chr ":"]) in E. cbn [app] in E.
  destruct (span_unique (fun c => path_char c = true) _ _ _ _ _ _
              Fpath Fpath' colon_not_path_char colon_not_path_char E) as (<- & _ & E1).
  split; [reflexivity|].
  destruct (span_unique (fun c => is_digit c = true) _ _ _ _ _ _
              Fline Fline' colon_not_digit colon_not_digit E1) as (<- & _ & E2).
  split; [reflexivity|].
  destruct (span_unique (fun c => is_digit c = true) _ _ _ _ _ _
              Fcol Fcol' colon_not_digit colon_not_digit E2) as (<- & _ & E3).
  split; [reflexivity|].
  injection E3 as E3.
  destruct (line_unique _ _ _ _ Fmsg Fmsg' Hpost Hpost' E3) as [<- <-].
  split; reflexivity.
Qed.

(** The run on a text without an undefined reference whose first
    compile-error match is [m]. *)
Lemma compile_error_run stderr_content exit_code st m :
  re_finditer _is_undefined_reference stderr_content = [] ->
  re_search _is_compile_error stderr_content = Some m ->
  handle_compile_error stderr_content exit_code st =
    match py_int (group m "line") with
    | Some row => (Ok tt, add_log st (located_error_report row (group m "message")))
    | None => (Raise ValueError, add_log st (refused_line_report (group m "message")))
    end.
Proof.
  intros Hfi Em. unfold handle_compile_error. rewrite Hfi, Em.
  destruct (py_int (group m "line")) as [row|];
    unfold with_, with_attrs, bind, emit, ret, raise, of_option, add_log,
      located_error_report, refused_line_report; simpl;
    rewrite <- !app_assoc; reflexivity.
Qed.

(** C3, amended. A text without a match of the undefined-reference pattern
    and with a match of the compile-error pattern is handled by its first
    diagnostic only: the leftmost match of the pattern, which splits in one
    way only into path, line number, column number and message, the message
    running to the end of its line. A line number of at most 4300 digits
    gives the located compile error, which holds the line as an integer and
    the message; the column is matched and not reported. A longer line
    number is refused by [int]: the run ends with [ValueError], the message
    node alone opened and closed. *)
Theorem first_compile_error_located stderr_content exit_code st :
  ~ Contains _is_undefined_reference stderr_content ->
  Contains _is_compile_error stderr_content ->
  exists pre path line col msg post,
    first_diagnostic stderr_content pre path line col msg post /\
    (forall pre' path' line' col' msg' post',
        first_diagnostic stderr_content pre' path' line' col' msg' post' ->
        pre' = pre /\ path' = path /\ line' = line /\ col' = col /\ msg' = msg /\
        post' = post) /\
    ((length line <= int_max_str_digits)%nat ->
     exists row,
       py_int line = Some row /\
       handle_compile_error stderr_content exit_code st =
         (Ok tt, add_log st (located_error_report row msg))) /\
    ((int_max_str_digits < length line)%nat ->
     handle_compile_error stderr_content exit_code st =
       (Raise ValueError, add_log st (refused_line_report msg))).
Proof.
  intros Hno Hc.
  pose proof (re_finditer_none _ _ Hno) as Hfi.
  pose proof (re_search_complete _ _ Hc) as Hse.
  destruct (re_search _is_compile_error stderr_content) as [m|] eqn:Em; [|contradiction].
  destruct (first_match_diagnostic _ _ Em)
    as (pre & path & line & col & msg & post & Hd & Gline & Gcol & Gmsg).
  pose proof (compile_error_run stderr_content exit_code st m Hfi Em) as Hrun.
  rewrite Gline, Gmsg in Hrun.
  exists pre, path, line, col, msg, post.
  split; [exact Hd|].
  split; [intros; eapply first_diagnostic_unique; eassumption|].
  destruct Hd as (_ & _ & _ & Hline & Fline & _).
  split.
  - intros Hlen. destruct (py_int_total _ Hline Fline Hlen) as [row Hrow].
    exists row. rewrite Hrow in Hrun. auto.
  - intros Hlen. rewrite (py_int_long _ Hlen) in Hrun. exact Hrun.
Qed.

(** C8. A text with no match of either pattern is reported through the
    fallback, and the block quote in that message is lossless: taking the
    quote prefix off every line (and dropping the two fence lines) gives the
    text back, newlines included. *)
Theorem unmatched_output_falls_back stderr_content exit_code st :
  ~ Contains _is_undefined_reference stderr_content ->
  ~ Contains _is_compile_error stderr_content ->
  exists quoted,
    handle_compile_error stderr_content exit_code st =
      (Ok tt, add_log st (fallback_report exit_code quoted)) /\
    unquote_block quoted = stderr_content.
Proof.
  intros Hu Hc.
  exists (u "> ```" ++ nl ++ block_quote stderr_content ++ nl ++ u "> ```").
  split; [|apply block_quote_lossless].
  unfold handle_compile_error.
  rewrite (re_finditer_none _ _ Hu), (re_search_none _ _ Hc).
  apply with_ret.
Qed.

End CompileErrorFacts.

(** The sample link failure is scanned and reported as unresolved symbols. *)
Lemma undefined_references_witness :
  Contains (RT := ascii_runtime) _is_undefined_reference sample_link_error /\
  exists found listed,
    scan (RT := ascii_runtime) 0 sample_link_error found /\
    found <> [] /\
    List.NoDup listed /\
    (forall name, In name listed <-> In name (map f_name found)) /\
    handle_compile_error (RT := ascii_runtime) sample_link_error (Some 2%Z) initial_state =
      (Ok tt, add_log initial_state (unresolved_symbols_report listed)).
Proof.
  assert (H : Contains (RT := ascii_runtime) _is_undefined_reference sample_link_error).
  { destruct (re_search (RT := ascii_runtime) _is_undefined_reference sample_link_error)
      as [m|] eqn:E; [exact (re_search_contains _ _ _ E) | vm_compute in E; discriminate]. }
  split; [exact H|].
  destruct (undefined_references_reported (RT := ascii_runtime)
              sample_link_error (Some 2%Z) initial_state H)
    as (found & listed & Hscan & _ & Hne & Hnd & Hin & Hrun & _).
  exists found, listed. auto.
Defined.

(** The claim C2 as it is worded fails: a line of the build output is an
    undefined-reference line that names [f], and the report lists [g]
    only, the name of the next line, which the match of the first line's
    prefix runs on to. *)
Lemma undefined_reference_line_unlisted :
  sample_two_references = sample_reference_line ++ nl ++ sample_location_line /\
  (exists g,
     Matches (RT := ascii_runtime) _is_undefined_reference sample_reference_line [] g /\
     group_lookup g "missing_reference" = Some (u "f")) /\
  handle_compile_error (RT := ascii_runtime) sample_two_references None initial_state =
    (Ok tt, add_log initial_state (unresolved_symbols_report [u "g"])).
Proof.
  split; [reflexivity|]. split; [|vm_compute; reflexivity].
  destruct (match_here (RT := ascii_runtime) _is_undefined_reference sample_reference_line)
    as [[n g]|] eqn:E; [|vm_compute in E; discriminate].
  destruct (match_here_sound _ _ _ _ E) as (w & s' & Hs & Hm & Hn).
  vm_compute in E. injection E as <- <-.
  assert (Hnil : s' = []).
  { apply (f_equal (@length _)) in Hs. rewrite length_app, <- Hn in Hs.
    vm_compute in Hs. destruct s'; [reflexivity | simpl in Hs; lia]. }
  subst s'. rewrite app_nil_r in Hs. subst w.
  eexists. split; [exact Hm | reflexivity].
Qed.

(** The claim C3 as it is worded fails: no reading of the report gives the
    column, since two outputs that differ in the column only are reported
    alike. *)
Lemma located_report_omits_column :
  ~ exists column_of : list event -> option Z,
      forall stderr_content m,
        re_finditer (RT := ascii_runtime) _is_undefined_reference stderr_content = [] ->
        re_search (RT := ascii_runtime) _is_compile_error stderr_content = Some m ->
        column_of (emitted (handle_compile_error (RT := ascii_runtime) stderr_content None)
                     initial_state)
        = py_int (RT := ascii_runtime) (group m "column").
Proof.
  intros [column_of H].
  destruct (re_search (RT := ascii_runtime) _is_compile_error column_5) as [m5|] eqn:E5;
    [|vm_compute in E5; discriminate].
  destruct (re_search (RT := ascii_runtime) _is_compile_error column_7) as [m7|] eqn:E7;
    [|vm_compute in E7; discriminate].
  pose proof (H column_5 m5 eq_refl E5) as H5.
  pose proof (H column_7 m7 eq_refl E7) as H7.
  vm_compute in E5. injection E5 as <-. vm_compute in E7. injection E7 as <-.
  assert (Hsame : emitted (handle_compile_error (RT := ascii_runtime) column_5 None) initial_state
                = emitted (handle_compile_error (RT := ascii_runtime) column_7 None) initial_state)
    by (vm_compute; reflexivity).
  rewrite Hsame, H7 in H5. vm_compute in H5. discriminate.
Qed.

(** Of two compiler errors the first is reported, at its line 12. *)
Lemma first_compile_error_witness :
  exists row msg,
    handle_compile_error (RT := ascii_runtime) sample_compile_error None initial_state =
      (Ok tt, add_log initial_state (located_error_report row msg)) /\
    row = 12%Z /\ msg = u "expected ;".
Proof.
  assert (Hu : ~ Contains (RT := ascii_runtime) _is_undefined_reference sample_compile_error)
    by (apply re_search_not_contains; vm_compute; reflexivity).
  assert (Hc : Contains (RT := ascii_runtime) _is_compile_error sample_compile_error).
  { destruct (re_search (RT := ascii_runtime) _is_compile_error sample_compile_error)
      as [m|] eqn:E; [exact (re_search_contains _ _ _ E) | vm_compute in E; discriminate]. }
  destruct (first_compile_error_located (RT := ascii_runtime)
              sample_compile_error None initial_state Hu Hc)
    as (pre & path & line & col & msg & post & _ & _ & Hshort & Hlong).
  destruct (Nat.le_gt_cases (length line) int_max_str_digits) as [Hle|Hgt].
  - destruct (Hshort Hle) as (row & _ & Hrun).
    exists row, msg. split; [exact Hrun|].
    vm_compute in Hrun. inversion Hrun; subst. split; reflexivity.
  - exfalso. specialize (Hlong Hgt). vm_compute in Hlong. discriminate Hlong.
Defined.

(** A text of neither kind comes back from its block quote. *)
Lemma unmatched_output_witness :
  exists quoted,
    handle_compile_error (RT := ascii_runtime) sample_unknown_error (Some 2%Z) initial_state =
      (Ok tt, add_log initial_state (fallback_report (Some 2%Z) quoted)) /\
    unquote_block quoted = sample_unknown_error.
Proof.
  apply (unmatched_output_falls_back (RT := ascii_runtime)).
  - apply re_search_not_contains. vm_compute. reflexivity.
  - apply re_search_not_contains. vm_compute. reflexivity.
Defined.

(** ** Counters *)

Lemma counter_get_iadd a b key :
  counter_get (counter_iadd a b) key =
  (if (0 <? counter_get a key + counter_get b key)%Z
   then counter_get a key + counter_get b key else 0)%Z.
Proof.
  unfold counter_get, counter_iadd.
  destruct (union_with (fun x y => Some (x + y)%Z) a b !! key) as [v|] eqn:E.
  - assert (Hv : v = (default 0 (a !! key) + default 0 (b !! key))%Z).
    { rewrite lookup_union_with in E.
      destruct (a !! key), (b !! key); simpl in *; inversion E; lia. }
    destruct (decide (0 < v)%Z) as [Hpos|Hneg].
    + rewrite (map_lookup_filter_Some_2 _ _ key v E Hpos). simpl. subst v.
      apply Z.ltb_lt in Hpos. rewrite Hpos. reflexivity.
    + rewrite map_lookup_filter_None_2; [|right; intros x Hx; simpl; congruence].
      simpl. subst v. destruct (Z.ltb_spec 0 (default 0 (a !! key) + default 0 (b !! key)))%Z;
        [contradiction | reflexivity].
  - rewrite map_lookup_filter_None_2 by (left; exact E).
    rewrite lookup_union_with in E.
    destruct (a !! key), (b !! key); simpl in *; try discriminate. reflexivity.
Qed.

Lemma counter_get_iadd_nonneg a b key :
  counter_nonneg a -> counter_nonneg b ->
  counter_get (counter_iadd a b) key = (counter_get a key + counter_get b key)%Z.
Proof.
  intros Ha Hb. rewrite counter_get_iadd. specialize (Ha key). specialize (Hb key).
  destruct (Z.ltb_spec 0 (counter_get a key + counter_get b key))%Z; lia.
Qed.

Lemma counter_iadd_nonneg a b :
  counter_nonneg a -> counter_nonneg b -> counter_nonneg (counter_iadd a b).
Proof.
  intros Ha Hb key. rewrite counter_get_iadd_nonneg by assumption.
  specialize (Ha key). specialize (Hb key). lia.
Qed.

Lemma counter_iadd_comm a b : counter_iadd a b = counter_iadd b a.
Proof.
  unfold counter_iadd. f_equal. apply map_eq. intros key.
  rewrite !lookup_union_with. destruct (a !! key), (b !! key); simpl; f_equal; lia.
Qed.

Lemma counter_empty_inv : counter_inv Counter_empty.
Proof.
  split; [intros key|]; unfold counter_get, Counter_empty; rewrite ?lookup_empty; simpl; lia.
Qed.

Lemma counter_get_of correct total key :
  counter_get (Counter_of correct total) key =
  if decide (key = u "correct") then correct
  else if decide (key = u "total") then total else 0%Z.
Proof.
  unfold counter_get, Counter_of.
  destruct (decide (key = u "correct")) as [->|Hc].
  - rewrite lookup_insert_eq. reflexivity.
  - rewrite lookup_insert_ne by congruence.
    destruct (decide (key = u "total")) as [->|Ht].
    + rewrite lookup_insert_eq. reflexivity.
    + rewrite lookup_insert_ne by congruence. rewrite lookup_empty. reflexivity.
Qed.

Lemma counter_of_inv correct total :
  (0 <= correct <= total)%Z -> counter_inv (Counter_of correct total).
Proof.
  intros H. split.
  - intros key. rewrite counter_get_of. repeat destruct (decide _); lia.
  - rewrite !counter_get_of. simpl. lia.
Qed.

Lemma counter_iadd_inv a b : counter_inv a -> counter_inv b -> counter_inv (counter_iadd a b).
Proof.
  intros [Ha Ha'] [Hb Hb']. split; [apply counter_iadd_nonneg; assumption|].
  rewrite !counter_get_iadd_nonneg by assumption. lia.
Qed.

Lemma counter_iadd_assoc a b c :
  counter_nonneg a -> counter_nonneg b -> counter_nonneg c ->
  counter_iadd (counter_iadd a b) c = counter_iadd a (counter_iadd b c).
Proof.
  intros Ha Hb Hc. apply map_eq. intros key.
  assert (Hget : forall x y : gmap str Z,
             counter_get x key = counter_get y key ->
             (forall v, x !! key = Some v -> 0 < v)%Z ->
             (forall v, y !! key = Some v -> 0 < v)%Z -> x !! key = y !! key).
  { unfold counter_get. intros x y Hxy Hx Hy.
    destruct (x !! key) as [vx|] eqn:Ex, (y !! key) as [vy|] eqn:Ey; simpl in *.
    - congruence.
    - specialize (Hx _ eq_refl). lia.
    - specialize (Hy _ eq_refl). lia.
    - reflexivity. }
  apply Hget.
  - rewrite !counter_get_iadd_nonneg; auto using counter_iadd_nonneg. lia.
  - intros v Hv. apply map_lookup_filter_Some in Hv. apply Hv.
  - intros v Hv. apply map_lookup_filter_Some in Hv. apply Hv.
Qed.

#[local] Set Warnings "-clear-no-such-hyp".

(** ** judge.py: the single-test evaluator *)

Lemma read_text_run w p strict st :
  read_text w p strict st =
  (match lookup_path (fs w) p with
   | Some (File text utf8) => if strict && negb utf8 then Raise UnicodeDecodeError else Ok text
   | Some (Dir _) => Raise IsADirectoryError
   | None => Raise FileNotFoundError
   end, add_log st [Open p]).
Proof.
  unfold read_text. rewrite (bind_run _ _ _ _ _ (emit_run _ _)).
  destruct (lookup_path (fs w) p) as [[text utf8|es]|]; try reflexivity.
  destruct (strict && negb utf8); reflexivity.
Qed.

(** The block of [_test_run_helper] that owns the temporary file. *)
Lemma lit_block_run w target {B} (k : Z * lit_test -> M B) st :
  (tmp <- NamedTemporaryFile ;;
   run <- try_finally
            (proc_rec <- subprocess_run_lit w target tmp ;;
             lit_output_json <- json_load_tests0 tmp proc_rec.2 ;;
             ret (proc_rec.1, lit_output_json))
            (os_remove tmp) ;;
   k run) st =
  let tmp := fresh (tmp_files st) in
  match lit w target with
  | LitNotFound =>
      (Raise FileNotFoundError, add_log st [MkTemp tmp; Lit target tmp; Remove tmp])
  | LitExit rc None =>
      (Raise JSONDecodeError,
       add_log st [MkTemp tmp; Lit target tmp; OpenTemp tmp; Remove tmp])
  | LitExit rc (Some t) =>
      k (rc, t) (add_log st [MkTemp tmp; Lit target tmp; OpenTemp tmp; Remove tmp])
  end.
Proof.
  assert (Hfresh : ({[fresh (tmp_files st)]} ∪ tmp_files st) ∖ {[fresh (tmp_files st)]}
                   = tmp_files st).
  { pose proof (is_fresh (tmp_files st)). set_solver. }
  assert (Hin : fresh (tmp_files st) ∈ ({[fresh (tmp_files st)]} ∪ tmp_files st : gset N))
    by set_solver.
  unfold bind at 1, NamedTemporaryFile at 1. cbn zeta.
  unfold try_finally, bind, subprocess_run_lit, json_load_tests0, os_remove, emit, bind,
    of_option, ret, raise, add_log. simpl.
  destruct (lit w target) as [|rc [t|]]; simpl;
    (destruct (decide _) as [_|Hn]; [|contradiction]); simpl;
    rewrite Hfresh, <- ?app_assoc; reflexivity.
Qed.

Lemma opt_read_run w p st :
  exists r,
    (if path_exists w p then read_text w p false else ret []) st =
    (r, add_log st (opt_read_events w p)).
Proof.
  unfold opt_read_events. destruct (path_exists w p).
  - rewrite read_text_run. eauto.
  - exists (Ok []). unfold ret. rewrite add_log_nil. reflexivity.
Qed.

(** Reading an expectation file fails on a directory only; a missing file
    reads as the empty text. *)
Lemma opt_read_result w p st :
  (if path_exists w p then read_text w p false else ret []) st =
  (match lookup_path (fs w) p with
   | Some (Dir _) => Raise IsADirectoryError
   | _ => Ok (text_at w p)
   end, add_log st (opt_read_events w p)).
Proof.
  unfold opt_read_events, text_at, path_exists.
  destruct (lookup_path (fs w) p) as [[text utf|es]|] eqn:E.
  - rewrite read_text_run, E. reflexivity.
  - rewrite read_text_run, E. reflexivity.
  - unfold ret. rewrite add_log_nil. reflexivity.
Qed.

Lemma opt_read_ok w p st :
  is_dir w p = false ->
  (if path_exists w p then read_text w p false else ret []) st =
  (Ok (text_at w p), add_log st (opt_read_events w p)).
Proof.
  intros Hd. rewrite opt_read_result. unfold is_dir in Hd.
  destruct (lookup_path (fs w) p) as [[text utf|es]|]; [reflexivity | discriminate | reflexivity].
Qed.

Lemma opt_read_dir w p st :
  is_dir w p = true ->
  (if path_exists w p then read_text w p false else ret []) st =
  (Raise IsADirectoryError, add_log st [Open p]).
Proof.
  intros Hd. rewrite opt_read_result. unfold opt_read_events, path_exists.
  unfold is_dir in Hd.
  destruct (lookup_path (fs w) p) as [[text utf|es]|]; [discriminate | reflexivity | discriminate].
Qed.

Lemma opt_read_events_open w p : Forall is_open (opt_read_events w p).
Proof.
  unfold opt_read_events. destruct (path_exists w p); repeat constructor. eexists; reflexivity.
Qed.

Lemma get_test_output_files_run src eval build rel st :
  relative_to src eval = Some rel ->
  get_test_output_files src eval build st =
  (Ok (build ++ [u "test"] ++ path_parent rel ++ [u "Output"]
         ++ [path_name src ++ u ".tmp.stdout"],
       build ++ [u "test"] ++ path_parent rel ++ [u "Output"]
         ++ [path_name src ++ u ".tmp.stderr"]), st).
Proof.
  intros H. unfold get_test_output_files. rewrite H. unfold of_option, bind, ret.
  rewrite <- !app_assoc. reflexivity.
Qed.


(** What [_test_run_helper] does, step by step: it reads the expectation
    files that exist, and unless that or the path arithmetic fails, it
    creates the temporary file, runs the tool on the target of the fixture,
    reads the report and removes the file, whatever the tool and the report
    did; then it reads at most the two files of generated output. *)
Lemma _test_run_helper_trace w src eo ee eval build st :
  exists r evs,
    _test_run_helper w src eo ee eval build st = (r, add_log st evs) /\
    ((Forall is_open evs /\ exists e, r = Raise e) \/
     exists reads rel mid post,
       let tmp := fresh (tmp_files st) in
       let target := build ++ [u "test"] ++ rel in
       relative_to src eval = Some rel /\
       evs = reads ++ [MkTemp tmp; Lit target tmp] ++ mid ++ [Remove tmp] ++ post /\
       (tmp ∉ tmp_files st) /\
       Forall is_open reads /\
       (mid = [OpenTemp tmp] \/ mid = [] /\ exists e, r = Raise e) /\
       Forall is_open post).
Proof.
  unfold _test_run_helper.
  destruct (opt_read_run w eo st) as [r1 H1]. rewrite (bind_run _ _ _ _ _ H1).
  pose proof (opt_read_events_open w eo) as O1.
  destruct r1 as [expected_output|e]; [|eexists _, _; split; [reflexivity|left; eauto]].
  destruct (opt_read_run w ee (add_log st (opt_read_events w eo))) as [r2 H2].
  rewrite (bind_run _ _ _ _ _ H2), add_log_app.
  pose proof (opt_read_events_open w ee) as O2.
  assert (O12 : Forall is_open (opt_read_events w eo ++ opt_read_events w ee))
    by (apply Forall_app; auto).
  destruct r2 as [expected_error|e]; [|eexists _, _; split; [reflexivity|left; eauto]].
  rewrite (bind_run _ _ _ _ _ (of_option_run _ _ _)).
  destruct (relative_to src eval) as [rel|] eqn:Hrel;
    [|eexists _, _; split; [reflexivity|left; eauto]].
  rewrite lit_block_run. cbn zeta.
  set (reads := opt_read_events w eo ++ opt_read_events w ee) in *.
  set (target := build ++ [u "test"] ++ rel).
  assert (Hfr : fresh (tmp_files st) ∉ tmp_files st) by apply is_fresh.
  change (tmp_files (add_log st reads)) with (tmp_files st).
  set (tmp := fresh (tmp_files st)) in *.
  destruct (lit w target) as [|rc [t|]].
  - rewrite add_log_app. eexists _, _. split; [reflexivity|]. right.
    exists reads, rel, [], []. cbn zeta. repeat split; eauto.
  - rewrite add_log_app.
    assert (Hdone : forall (r : result outcome) post,
      Forall is_open post ->
      exists r' evs,
        (r, add_log st ((reads ++ [MkTemp tmp; Lit target tmp; OpenTemp tmp; Remove tmp]) ++ post))
        = (r', add_log st evs) /\
        ((Forall is_open evs /\ exists e, r' = Raise e) \/
         exists reads0 rel0 mid post0,
           Some rel = Some rel0 /\
           evs = reads0 ++ [MkTemp tmp; Lit (build ++ [u "test"] ++ rel0) tmp] ++ mid
                        ++ [Remove tmp] ++ post0 /\
           (tmp ∉ tmp_files st) /\ Forall is_open reads0 /\
           (mid = [OpenTemp tmp] \/ mid = [] /\ exists e, r' = Raise e) /\
           Forall is_open post0)).
    { intros r post Hpost. eexists _, _. split; [reflexivity|]. right.
      exists reads, rel, [OpenTemp tmp], post. rewrite <- !app_assoc. simpl. auto 10. }
    cbn [fst snd].
    rewrite (bind_run _ _ _ _ _ (of_option_run _ _ _)).
    destruct (code t) as [test_status|];
      [|rewrite <- (app_nil_r (_ ++ [_; _; _; _])); apply Hdone; constructor].
    rewrite (bind_run _ _ _ _ _ (of_option_run _ _ _)).
    destruct (elapsed t) as [test_duration|];
      [|rewrite <- (app_nil_r (_ ++ [_; _; _; _])); apply Hdone; constructor].
    destruct (endswith (path_name target) (u ".custom.c")).
    { unfold ret. rewrite <- (app_nil_r (_ ++ [_; _; _; _])). apply Hdone. constructor. }
    rewrite (bind_run _ _ _ _ _ (get_test_output_files_run _ _ _ _ _ Hrel)).
    rewrite (bind_run _ _ _ _ _ (read_text_run _ _ _ _)), add_log_app.
    match goal with |- context [Open ?p] => set (gen_out := p) end.
    assert (Oo : is_open (Open gen_out)) by (eexists; reflexivity).
    destruct (lookup_path (fs w) gen_out) as [[text1 utf1|es1]|];
      [|apply Hdone; repeat constructor; exact Oo|apply Hdone; repeat constructor; exact Oo].
    cbn [andb].
    rewrite (bind_run _ _ _ _ _ (read_text_run _ _ _ _)), add_log_app, <- app_assoc.
    match goal with |- context [[Open gen_out] ++ [Open ?p]] => set (gen_err := p) end.
    assert (Oe : is_open (Open gen_err)) by (eexists; reflexivity).
    destruct (lookup_path (fs w) gen_err) as [[text2 utf2|es2]|];
      apply Hdone; repeat constructor; assumption.
  - rewrite add_log_app. eexists _, _. split; [reflexivity|]. right.
    exists reads, rel, [OpenTemp tmp], []. cbn zeta. repeat split; eauto.
Qed.

(** A run that has come to the block of the temporary file. *)
Ltac steps_leaf rel post Hlit :=
  eexists _, _; split; [reflexivity|];
  right; right; right; exists rel, post; cbn zeta; rewrite Hlit;
  try match goal with H : code _ = _ |- _ => rewrite H end;
  try match goal with H : elapsed _ = _ |- _ => rewrite H end;
  split; [reflexivity|]; split; [reflexivity|]; split; [reflexivity|];
  split; [rewrite <- ?app_assoc; reflexivity|].

(** The steps of [_test_run_helper]: the two expectation files, the path
    of the target, the block that owns the temporary file, and for a custom
    fixture the outcome. *)
Lemma _test_run_helper_steps w src eo ee eval build st :
  exists r evs,
    _test_run_helper w src eo ee eval build st = (r, add_log st evs) /\
    ((is_dir w eo = true /\ evs = [Open eo] /\ r = Raise IsADirectoryError) \/
     (is_dir w eo = false /\ is_dir w ee = true /\
      evs = opt_read_events w eo ++ [Open ee] /\ r = Raise IsADirectoryError) \/
     (is_dir w eo = false /\ is_dir w ee = false /\ relative_to src eval = None /\
      evs = opt_read_events w eo ++ opt_read_events w ee /\ r = Raise ValueError) \/
     (exists rel post,
        let tmp := fresh (tmp_files st) in
        let target := build ++ [u "test"] ++ rel in
        is_dir w eo = false /\ is_dir w ee = false /\ relative_to src eval = Some rel /\
        evs = opt_read_events w eo ++ opt_read_events w ee ++
              [MkTemp tmp; Lit target tmp] ++
              match lit w target with
              | LitNotFound => []
              | LitExit _ _ => [OpenTemp tmp]
              end ++ [Remove tmp] ++ post /\
        Forall is_open post /\
        match lit w target with
        | LitExit rc (Some t) =>
            match code t, elapsed t with
            | Some test_status, Some test_duration =>
                endswith (path_name target) (u ".custom.c") = true ->
                post = [] /\
                r = Ok {| correct := (rc =? 0)%Z;
                          o_status := test_status;
                          duration := test_duration;
                          expected_output := None;
                          expected_error := None;
                          generated_output := None;
                          generated_error := None |}
            | _, _ => post = [] /\ exists e, r = Raise e
            end
        | _ => post = [] /\ exists e, r = Raise e
        end)).
Proof.
  unfold _test_run_helper.
  destruct (is_dir w eo) eqn:Deo.
  { rewrite (bind_run _ _ _ _ _ (opt_read_dir w eo st Deo)).
    eexists _, _. split; [reflexivity|]. left. auto. }
  rewrite (bind_run _ _ _ _ _ (opt_read_ok w eo st Deo)).
  destruct (is_dir w ee) eqn:Dee.
  { rewrite (bind_run _ _ _ _ _ (opt_read_dir w ee _ Dee)), add_log_app.
    eexists _, _. split; [reflexivity|]. right. left. auto. }
  rewrite (bind_run _ _ _ _ _ (opt_read_ok w ee _ Dee)), add_log_app.
  rewrite (bind_run _ _ _ _ _ (of_option_run _ _ _)).
  destruct (relative_to src eval) as [rel|] eqn:Hrel.
  2:{ eexists _, _. split; [reflexivity|]. right. right. left. auto. }
  rewrite lit_block_run. cbn zeta.
  change (tmp_files (add_log st (opt_read_events w eo ++ opt_read_events w ee)))
    with (tmp_files st).
  destruct (lit w (build ++ [u "test"] ++ rel)) as [|rc [t|]] eqn:Hlit.
  - rewrite add_log_app. steps_leaf rel (@nil event) Hlit. split; [constructor | eauto].
  - rewrite add_log_app. cbn [fst snd].
    rewrite (bind_run _ _ _ _ _ (of_option_run _ _ _)).
    destruct (code t) as [test_status|] eqn:Hcode;
      [|steps_leaf rel (@nil event) Hlit; split; [constructor | eauto]].
    rewrite (bind_run _ _ _ _ _ (of_option_run _ _ _)).
    destruct (elapsed t) as [test_duration|] eqn:Hel;
      [|steps_leaf rel (@nil event) Hlit; split; [constructor | eauto]].
    destruct (endswith (path_name (build ++ [u "test"] ++ rel)) (u ".custom.c")) eqn:Hc.
    { unfold ret. steps_leaf rel (@nil event) Hlit. split; [constructor | auto]. }
    rewrite (bind_run _ _ _ _ _ (get_test_output_files_run _ _ _ _ _ Hrel)).
    rewrite (bind_run _ _ _ _ _ (read_text_run _ _ _ _)), add_log_app.
    match goal with |- context [Open ?p] => set (gen_out := p) end.
    assert (Oo : is_open (Open gen_out)) by (eexists; reflexivity).
    destruct (lookup_path (fs w) gen_out) as [[text1 utf1|es1]|];
      [|steps_leaf rel (Open gen_out :: nil) Hlit; split; [repeat constructor; exact Oo | congruence]
       |steps_leaf rel (Open gen_out :: nil) Hlit; split; [repeat constructor; exact Oo | congruence]].
    cbn [andb].
    rewrite (bind_run _ _ _ _ _ (read_text_run _ _ _ _)), add_log_app, <- app_assoc.
    match goal with |- context [[Open gen_out] ++ [Open ?p]] => set (gen_err := p) end.
    assert (Oe : is_open (Open gen_err)) by (eexists; reflexivity).
    destruct (lookup_path (fs w) gen_err) as [[text2 utf2|es2]|];
      (steps_leaf rel (Open gen_out :: Open gen_err :: nil) Hlit;
       split; [repeat constructor; assumption | congruence]).
  - rewrite add_log_app. steps_leaf rel (@nil event) Hlit. split; [constructor | eauto].
Qed.

(** C9. [_test_run_helper] creates the temporary file when it has read the
    expectation files (neither path is a directory) and the fixture lies
    below the evaluation folder, and only then. The file is created right
    before the tool is invoked with it, and it is removed on every path on
    from there: when the tool cannot be started, when its report cannot be
    read, and when both succeed. It is created once and removed once, and
    the set of temporary files after the call is the one before it. *)
Theorem temporary_file_removed w src eo ee eval build st :
  exists r evs,
    _test_run_helper w src eo ee eval build st = (r, add_log st evs) /\
    (forall rel,
        is_dir w eo = false -> is_dir w ee = false -> relative_to src eval = Some rel ->
        let tmp := fresh (tmp_files st) in
        let target := build ++ [u "test"] ++ rel in
        (tmp ∉ tmp_files st) /\
        exists post,
          evs = opt_read_events w eo ++ opt_read_events w ee ++
                [MkTemp tmp; Lit target tmp] ++
                match lit w target with
                | LitNotFound => []
                | LitExit _ _ => [OpenTemp tmp]
                end ++ [Remove tmp] ++ post /\
          Forall is_open post /\
          match lit w target with
          | LitExit _ (Some _) => True
          | _ => post = [] /\ exists e, r = Raise e
          end) /\
    (is_dir w eo = true \/ is_dir w ee = true \/ relative_to src eval = None ->
     Forall is_open evs /\ exists e, r = Raise e).
Proof.
  destruct (_test_run_helper_steps w src eo ee eval build st) as (r & evs & Hrun & Hsteps).
  exists r, evs. split; [exact Hrun|].
  assert (Oeo : Forall is_open (opt_read_events w eo)) by apply opt_read_events_open.
  assert (Oee : Forall is_open (opt_read_events w ee)) by apply opt_read_events_open.
  destruct Hsteps as [(Deo & -> & ->)
                     |[(Deo & Dee & -> & ->)
                     |[(Deo & Dee & Hrel & -> & ->)
                     |(rel & post & Deo & Dee & Hrel & -> & Hpost & Hres)]]].
  - split; [intros; congruence|]. intros _.
    split; [repeat constructor; eexists; reflexivity | eauto].
  - split; [intros; congruence|]. intros _.
    split; [|eauto]. apply Forall_app. split; [exact Oeo|].
    repeat constructor. eexists; reflexivity.
  - split; [intros; congruence|]. intros _.
    split; [apply Forall_app; auto | eauto].
  - split; [|intros [H|[H|H]]; congruence].
    intros rel' _ _ Hrel'. assert (rel' = rel) by congruence. subst rel'. cbn zeta.
    split; [apply is_fresh|]. exists post. split; [reflexivity|]. split; [exact Hpost|].
    destruct (lit w (build ++ [u "test"] ++ rel)) as [|rc [t|]]; [exact Hres | exact I | exact Hres].
Qed.

(** The fixture [a.c] of the sample: its expected output is read, the
    temporary file is created, handed to the tool, read and removed, and
    only files are opened after that. *)
Lemma temporary_file_witness :
  exists r post,
    let tmp := fresh (tmp_files initial_state) in
    _test_run_helper sample_world (sample_test_case ++ [u "a.c"])
      (sample_test_case ++ [u "a.c.stdout"]) (sample_test_case ++ [u "a.c.stderr"])
      sample_evaluation sample_build initial_state =
    (r, add_log initial_state
          ([Open (sample_test_case ++ [u "a.c.stdout"]);
            MkTemp tmp;
            Lit (sample_build ++ [u "test"; u "literals"; u "numeric"; u "integers"; u "a.c"]) tmp;
            OpenTemp tmp; Remove tmp] ++ post)) /\
    Forall is_open post.
Proof.
  destruct (temporary_file_removed sample_world (sample_test_case ++ [u "a.c"])
              (sample_test_case ++ [u "a.c.stdout"]) (sample_test_case ++ [u "a.c.stderr"])
              sample_evaluation sample_build initial_state)
    as (r & evs & Hrun & Hcreated & _).
  destruct (Hcreated [u "literals"; u "numeric"; u "integers"; u "a.c"]
              eq_refl eq_refl eq_refl) as (_ & post & Hevs & Hpost & _).
  exists r, post. cbn zeta. split; [|exact Hpost].
  rewrite Hrun, Hevs. reflexivity.
Defined.

Lemma in_opt_read_events w p q :
  In (Open p) (opt_read_events w q) <-> p = q /\ path_exists w q = true.
Proof.
  unfold opt_read_events. destruct (path_exists w q); simpl.
  - split; [intros [H|[]]; injection H as ->; auto | intros [-> _]; auto].
  - split; [intros [] | intros [_ H]; discriminate].
Qed.

Lemma is_dir_exists w p : is_dir w p = true -> path_exists w p = true.
Proof.
  unfold is_dir, path_exists. destruct (lookup_path (fs w) p) as [[|]|]; auto.
Qed.

(** C4, amended. For a fixture whose name ends with [.custom.c] (a file
    below the evaluation folder), [_test_run_helper] opens no file of
    generated output. It does open the expectation files, whose text it
    drops: the expected-output path when it exists, and the expected-error
    path when it exists and the expected-output path is not a directory
    (opening a directory fails, and the second path is never looked at);
    these are the only files it opens. When it returns, the four text
    fields of the outcome are null and [correct] says whether the tool
    exited with code 0; and it does return, with the status and the
    duration of the tool's report, when neither expectation path is a
    directory and the tool left a report that holds both. *)
Theorem custom_fixture_outcome w src eo ee eval build st rel :
  relative_to src eval = Some rel -> rel <> [] ->
  endswith (path_name src) (u ".custom.c") = true ->
  exists r evs,
    _test_run_helper w src eo ee eval build st = (r, add_log st evs) /\
    (forall p, In (Open p) evs <->
       (p = eo /\ path_exists w eo = true) \/
       (p = ee /\ path_exists w ee = true /\ is_dir w eo = false)) /\
    (forall o, r = Ok o ->
       expected_output o = None /\ expected_error o = None /\
       generated_output o = None /\ generated_error o = None /\
       exists returncode report,
         lit w (build ++ [u "test"] ++ rel) = LitExit returncode report /\
         correct o = (returncode =? 0)%Z) /\
    (forall returncode t test_status test_duration,
       is_dir w eo = false -> is_dir w ee = false ->
       lit w (build ++ [u "test"] ++ rel) = LitExit returncode (Some t) ->
       code t = Some test_status -> elapsed t = Some test_duration ->
       r = Ok {| correct := (returncode =? 0)%Z;
                 o_status := test_status;
                 duration := test_duration;
                 expected_output := None;
                 expected_error := None;
                 generated_output := None;
                 generated_error := None |}).
Proof.
  intros Hrel Hne Hcustom.
  assert (Hname : endswith (path_name (build ++ [u "test"] ++ rel)) (u ".custom.c") = true).
  { rewrite app_assoc, (path_name_app _ rel Hne).
    rewrite (relative_to_Some _ _ _ Hrel), (path_name_app _ rel Hne) in Hcustom. exact Hcustom. }
  destruct (_test_run_helper_steps w src eo ee eval build st) as (r & evs & Hrun & Hsteps).
  exists r, evs. split; [exact Hrun|].
  destruct Hsteps as [(Deo & -> & ->)
                     |[(Deo & Dee & -> & ->)
                     |[(Deo & Dee & Hrel' & -> & ->)
                     |(rel' & post & Deo & Dee & Hrel' & -> & Hpost & Hres)]]].
  - split; [|split; [discriminate | intros; congruence]].
    intros p. simpl. split.
    + intros [H|[]]. injection H as <-. left. split; [reflexivity | apply is_dir_exists; exact Deo].
    + intros [[-> _]|(_ & _ & H)]; [auto | congruence].
  - split; [|split; [discriminate | intros; congruence]].
    intros p. rewrite in_app_iff, in_opt_read_events. simpl. split.
    + intros [H|[H|[]]]; [left; exact H|]. injection H as <-. right.
      split; [reflexivity|]. split; [apply is_dir_exists; exact Dee | exact Deo].
    + intros [H|(-> & _)]; auto.
  - congruence.
  - assert (rel' = rel) by congruence. subst rel'. cbn zeta in *.
    assert (Hp : post = [] /\
                 (forall o, r = Ok o ->
                    exists returncode t test_status test_duration,
                      lit w (build ++ [u "test"] ++ rel) = LitExit returncode (Some t) /\
                      code t = Some test_status /\ elapsed t = Some test_duration /\
                      o = {| correct := (returncode =? 0)%Z;
                             o_status := test_status;
                             duration := test_duration;
                             expected_output := None;
                             expected_error := None;
                             generated_output := None;
                             generated_error := None |})).
    { destruct (lit w (build ++ [u "test"] ++ rel)) as [|rc [t|]].
      - destruct Hres as (-> & e & ->). split; [reflexivity | discriminate].
      - destruct (code t) as [test_status|] eqn:Hcode;
          [destruct (elapsed t) as [test_duration|] eqn:Hel|].
        + destruct (Hres Hname) as (-> & ->). split; [reflexivity|].
          intros o Ho. injection Ho as <-. exists rc, t, test_status, test_duration. auto.
        + destruct Hres as (-> & e & ->). split; [reflexivity | discriminate].
        + destruct Hres as (-> & e & ->). split; [reflexivity | discriminate].
      - destruct Hres as (-> & e & ->). split; [reflexivity | discriminate]. }
    destruct Hp as (-> & Hok).
    split; [|split].
    + intros p. rewrite !in_app_iff, !in_opt_read_events.
      assert (Hrest : ~ In (Open p)
                ([MkTemp (fresh (tmp_files st));
                  Lit (build ++ [u "test"] ++ rel) (fresh (tmp_files st))] ++
                 match lit w (build ++ [u "test"] ++ rel) with
                 | LitNotFound => []
                 | LitExit _ _ => [OpenTemp (fresh (tmp_files st))]
                 end ++ [Remove (fresh (tmp_files st))] ++ [])).
      { destruct (lit w (build ++ [u "test"] ++ rel)); simpl; intuition discriminate. }
      rewrite !in_app_iff in Hrest. tauto.
    + intros o Ho.
      destruct (Hok o Ho) as (rc & t & test_status & test_duration & Hlit & _ & _ & ->).
      simpl. repeat split. eauto.
    + intros rc t test_status test_duration _ _ Hlit Hcode Hel.
      rewrite Hlit, Hcode, Hel in Hres. destruct (Hres Hname) as (_ & ->). reflexivity.
Qed.

(** The claim C4 as it is worded fails: the expected-output file of a custom
    fixture is opened (and the run ends well, with a verdict). *)
Lemma custom_fixture_reads_expected :
  endswith (path_name sample_custom) (u ".custom.c") = true /\
  exists o st',
    _test_run_helper sample_world sample_custom sample_custom_stdout sample_custom_stderr
      sample_evaluation sample_build initial_state = (Ok o, st') /\
    In (Open sample_custom_stdout) (log st').
Proof.
  split; [reflexivity|]. eexists _, _. split; [vm_compute; reflexivity|].
  simpl. auto.
Qed.

(** The custom fixture of the sample: only its expected-output file is
    opened, and its verdict is the tool's exit code 1. *)
Lemma custom_fixture_witness :
  exists r evs,
    _test_run_helper sample_world sample_custom sample_custom_stdout sample_custom_stderr
      sample_evaluation sample_build initial_state = (r, add_log initial_state evs) /\
    (forall p, In (Open p) evs <-> p = sample_custom_stdout) /\
    (exists o, r = Ok o /\ generated_output o = None /\ correct o = false).
Proof.
  destruct (custom_fixture_outcome sample_world sample_custom sample_custom_stdout
              sample_custom_stderr sample_evaluation sample_build initial_state
              [u "literals"; u "numeric"; u "integers"; u "t.custom.c"])
    as (r & evs & Hrun & Hopen & _ & Hret);
    [reflexivity | discriminate | reflexivity |].
  exists r, evs. split; [exact Hrun|]. split.
  - intros p. rewrite Hopen. split.
    + intros [[-> _]|(_ & He & _)]; [reflexivity | discriminate He].
    + intros ->. left. split; reflexivity.
  - eexists. split; [|split].
    + eapply Hret; reflexivity.
    + reflexivity.
    + reflexivity.
Defined.

(** ** judge.py: [run_test] *)

Lemma warn_unexpected_error_run error_message st :
  warn_unexpected_error error_message st =
  (Ok tt, add_log st [Start (unexpected_error_message error_message);
                      Close (unexpected_error_message error_message) []]).
Proof. apply with_ret. Qed.

Lemma warn_timeout_run duration st :
  warn_timeout duration st =
  (Ok tt, add_log st [Start (timeout_message duration); Close (timeout_message duration) []]).
Proof. apply with_ret. Qed.

(** A quoted text starts with the quote prefix and the start of its first
    line. *)
Lemma block_quote_prefix p s :
  no_newline p -> exists rest, block_quote (p ++ s) = u "> " ++ p ++ rest.
Proof.
  intros Hp. unfold block_quote.
  assert (H : exists l ls, split_nl (p ++ s) = (p ++ l) :: ls).
  { induction Hp as [|c p Hc _ IH]; simpl.
    - pose proof (split_nl_nonempty s). destruct (split_nl s) as [|l ls]; [contradiction|].
      eauto.
    - apply N.eqb_neq in Hc. rewrite Hc. destruct IH as (l & ls & ->). eauto. }
  destruct H as (l & ls & ->). destruct ls as [|l' ls].
  - exists l. reflexivity.
  - exists (l ++ nl ++ join nl (map (fun l0 => u "> " ++ l0) (l' :: ls))).
    cbn [map]. rewrite join_cons, <- !app_assoc. reflexivity.
Qed.

Lemma warnings_differ error_message duration :
  unexpected_error_message error_message <> timeout_message duration.
Proof.
  set (a := u " **Your solution threw an unexpected error:**" ++ nl ++
            u "```" ++ nl ++ error_message ++ nl ++ u "```").
  set (b := u "&#65039;" ++ u " **Your solution timed out:** it took more than " ++
            format_1f duration ++ u " s").
  change (Message (block_quote (u "&#9889;" ++ a)) MARKDOWN None <>
          Message (block_quote (u "&#9201;" ++ b)) MARKDOWN None).
  destruct (block_quote_prefix (u "&#9889;") a) as [r1 ->];
    [repeat constructor; discriminate|].
  destruct (block_quote_prefix (u "&#9201;") b) as [r2 ->];
    [repeat constructor; discriminate|].
  intros H. injection H as H. discriminate H.
Qed.

(** What [run_test] reports once the helper has returned: the fixture is
    read, and the test node holds at most one warning, the unexpected-error
    warning when it applies and the timeout warning otherwise. *)
Lemma run_test_report w src eo ee eval build st o st1 text rel :
  _test_run_helper w src eo ee eval build st = (Ok o, st1) ->
  lookup_path (fs w) src = Some (File text true) ->
  relative_to src eval = Some rel ->
  exists descr,
    let unexpected_error :=
      negb (truthy (expected_error o)) && truthy (generated_error o) in
    let test :=
      Test descr (if truthy (expected_error o) then expected_error o
                  else expected_output o) in
    run_test w src eo ee eval build st =
    (Ok (Counter_of (if correct o then 1 else 0) 1),
     add_log st1
       ([Open src; Start test] ++
        (if unexpected_error
         then [Start (unexpected_error_message (default [] (generated_error o)));
               Close (unexpected_error_message (default [] (generated_error o))) []]
         else if str_eqb (o_status o) (u "TIMEOUT")
         then [Start (timeout_message (duration o)); Close (timeout_message (duration o)) []]
         else []) ++
        [Close test
           [if correct o then _status_correct else _status_wrong;
            generated (if truthy (expected_error o) then generated_error o
                       else generated_output o)]])).
Proof.
  intros Hh Hsrc Hrel. eexists. cbn zeta. unfold run_test.
  rewrite (bind_run _ _ _ _ _ Hh).
  rewrite (bind_run _ _ _ _ _ (read_text_run _ _ _ _)), Hsrc. cbn [andb negb].
  rewrite (bind_run _ _ _ _ _ (of_option_run _ _ _)), Hrel.
  destruct (truthy (expected_error o)); cbn [negb andb].
  - destruct (str_eqb (o_status o) (u "TIMEOUT"));
      unfold with_attrs, warn_timeout, with_, with_attrs, bind, emit, ret, add_log;
      simpl; rewrite <- !app_assoc; reflexivity.
  - destruct (truthy (generated_error o)); [|destruct (str_eqb (o_status o) (u "TIMEOUT"))];
      unfold with_attrs, warn_timeout, warn_unexpected_error, with_, with_attrs, bind, emit,
        ret, add_log; simpl; rewrite <- !app_assoc; reflexivity.
Qed.

(** C1, amended. When the tool reports TIMEOUT and the generated error is
    not empty while the expected error is, the test node gets exactly one
    warning, and it is the unexpected-error warning: unexpected-error takes
    precedence over timeout, whose warning is not attached. *)
Theorem unexpected_error_precedes_timeout w src eo ee eval build st o st1 text rel g :
  _test_run_helper w src eo ee eval build st = (Ok o, st1) ->
  lookup_path (fs w) src = Some (File text true) ->
  relative_to src eval = Some rel ->
  o_status o = u "TIMEOUT" ->
  truthy (expected_error o) = false ->
  generated_error o = Some g -> g <> [] ->
  exists test attrs,
    run_test w src eo ee eval build st =
    (Ok (Counter_of (if correct o then 1 else 0) 1),
     add_log st1
       [Open src; Start test;
        Start (unexpected_error_message g); Close (unexpected_error_message g) [];
        Close test attrs]) /\
    unexpected_error_message g <> timeout_message (duration o).
Proof.
  intros Hh Hsrc Hrel Hst Hexp Hgen Hg.
  destruct (run_test_report _ _ _ _ _ _ _ _ _ _ _ Hh Hsrc Hrel) as [descr Hrun].
  cbn zeta in Hrun. rewrite Hexp, Hgen in Hrun.
  assert (Ht : truthy (Some g) = true) by (destruct g; [contradiction | reflexivity]).
  rewrite Ht in Hrun. cbn [negb andb default from_option id] in Hrun.
  eexists _, _. split; [exact Hrun | apply warnings_differ].
Qed.

(** The claim C1 as it is worded fails: the sample's [slow.c] times out and
    writes to its standard error with none expected, and its test node holds
    the unexpected-error warning and no timeout warning. *)
Lemma timeout_warning_not_attached :
  exists o st1,
    _test_run_helper sample_world sample_slow (sample_test_case ++ [u "slow.c.stdout"])
      (sample_test_case ++ [u "slow.c.stderr"]) sample_evaluation sample_build
      initial_state = (Ok o, st1) /\
    o_status o = u "TIMEOUT" /\
    expected_error o = Some [] /\ generated_error o = Some (u "segfault") /\
    attached_messages
      (emitted (run_test sample_world sample_slow (sample_test_case ++ [u "slow.c.stdout"])
                  (sample_test_case ++ [u "slow.c.stderr"]) sample_evaluation sample_build)
         initial_state)
    <> [timeout_message (duration o)].
Proof.
  eexists _, _. split; [vm_compute; reflexivity|].
  split; [reflexivity|]. split; [reflexivity|]. split; [reflexivity|].
  vm_compute. discriminate.
Qed.

(** The sample's [slow.c] gets the unexpected-error warning. *)
Lemma unexpected_error_witness :
  exists c st2,
    run_test sample_world sample_slow (sample_test_case ++ [u "slow.c.stdout"])
      (sample_test_case ++ [u "slow.c.stderr"]) sample_evaluation sample_build
      initial_state = (Ok c, st2) /\
    In (Start (unexpected_error_message (u "segfault"))) (log st2).
Proof.
  destruct (_test_run_helper sample_world sample_slow (sample_test_case ++ [u "slow.c.stdout"])
      (sample_test_case ++ [u "slow.c.stderr"]) sample_evaluation sample_build
      initial_state) as [[o|e] st1] eqn:Hh; [|vm_compute in Hh; discriminate Hh].
  assert (Ho : o_status o = u "TIMEOUT" /\ truthy (expected_error o) = false /\
               generated_error o = Some (u "segfault")).
  { vm_compute in Hh. injection Hh as <- _. repeat split. }
  destruct Ho as (H1 & H2 & H3).
  destruct (unexpected_error_precedes_timeout sample_world sample_slow _ _ _ _ _ o st1
              (u "int main() { for (;;); }")
              [u "literals"; u "numeric"; u "integers"; u "slow.c"] (u "segfault")
              Hh eq_refl eq_refl H1 H2 H3 ltac:(discriminate))
    as (test & attrs & Hrun & _).
  eexists _, _. split; [exact Hrun|]. cbn [log add_log]. apply in_app_iff. right.
  simpl. auto.
Defined.

(** ** judge.py: the group runners *)

Lemma helper_spec w src eo ee eval build st :
  spec (_test_run_helper w src eo ee eval build) st
    (helper_event eval build src) (fun _ => True).
Proof.
  assert (Hopen : forall evs, Forall is_open evs -> Forall (helper_event eval build src) evs).
  { intros evs. apply List.Forall_impl. intros e [p ->]. split; reflexivity. }
  destruct (_test_run_helper_trace w src eo ee eval build st) as (r & evs & Hrun & Hshape).
  exists r, evs. split; [exact Hrun|]. split; [|auto].
  destruct Hshape as [[Ho _]|(reads & rel & mid & post & Hrel & -> & _ & Hreads & Hmid & Hpost)];
    [auto|].
  apply Forall_app. split; [auto|]. apply Forall_app. split.
  - constructor; [split; reflexivity|]. constructor; [|constructor].
    split; [reflexivity|]. apply lit_source_target. exact Hrel.
  - apply Forall_app. split.
    + destruct Hmid as [->|[-> _]]; repeat constructor.
    + apply Forall_app. split; [repeat constructor | auto].
Qed.

Lemma spec_read_text w p strict st (Pe : event -> Prop) :
  Pe (Open p) -> spec (read_text w p strict) st Pe (fun _ => True).
Proof.
  intros H. eexists _, _. split; [apply read_text_run|].
  split; [repeat constructor; exact H | auto].
Qed.

Lemma run_test_spec w src eo ee eval build st :
  spec (run_test w src eo ee eval build) st (test_event eval build src)
    (fun c => exists b : bool, c = Counter_of (if b then 1 else 0) 1).
Proof.
  unfold run_test.
  eapply spec_bind.
  { eapply spec_weaken; [| |apply helper_spec]; [|intros a Ha; exact Ha].
    intros [] [Ht Hl]; try discriminate; simpl; auto. }
  intros o st1 _.
  eapply spec_bind; [apply spec_read_text; exact I|]. intros text st2 _.
  eapply spec_bind; [apply spec_of_option; intros; exact I|]. intros rel st3 _.
  destruct (if truthy (expected_error o)
            then (expected_error o, generated_error o, false)
            else (expected_output o, generated_output o, truthy (generated_error o)))
    as [[expected generated_] unexpected_error].
  eapply spec_bind with (Pa := fun _ => True).
  - apply spec_with_attrs with (Pattrs := fun _ => True); [exact I | exact I | intros; exact I|].
    intros st4. eapply spec_bind with (Pa := fun _ => True).
    + destruct unexpected_error; [|destruct (str_eqb (o_status o) (u "TIMEOUT"))].
      * eexists _, _. split; [apply warn_unexpected_error_run|].
        split; [repeat constructor | auto].
      * eexists _, _. split; [apply warn_timeout_run|].
        split; [repeat constructor | auto].
      * apply spec_ret. exact I.
    + intros _ st5 _. apply spec_ret. auto.
  - intros _ st4 _. apply spec_ret. exists (correct o). reflexivity.
Qed.

Lemma in_glob_c w folder src :
  In src (glob_c w folder) -> exists name, src = folder ++ [name] /\ is_c_name name = true.
Proof.
  unfold glob_c. intros H. apply in_map_iff in H. destruct H as ([name n] & <- & H).
  apply filter_In in H. destruct H as [_ H]. exists name. auto.
Qed.

Lemma in_glob_star w folder p :
  In p (glob_star w folder) -> exists name, p = folder ++ [name].
Proof.
  unfold glob_star. intros H. apply in_map_iff in H. destruct H as ([name n] & <- & _).
  exists name. reflexivity.
Qed.

Lemma counter_unit_inv (b : bool) : counter_inv (Counter_of (if b then 1 else 0) 1).
Proof. apply counter_of_inv. destruct b; lia. Qed.

Section Groups.
Context `{RT : PythonRuntime}.

Lemma run_test_case_spec w folder eval build st :
  spec (run_test_case w folder eval build) st (group_event eval build folder) counter_inv.
Proof.
  unfold run_test_case. apply spec_with; [exact I | reflexivity |]. intros st1.
  apply spec_for_each; [apply counter_empty_inv|].
  intros src res st2 Hin Hres. destruct (in_glob_c _ _ _ Hin) as (name & -> & Hname).
  eapply spec_bind.
  - eapply spec_weaken; [| |apply run_test_spec]; [|intros a Ha; exact Ha].
    intros [[]|[] attrs| | | | |] He; simpl in *; auto; try contradiction. eauto.
  - intros c st3 [b ->]. apply spec_ret. apply counter_iadd_inv; [exact Hres|].
    apply counter_unit_inv.
Qed.

End Groups.

Lemma walk_c_prefix : forall n p x, In x (walk_c p n) -> exists rel, x = p ++ rel.
Proof.
  fix IH 1. intros [text utf8|es] p x H; simpl in H; [contradiction|].
  apply in_app_or in H. destruct H as [H|H].
  - apply in_map_iff in H. destruct H as ([name n] & <- & _). eauto.
  - induction es as [|[name sub] es IHes]; simpl in H; [contradiction|].
    apply in_app_or in H. destruct H as [H|H]; [|apply IHes; exact H].
    apply IH in H. destruct H as [rel ->]. exists (name :: rel).
    rewrite <- app_assoc. reflexivity.
Qed.

Lemma in_glob_rec_c_under w dir src : In src (glob_rec_c w dir) -> under dir src = true.
Proof.
  unfold glob_rec_c. destruct (lookup_path (fs w) dir) as [n|]; [|contradiction].
  intros H. apply walk_c_prefix in H. destruct H as [rel ->].
  unfold under. rewrite relative_to_app. reflexivity.
Qed.

Lemma success_bar_zero num_success st :
  success_bar num_success 0 20 st = (Raise ZeroDivisionError, st).
Proof. reflexivity. Qed.

Lemma success_bar_run num_success num_total width st :
  exists r, success_bar num_success num_total width st = (r, st).
Proof.
  unfold success_bar. destruct (num_total =? 0)%Z; [eexists; reflexivity|].
  unfold bind, of_option. destruct (floor_float _); eexists; reflexivity.
Qed.

(** What [run_hidden_tests] logs: file and tool operations on the fixtures
    under the folder, and then, unless something raised, the one summary
    node. *)
Lemma run_hidden_tests_shape w hid eval build st :
  exists r T S,
    run_hidden_tests w hid eval build st = (r, add_log st (T ++ S)) /\
    Forall (hidden_event eval build hid) T /\
    ((S = [] /\ exists e, r = Raise e) \/
     exists bar s n, (0 <= s <= n)%Z /\ S = hidden_summary bar s n /\ r = Ok (Counter_of s n)).
Proof.
  unfold run_hidden_tests.
  match goal with |- context [for_each ?xs ?body ?acc0] =>
    assert (Hloop : spec (for_each xs body acc0) st (hidden_event eval build hid)
                      (fun counts : Z * Z => 0 <= counts.1 <= counts.2)%Z) end.
  { apply spec_for_each; [simpl; lia|]. intros src acc st1 Hin Hacc.
    eapply spec_bind.
    - eapply spec_weaken; [| |apply helper_spec]; [|intros a Ha; exact Ha].
      intros e [Ht Hl]. split; [exact Ht|]. destruct e; try reflexivity.
      simpl. rewrite Hl, (in_glob_rec_c_under _ _ _ Hin). reflexivity.
    - intros o st2 _. apply spec_ret. simpl. destruct (correct o); lia. }
  destruct Hloop as (r & T & Hrun & HT & Hres).
  rewrite (bind_run _ _ _ _ _ Hrun). destruct r as [[s n]|e].
  2:{ exists (Raise e), T, []. rewrite app_nil_r. eauto 10. }
  specialize (Hres _ eq_refl). simpl in Hres. cbn [fst snd].
  destruct (success_bar_run s n 20 (add_log st T)) as [rb Hb].
  rewrite (bind_run _ _ _ _ _ Hb). destruct rb as [bar|e].
  2:{ exists (Raise e), T, []. rewrite app_nil_r. eauto 10. }
  exists (Ok (Counter_of s n)), T, (hidden_summary bar s n).
  split; [|split; [exact HT|right; eauto 10]].
  unfold with_attrs, bind, emit, ret, hidden_summary, add_log. simpl.
  rewrite <- !app_assoc. reflexivity.
Qed.

(** C10. On a hidden-tests folder without a fixture [run_hidden_tests]
    fails: the success rate divides by the number of tests, which is zero,
    and the error leaves before any summary node is written. A visible
    group without a fixture is no error: [run_test_case] returns the empty
    counter around an empty test case node. *)
Theorem zero_fixtures_hidden_fails `{RT : PythonRuntime} w hid folder eval build st :
  glob_rec_c w hid = [] -> glob_c w folder = [] ->
  run_hidden_tests w hid eval build st = (Raise ZeroDivisionError, st) /\
  exists n,
    run_test_case w folder eval build st =
    (Ok Counter_empty, add_log st [Start (TestCase n); Close (TestCase n) []]).
Proof.
  intros Hh Hv. split.
  - unfold run_hidden_tests. rewrite Hh. reflexivity.
  - eexists. unfold run_test_case. rewrite Hv.
    unfold with_, with_attrs, bind, emit, ret, for_each, add_log. simpl.
    rewrite <- app_assoc. reflexivity.
Qed.

(** The empty [hidden] folder of the sample. *)
Lemma zero_fixtures_witness :
  run_hidden_tests sample_world sample_empty_hidden sample_evaluation sample_build
    initial_state = (Raise ZeroDivisionError, initial_state) /\
  exists n,
    run_test_case (RT := ascii_runtime) sample_world sample_empty_hidden sample_evaluation
      sample_build initial_state =
    (Ok Counter_empty, add_log initial_state [Start (TestCase n); Close (TestCase n) []]).
Proof.
  apply (zero_fixtures_hidden_fails (RT := ascii_runtime)); reflexivity.
Defined.

(** ** judge.py: the hierarchy walker *)

Lemma with_run {A} n (body : M A) st r evs :
  body (add_log st [Start n]) = (r, add_log (add_log st [Start n]) evs) ->
  with_ n body st = (r, add_log st ([Start n] ++ evs ++ [Close n []])).
Proof.
  intros H. unfold with_.
  rewrite (with_attrs_run n _ st
             (match r with Ok a => Ok (a, []) | Raise e => Raise e end) evs).
  - destruct r; reflexivity.
  - rewrite (bind_run _ _ _ _ _ H). destruct r; reflexivity.
Qed.

Lemma relative_to_app_both p a b : relative_to (p ++ a) (p ++ b) = relative_to a b.
Proof. induction p as [|c p IH]; simpl; [reflexivity|]. rewrite str_eqb_refl. exact IH. Qed.

Lemma path_name_snoc (p : path) name : path_name (p ++ [name]) = name.
Proof. unfold path_name. apply last_last. Qed.

Lemma not_under_hidden_direct ctx name :
  is_c_name name = true -> under (ctx ++ [u "hidden"]) (ctx ++ [name]) = false.
Proof.
  intros Hc. unfold under. rewrite relative_to_app_both. cbn [relative_to].
  destruct (str_eqb name (u "hidden")) eqn:E; [|reflexivity].
  apply str_eqb_eq in E. subst name. vm_compute in Hc. discriminate.
Qed.

Lemma not_under_hidden_sub ctx f name :
  str_eqb f (u "hidden") = false ->
  under (ctx ++ [u "hidden"]) ((ctx ++ [f]) ++ [name]) = false.
Proof.
  intros Hf. unfold under. rewrite <- app_assoc, relative_to_app_both.
  cbn [relative_to app]. rewrite Hf. reflexivity.
Qed.

Section Walker.
Context `{RT : PythonRuntime}.
Variables (w : world) (evaluation_folder build_path : path).

Local Abbreviation visible := (visible_event evaluation_folder build_path).
Local Abbreviation hidden := (hidden_event evaluation_folder build_path).

(** The events of a visible group are none of the hidden batch. *)
Lemma group_event_visible ctx folder e :
  (forall name, is_c_name name = true ->
     under (ctx ++ [u "hidden"]) (folder ++ [name]) = false) ->
  group_event evaluation_folder build_path folder e -> visible (ctx ++ [u "hidden"]) e.
Proof.
  intros Hout He. split.
  - destruct e; try reflexivity. simpl in *. destruct He as (name & -> & Hname). auto.
  - destruct e as [|[] attrs| | | | |]; simpl in *; auto.
Qed.

(** The part of [create_context] that runs the hidden tests. *)
Lemma hidden_tests_shape ctx res st :
  counter_inv res ->
  exists r T S,
    (if path_exists w (ctx ++ [u "hidden"])
     then c <- run_hidden_tests w (ctx ++ [u "hidden"]) evaluation_folder build_path ;;
          ret (counter_iadd res c)
     else ret res) st = (r, add_log st (T ++ S)) /\
    Forall (hidden (ctx ++ [u "hidden"])) T /\
    (path_exists w (ctx ++ [u "hidden"]) = false -> T = [] /\ S = []) /\
    ((S = [] /\ (path_exists w (ctx ++ [u "hidden"]) = true -> exists e, r = Raise e)) \/
     exists bar s n, S = hidden_summary bar s n) /\
    (forall c, r = Ok c -> counter_inv c).
Proof.
  intros Hres. destruct (path_exists w (ctx ++ [u "hidden"])) eqn:Hex.
  - destruct (run_hidden_tests_shape w (ctx ++ [u "hidden"]) evaluation_folder build_path st)
      as (r & T & S & Hrun & HT & HS).
    rewrite (bind_run _ _ _ _ _ Hrun).
    destruct HS as [[-> [e ->]]|(bar & s & n & Hsn & -> & ->)].
    + exists (Raise e), T, []. split; [reflexivity|]. split; [exact HT|].
      split; [discriminate|]. split; [left; eauto | discriminate].
    + exists (Ok (counter_iadd res (Counter_of s n))), T, (hidden_summary bar s n).
      split; [reflexivity|]. split; [exact HT|]. split; [discriminate|].
      split; [right; eauto|]. intros c Hc. injection Hc as <-.
      apply counter_iadd_inv; [exact Hres | apply counter_of_inv; exact Hsn].
  - exists (Ok res), [], []. unfold ret. rewrite add_log_nil.
    split; [reflexivity|]. split; [constructor|]. split; [auto|].
    split; [left; split; [reflexivity | discriminate]|].
    intros c Hc. injection Hc as <-. exact Hres.
Qed.

(** Visible groups first, the hidden batch after them. *)
Lemma visible_then_hidden {A} (visible_groups : M A) (f : A -> gmap str Z) ctx st :
  spec visible_groups st (visible (ctx ++ [u "hidden"])) (fun a => counter_inv (f a)) ->
  exists r V T S,
    (a <- visible_groups ;;
     if path_exists w (ctx ++ [u "hidden"])
     then c <- run_hidden_tests w (ctx ++ [u "hidden"]) evaluation_folder build_path ;;
          ret (counter_iadd (f a) c)
     else ret (f a)) st = (r, add_log st (V ++ T ++ S)) /\
    Forall (visible (ctx ++ [u "hidden"])) V /\
    Forall (hidden (ctx ++ [u "hidden"])) T /\
    (path_exists w (ctx ++ [u "hidden"]) = false -> T = [] /\ S = []) /\
    ((S = [] /\ (path_exists w (ctx ++ [u "hidden"]) = true -> exists e, r = Raise e)) \/
     exists bar s n, S = hidden_summary bar s n) /\
    (forall c, r = Ok c -> counter_inv c).
Proof.
  intros (rv & V & Hrun & HV & Hres). rewrite (bind_run _ _ _ _ _ Hrun).
  destruct rv as [a|e].
  - destruct (hidden_tests_shape ctx (f a) (add_log st V) (Hres a eq_refl))
      as (r & T & S & Hrun' & HT & Hno & HS & Hc).
    exists r, V, T, S. rewrite Hrun', add_log_app. auto 10.
  - exists (Raise e), V, [], []. rewrite app_nil_r.
    split; [reflexivity|]. split; [exact HV|]. split; [constructor|]. split; [auto|].
    split; [left; eauto | discriminate].
Qed.

Lemma in_test_case_folders ctx folder :
  In folder (List.filter (is_dir w) (glob_star w ctx)) ->
  exists f, folder = ctx ++ [f].
Proof. intros H. apply filter_In in H. destruct H as [H _]. eapply in_glob_star. exact H. Qed.

Lemma name_in_hidden ctx f :
  name_in [u "hidden"; u "grading"] (ctx ++ [f]) = false -> str_eqb f (u "hidden") = false.
Proof.
  unfold name_in. rewrite path_name_snoc. cbn [existsb]. intros H.
  apply orb_false_iff in H. apply H.
Qed.

(** What [create_context] logs: inside its context node, the events of the
    visible groups, then the operations of the hidden batch, then the
    summary of the hidden batch. *)
Lemma create_context_shape ctx is_dummy st :
  exists r k V T S,
    create_context w ctx evaluation_folder build_path is_dummy st =
      (r, add_log st ([Start (Context k)] ++ (V ++ T ++ S) ++ [Close (Context k) []])) /\
    Forall (visible (ctx ++ [u "hidden"])) V /\
    Forall (hidden (ctx ++ [u "hidden"])) T /\
    (path_exists w (ctx ++ [u "hidden"]) = false -> T = [] /\ S = []) /\
    ((S = [] /\ (path_exists w (ctx ++ [u "hidden"]) = true -> exists e, r = Raise e)) \/
     exists bar s n, S = hidden_summary bar s n) /\
    (forall c, r = Ok c -> counter_inv c).
Proof.
  unfold create_context.
  match goal with |- context [with_ (Context ?kw) _] => set (k := kw) end.
  match goal with |- context [negb (?a && ?b)] => destruct (a && b) end; cbn [negb].
  - match goal with |- context [with_ _ (bind ?m _)] =>
      assert (Hv : forall st1, spec m st1 (visible (ctx ++ [u "hidden"])) counter_inv) end.
    { intros st1. apply spec_for_each; [apply counter_empty_inv|].
      intros folder res st2 Hin Hres. destruct (in_test_case_folders _ _ Hin) as [f ->].
      destruct (name_in [u "hidden"; u "grading"] (ctx ++ [f])) eqn:Hn;
        [apply spec_ret; exact Hres|].
      eapply spec_bind.
      - eapply spec_weaken; [| |apply run_test_case_spec]; [|intros a Ha; exact Ha].
        intros e. apply group_event_visible. intros name _.
        apply not_under_hidden_sub. eapply name_in_hidden. exact Hn.
      - intros c st3 Hc. apply spec_ret. apply counter_iadd_inv; assumption. }
    destruct (visible_then_hidden _ (fun res => res) ctx (add_log st [Start (Context k)])
                (Hv _)) as (r & V & T & S & Hrun & HV & HT & Hno & HS & Hc).
    exists r, k, V, T, S. split; [apply with_run; exact Hrun | auto 10].
  - assert (Hv : forall st1,
              spec (run_test_case w ctx evaluation_folder build_path) st1
                (visible (ctx ++ [u "hidden"]))
                (fun c => counter_inv (counter_iadd Counter_empty c))).
    { intros st1. eapply spec_weaken; [| |apply run_test_case_spec].
      - intros e. apply group_event_visible. intros name. apply not_under_hidden_direct.
      - intros c Hc. apply counter_iadd_inv; [apply counter_empty_inv | exact Hc]. }
    destruct (visible_then_hidden _ (fun c => counter_iadd Counter_empty c) ctx
                (add_log st [Start (Context k)]) (Hv _))
      as (r & V & T & S & Hrun & HV & HT & Hno & HS & Hc).
    exists r, k, V, T, S. split; [apply with_run; exact Hrun | auto 10].
Qed.

End Walker.

(** ** judge.py: what the walker guarantees *)

Section WalkerClaims.
Context `{RT : PythonRuntime}.

Lemma all_events (evs : list event) : Forall (fun _ => True) evs.
Proof. apply Forall_forall. auto. Qed.

Lemma create_context_spec w ctx evaluation_folder build_path is_dummy st :
  spec (create_context w ctx evaluation_folder build_path is_dummy) st
    (fun _ => True) counter_inv.
Proof.
  destruct (create_context_shape w evaluation_folder build_path ctx is_dummy st)
    as (r & k & V & T & S & Hrun & _ & _ & _ & _ & Hc).
  eexists _, _. split; [exact Hrun|]. split; [apply all_events | exact Hc].
Qed.

Lemma create_tab_spec w tab evaluation_folder build_path st :
  spec (create_tab w tab evaluation_folder build_path) st (fun _ => True) counter_inv.
Proof.
  unfold create_tab. destruct (same_set _ _); [apply spec_ret; apply counter_empty_inv|].
  apply spec_with_attrs with (Pattrs := fun _ => True); [exact I | exact I | auto|].
  intros st1. eapply spec_bind with (Pa := counter_inv).
  - match goal with |- context [negb (?a && ?b)] => destruct (a && b) end; cbn [negb].
    + apply spec_for_each; [apply counter_empty_inv|].
      intros folder res st2 _ Hres. eapply spec_bind; [apply create_context_spec|].
      intros c st3 Hc. apply spec_ret. apply counter_iadd_inv; assumption.
    + eapply spec_bind; [apply create_context_spec|].
      intros c st2 Hc. apply spec_ret.
      apply counter_iadd_inv; [apply counter_empty_inv | exact Hc].
  - intros res st2 Hres. apply spec_ret. auto.
Qed.

Lemma test_submission_spec w evaluation_folder build_path st :
  spec (test_submission w evaluation_folder build_path) st (fun _ => True) counter_inv.
Proof.
  unfold test_submission. apply spec_for_each; [apply counter_empty_inv|].
  intros folder res st1 _ Hres. eapply spec_bind; [apply create_tab_spec|].
  intros c st2 Hc. apply spec_ret. apply counter_iadd_inv; assumption.
Qed.

Lemma spec_result {A} (m : M A) st Pe (Pr : A -> Prop) a st' :
  spec m st Pe Pr -> m st = (Ok a, st') -> Pr a.
Proof.
  intros (r & evs & Hrun & _ & Hres) H. rewrite Hrun in H. injection H as -> _. auto.
Qed.

(** C7. Adding counters ([+=]) is commutative; on counters without negative
    counts (all the counters of this program) it is associative, and the
    empty counter, written [Counter()] or with both counts zero, is its
    identity (counters being compared as Python compares them, count by
    count). Every counter that [run_test], [run_test_case],
    [run_hidden_tests], [create_context], [create_tab] and [test_submission]
    return has no negative count and satisfies [0 <= correct <= total]. *)
Theorem counters_form_a_monoid_and_keep_their_invariant :
  (forall a b, counter_iadd a b = counter_iadd b a) /\
  (forall a b c, counter_nonneg a -> counter_nonneg b -> counter_nonneg c ->
     counter_iadd (counter_iadd a b) c = counter_iadd a (counter_iadd b c)) /\
  (forall c zero, zero = Counter_empty \/ zero = Counter_of 0 0 ->
     counter_nonneg c ->
     counter_eq (counter_iadd c zero) c /\ counter_eq (counter_iadd zero c) c) /\
  (forall w src eo ee eval build st c st',
     run_test w src eo ee eval build st = (Ok c, st') -> counter_inv c) /\
  (forall w folder eval build st c st',
     run_test_case w folder eval build st = (Ok c, st') -> counter_inv c) /\
  (forall w hid eval build st c st',
     run_hidden_tests w hid eval build st = (Ok c, st') -> counter_inv c) /\
  (forall w ctx eval build is_dummy st c st',
     create_context w ctx eval build is_dummy st = (Ok c, st') -> counter_inv c) /\
  (forall w tab eval build st c st',
     create_tab w tab eval build st = (Ok c, st') -> counter_inv c) /\
  (forall w eval build st c st',
     test_submission w eval build st = (Ok c, st') -> counter_inv c).
Proof.
  split; [exact counter_iadd_comm|]. split; [exact counter_iadd_assoc|].
  split.
  { intros c zero Hz Hc.
    assert (Hzero : counter_nonneg zero /\ forall key, counter_get zero key = 0%Z).
    { destruct Hz as [->| ->].
      - split; [apply counter_empty_inv|]. intros key. unfold counter_get, Counter_empty.
        rewrite lookup_empty. reflexivity.
      - split; [apply counter_of_inv; lia|]. intros key. rewrite counter_get_of.
        repeat destruct (decide _); reflexivity. }
    destruct Hzero as [Hn Hget].
    split; intros key; rewrite counter_get_iadd_nonneg by assumption; rewrite Hget; lia. }
  split.
  { intros w src eo ee eval build st c st' H.
    destruct (spec_result _ _ _ _ _ _ (run_test_spec w src eo ee eval build st) H) as [b ->].
    apply counter_unit_inv. }
  split.
  { intros w folder eval build st c st' H.
    exact (spec_result _ _ _ _ _ _ (run_test_case_spec w folder eval build st) H). }
  split.
  { intros w hid eval build st c st' H.
    destruct (run_hidden_tests_shape w hid eval build st) as (r & T & S & Hrun & _ & HS).
    rewrite Hrun in H. injection H as -> _.
    destruct HS as [[_ [e He]]|(bar & s & n & Hsn & _ & Hc)]; [discriminate|].
    injection Hc as ->. apply counter_of_inv. exact Hsn. }
  split.
  { intros w ctx eval build is_dummy st c st' H.
    exact (spec_result _ _ _ _ _ _ (create_context_spec w ctx eval build is_dummy st) H). }
  split.
  { intros w tab eval build st c st' H.
    exact (spec_result _ _ _ _ _ _ (create_tab_spec w tab eval build st) H). }
  intros w eval build st c st' H.
  exact (spec_result _ _ _ _ _ _ (test_submission_spec w eval build st) H).
Qed.

Lemma child_In es name n : child es name = Some n -> In (name, n) es.
Proof.
  induction es as [|[name' n'] es IH]; simpl; [discriminate|].
  destruct (str_eqb name' name) eqn:E.
  - intros H. injection H as ->. apply str_eqb_eq in E. subst. left. reflexivity.
  - intros H. right. auto.
Qed.

Lemma glob_grading_subset w tab p :
  In p (glob_grading_rec_c w tab) -> In p (glob_rec_c w tab).
Proof.
  unfold glob_grading_rec_c, glob_rec_c, entries. intros H.
  destruct (lookup_path (fs w) tab) as [[text utf8|es]|];
    [exfalso; exact H | | exfalso; exact H].
  destruct (child es (u "grading")) as [n|] eqn:E; [|contradiction].
  cbn [walk_c]. apply in_or_app. right. apply in_flat_map.
  exists (u "grading", n). split; [apply child_In; exact E | exact H].
Qed.

(** C5. For a rubric folder all of whose fixtures lie under its [grading]
    subfolder, [create_tab] returns the empty counter and does nothing
    else: the state, and with it the log, is unchanged (no tab is opened, no
    test is run). *)
Theorem grading_only_rubric_is_skipped w tab evaluation_folder build_path st :
  (forall p, In p (glob_rec_c w tab) -> In p (glob_grading_rec_c w tab)) ->
  create_tab w tab evaluation_folder build_path st = (Ok Counter_empty, st).
Proof.
  intros H. unfold create_tab.
  assert (Hsame : same_set (glob_rec_c w tab) (glob_grading_rec_c w tab) = true).
  { unfold same_set. apply bool_decide_eq_true_2. apply set_eq. intros p.
    rewrite !elem_of_list_to_set, !list_elem_of_In. split; [apply H|].
    apply glob_grading_subset. }
  rewrite Hsame. reflexivity.
Qed.

End WalkerClaims.

(** The sample's rubric [instructor] is skipped. *)
Lemma grading_only_rubric_witness :
  create_tab (RT := ascii_runtime) sample_world sample_grading_tab sample_evaluation
    sample_build initial_state = (Ok Counter_empty, initial_state).
Proof.
  apply (grading_only_rubric_is_skipped (RT := ascii_runtime)).
  intros p H. vm_compute in H. vm_compute. exact H.
Defined.

(** The sample course scores 2 of 4, and three counters add up either way. *)
Lemma counters_witness :
  counter_iadd (counter_iadd (Counter_of 1 1) (Counter_of 0 1)) (Counter_of 1 1) =
  counter_iadd (Counter_of 1 1) (counter_iadd (Counter_of 0 1) (Counter_of 1 1)) /\
  exists c st',
    test_submission (RT := ascii_runtime) sample_world sample_evaluation sample_build
      initial_state = (Ok c, st') /\
    counter_get c (u "correct") = 2%Z /\ counter_get c (u "total") = 4%Z /\
    counter_inv c.
Proof.
  destruct (counters_form_a_monoid_and_keep_their_invariant (RT := ascii_runtime))
    as (_ & Hassoc & _ & _ & _ & _ & _ & _ & Hsub).
  split.
  - apply Hassoc; apply counter_of_inv; lia.
  - destruct (test_submission (RT := ascii_runtime) sample_world sample_evaluation
                sample_build initial_state) as [[c|e] st'] eqn:E;
      [|vm_compute in E; discriminate E].
    exists c, st'. split; [reflexivity|].
    split; [|split; [|exact (Hsub _ _ _ _ _ _ E)]];
      vm_compute in E; injection E as <- _; vm_compute; reflexivity.
Defined.

(** With a negative count the addition of Python's counters is not
    associative: [+=] drops the counts that are not positive. *)
Remark counter_iadd_negative_count :
  let a : gmap str Z := {[u "x" := 1%Z]} in
  let b : gmap str Z := {[u "x" := (-2)%Z]} in
  let c : gmap str Z := {[u "x" := 2%Z]} in
  counter_get (counter_iadd (counter_iadd a b) c) (u "x") = 2%Z /\
  counter_get (counter_iadd a (counter_iadd b c)) (u "x") = 1%Z.
Proof. split; vm_compute; reflexivity. Qed.

(* ===================================================================== *)
(** * Part III. More on the classifier, the evaluator and the walker       *)
(* ===================================================================== *)
(** ** Texts: occurrences, lines and block quotes *)

Lemma startswith_app p s : startswith (p ++ s) p = true.
Proof. induction p as [|c p IH]; simpl; [reflexivity|]. rewrite N.eqb_refl. exact IH. Qed.

Lemma startswith_inv p : forall s, startswith s p = true -> exists rest, s = p ++ rest.
Proof.
  induction p as [|c p IH]; intros s H; simpl in H.
  - exists s. reflexivity.
  - destruct s as [|d s]; [discriminate|].
    apply andb_true_iff in H. destruct H as [Hc H]. apply N.eqb_eq in Hc. subst d.
    destruct (IH _ H) as [rest ->]. exists rest. reflexivity.
Qed.

(** [sub in s] holds exactly when [s] is some text, [sub], and some text. *)
Lemma str_in_spec sub s :
  str_in sub s = true <-> exists pre post, s = pre ++ sub ++ post.
Proof.
  split.
  - induction s as [|c s IH]; simpl; intros H.
    + rewrite orb_false_r in H. apply startswith_inv in H. destruct H as [rest H].
      exists [], rest. exact H.
    + apply orb_true_iff in H. destruct H as [H|H].
      * apply startswith_inv in H. destruct H as [rest H]. exists [], rest. exact H.
      * destruct (IH H) as (pre & post & ->). exists (c :: pre), post. reflexivity.
  - intros (pre & post & ->). induction pre as [|c pre IH].
    + pose proof (startswith_app sub post) as H. simpl.
      destruct (sub ++ post); simpl; rewrite H; reflexivity.
    + simpl. rewrite IH. apply orb_true_r.
Qed.

Lemma split_nl_app_nl a b : split_nl (a ++ NL :: b) = split_nl a ++ split_nl b.
Proof.
  induction a as [|c a IH]; simpl.
  - reflexivity.
  - destruct (N.eqb c NL); [rewrite IH; reflexivity|].
    rewrite IH. pose proof (split_nl_nonempty a) as Ha.
    destruct (split_nl a) as [|l ls]; [contradiction | reflexivity].
Qed.

Lemma no_newline_quoted l : no_newline l -> no_newline (u "> " ++ l).
Proof. intros H. repeat constructor; try discriminate. exact H. Qed.

(** Quoting a text quotes each of its lines. *)
Lemma split_nl_block_quote s :
  split_nl (block_quote s) = map (fun l => u "> " ++ l) (split_nl s).
Proof.
  unfold block_quote. apply split_nl_join.
  - pose proof (split_nl_nonempty s). destruct (split_nl s); [contradiction | discriminate].
  - apply List.Forall_map. eapply List.Forall_impl; [|apply split_nl_no_newline].
    intros l. apply no_newline_quoted.
Qed.

(** The lines [readlines] yields make up the text. *)
Lemma concat_readlines s : concat (readlines s) = s.
Proof.
  induction s as [|c s IH]; simpl; [reflexivity|].
  destruct (N.eqb c NL).
  - simpl. rewrite IH. reflexivity.
  - destruct (readlines s) as [|l ls]; simpl in *; rewrite <- IH; reflexivity.
Qed.

(** Every line but the last ends with its newline, the only one it holds. *)
Lemma readlines_complete_lines s :
  Forall (fun l => exists b, l = b ++ nl /\ no_newline b) (removelast (readlines s)).
Proof.
  induction s as [|c s IH]; simpl; [constructor|].
  destruct (N.eqb c NL) eqn:Ec.
  - apply N.eqb_eq in Ec. subst c.
    destruct (readlines s) as [|l ls] eqn:E.
    + constructor.
    + constructor; [|exact IH]. exists []. split; [reflexivity | constructor].
  - apply N.eqb_neq in Ec.
    destruct (readlines s) as [|l ls] eqn:E; [constructor|].
    destruct ls as [|l' ls]; [constructor|].
    change (removelast ((c :: l) :: l' :: ls)) with ((c :: l) :: removelast (l' :: ls)).
    change (removelast (l :: l' :: ls)) with (l :: removelast (l' :: ls)) in IH.
    inversion IH as [|? ? (b & -> & Hb) Hrest]; subst.
    constructor; [|exact Hrest]. exists (c :: b). split; [reflexivity|].
    constructor; assumption.
Qed.

Lemma readlines_nonempty_lines s : Forall (fun l => l <> []) (readlines s).
Proof.
  induction s as [|c s IH]; simpl; [constructor|].
  destruct (N.eqb c NL).
  - constructor; [discriminate | exact IH].
  - destruct (readlines s) as [|l ls]; [repeat constructor; discriminate|].
    inversion IH; subst. constructor; [discriminate | assumption].
Qed.

Lemma count_nl_app a b : count_nl (a ++ b) = (count_nl a + count_nl b)%nat.
Proof. unfold count_nl. rewrite List.filter_app, length_app. reflexivity. Qed.

Lemma count_nl_line b : no_newline b -> count_nl (b ++ nl) = 1%nat.
Proof.
  intros H. rewrite count_nl_app. unfold count_nl at 2. simpl.
  assert (E : count_nl b = 0%nat).
  { unfold count_nl. induction H as [|c b Hc _ IH]; [reflexivity|].
    cbn [List.filter]. destruct (N.eqb NL c) eqn:Ec; [apply N.eqb_eq in Ec; congruence | exact IH]. }
  rewrite E. reflexivity.
Qed.

Lemma count_nl_complete_lines (ls : list str) :
  Forall (fun l => exists b, l = b ++ nl /\ no_newline b) ls ->
  count_nl (concat ls) = length ls.
Proof.
  induction 1 as [|l ls (b & -> & Hb) _ IH]; simpl; [reflexivity|].
  rewrite count_nl_app, count_nl_line, IH by exact Hb. reflexivity.
Qed.

Lemma firstn_removelast {A} n (l : list A) :
  (n < length l)%nat -> firstn n (removelast l) = firstn n l.
Proof.
  revert n. induction l as [|x l IH]; intros n H; [reflexivity|].
  destruct l as [|y l]; simpl in H.
  - assert (n = 0)%nat by lia. subst. reflexivity.
  - destruct n as [|n]; [reflexivity|].
    change (removelast (x :: y :: l)) with (x :: removelast (y :: l)).
    simpl firstn at 1 2. f_equal. apply IH. simpl. lia.
Qed.

(** What [run_test] shows of a fixture: the whole text when it has at most
    ten lines; otherwise its first nine lines, newlines included, and then
    the remark, the rest of the text being left out. *)
Lemma shown_code_cases text :
  ((length (readlines text) <= 10)%nat /\ shown_code text = text) \/
  ((10 < length (readlines text))%nat /\
   exists head rest,
     text = head ++ nl ++ rest /\ rest <> [] /\ count_nl (head ++ nl) = 9%nat /\
     shown_code text = head ++ nl ++ u "... // Remainder of code omitted").
Proof.
  unfold shown_code. cbn zeta.
  destruct (10 <? length (readlines text))%nat eqn:E.
  - apply Nat.ltb_lt in E. right. split; [exact E|].
    pose proof (readlines_complete_lines text) as Hc.
    pose proof (readlines_nonempty_lines text) as Hn.
    pose proof (concat_readlines text) as Ht.
    rewrite <- (firstn_skipn 9 (readlines text)) in Ht, Hn.
    rewrite concat_app in Ht. apply Forall_app in Hn. destruct Hn as [_ Hn].
    assert (Hf : Forall (fun l => exists b, l = b ++ nl /\ no_newline b)
                   (firstn 9 (readlines text))).
    { rewrite <- firstn_removelast by lia. apply Forall_take. exact Hc. }
    assert (Hlen : length (firstn 9 (readlines text)) = 9%nat)
      by (rewrite length_firstn; lia).
    pose proof (count_nl_complete_lines _ Hf) as Hcount. rewrite Hlen in Hcount.
    assert (Hlast : exists head, concat (firstn 9 (readlines text)) = head ++ nl).
    { destruct (firstn 9 (readlines text)) as [|l ls] eqn:Ef using rev_ind;
        [discriminate|].
      apply Forall_app in Hf. destruct Hf as [_ Hf]. inversion Hf as [|? ? (b & -> & _) _]; subst.
      rewrite concat_app. simpl. rewrite app_nil_r. exists (concat ls ++ b).
      rewrite <- app_assoc. reflexivity. }
    destruct Hlast as [head Hhead].
    exists head, (concat (skipn 9 (readlines text))).
    rewrite Hhead in Ht, Hcount. rewrite <- app_assoc in Ht.
    split; [symmetry; exact Ht|]. split; [|split; [exact Hcount|]].
    2:{ rewrite concat_app, Hhead. cbn [concat]. rewrite app_nil_r, <- app_assoc. reflexivity. }
    assert (Hsk : (0 < length (skipn 9 (readlines text)))%nat) by (rewrite length_skipn; lia).
    destruct (skipn 9 (readlines text)) as [|l ls]; [simpl in Hsk; lia|].
    inversion Hn; subst. simpl. destruct l; [contradiction | discriminate].
  - apply Nat.ltb_ge in E. left. split; [exact E | apply concat_readlines].
Qed.

(** X4. The unexpected-error warning is one Markdown block quote whatever the
    error text holds: every line of its description starts with the quote
    mark, and behind the marks stand the heading, a fence, the lines of the
    error text as they are, empty ones included, and the closing fence. *)
Theorem unexpected_error_warning_is_a_block_quote error_message st :
  exists d,
    warn_unexpected_error error_message st =
      (Ok tt, add_log st [Start (Message d MARKDOWN None);
                          Close (Message d MARKDOWN None) []]) /\
    split_nl d =
      map (fun l => u "> " ++ l)
        ([u "&#9889; **Your solution threw an unexpected error:**"; u "```"] ++
         split_nl error_message ++ [u "```"]).
Proof.
  eexists. split; [apply warn_unexpected_error_run|].
  rewrite split_nl_block_quote. f_equal.
  change (u "&#9889;" ++ u " **Your solution threw an unexpected error:**" ++ nl ++
          u "```" ++ nl ++ error_message ++ nl ++ u "```")
    with (u "&#9889; **Your solution threw an unexpected error:**" ++
          NL :: (u "```" ++ NL :: (error_message ++ NL :: u "```"))).
  rewrite !split_nl_app_nl. reflexivity.
Qed.

(** ** compile_error.py: the three reports *)

Section CompileErrorMore.
Context `{RT : PythonRuntime}.

Lemma undefined_reference_shape w g0 g :
  Matches _is_undefined_reference w g0 g ->
  exists rest onl file ext sect name,
    w = u "/usr/bin/ld: " ++ rest ++ onl ++ file ++ u "." ++ ext ++ u ":(" ++ sect ++
        u "): undefined reference to `" ++ name ++ u "'" /\
    g = ("missing_reference"%string, name) :: g0 /\
    no_newline rest /\ (onl = [] \/ onl = nl) /\
    file <> [] /\ Forall (fun c => is_word c = true) file /\
    (ext = u "h" \/ ext = u "cpp") /\ sect <> [] /\
    Forall (fun c => c <> chr "'") name.
Proof.
  unfold _is_undefined_reference. intros H.
  apply inv_seq in H. destruct H as (w0 & w1 & g1 & -> & H0 & H).
  apply inv_str in H0. destruct H0 as [-> ->].
  apply inv_seq in H. destruct H as (rest & w2 & g2 & -> & Hrest & H).
  apply Matches_star_any in Hrest. destruct Hrest as [-> Frest].
  apply inv_seq in H. destruct H as (onl & w3 & g3 & -> & Honl & H).
  assert (Ho : (onl = [] \/ onl = nl) /\ g3 = g0).
  { apply inv_alt in Honl. destruct Honl as [Ho|Ho].
    - apply inv_lit in Ho. destruct Ho as [-> ->]. auto.
    - apply inv_eps in Ho. destruct Ho as [-> ->]. auto. }
  destruct Ho as [Ho ->]. clear Honl.
  apply inv_seq in H. destruct H as (file & w4 & g4 & -> & Hfile & H).
  apply inv_plus_set in Hfile. destruct Hfile as (-> & Hfile & Ffile).
  apply inv_seq in H. destruct H as (dot & w5 & g5 & -> & Hdot & H).
  apply inv_lit in Hdot. destruct Hdot as [-> ->].
  apply inv_seq in H. destruct H as (ext & w6 & g6 & -> & Hext & H).
  assert (He : (ext = u "h" \/ ext = u "cpp") /\ g6 = g0).
  { apply inv_alt in Hext. destruct Hext as [He|He];
      apply inv_str in He; destruct He as [-> ->]; auto. }
  destruct He as [He ->]. clear Hext.
  apply inv_seq in H. destruct H as (par & w7 & g7 & -> & Hpar & H).
  apply inv_str in Hpar. destruct Hpar as [-> ->].
  apply inv_seq in H. destruct H as (sect & w8 & g8 & -> & Hsect & H).
  apply inv_plus_set in Hsect. destruct Hsect as (-> & Hsect & _).
  apply inv_seq in H. destruct H as (und & w9 & g9 & -> & Hund & H).
  apply inv_str in Hund. destruct Hund as [-> ->].
  apply inv_seq in H. destruct H as (name & q & g10 & -> & Hname & H).
  apply inv_group in Hname. destruct Hname as (g11 & Hname & ->).
  apply Matches_star_set in Hname. destruct Hname as [-> Fname].
  apply inv_lit in H. destruct H as [-> ->].
  exists rest, onl, file, ext, sect, name.
  split; [reflexivity|]. split; [reflexivity|].
  split; [exact Frest|]. split; [exact Ho|]. split; [exact Hfile|].
  split.
  { eapply List.Forall_impl; [|exact Ffile]. intros c. simpl. rewrite orb_false_r. auto. }
  split; [exact He|]. split; [exact Hsect|].
  eapply List.Forall_impl; [|exact Fname]. intros c Hc Heq. subst c.
  vm_compute in Hc. discriminate.
Qed.


(** Without a match of the undefined-reference pattern the classifier
    goes by the first compiler diagnostic, if there is one: the located
    report when [int] converts its line number, [ValueError] out of the
    open message when it does not; and the fallback when there is none. *)
Lemma no_undefined_reference_run stderr_content exit_code st :
  re_finditer _is_undefined_reference stderr_content = [] ->
  exists r evs,
    handle_compile_error stderr_content exit_code st = (r, add_log st evs) /\
    ((exists pre path line col msg post row,
         first_diagnostic stderr_content pre path line col msg post /\
         (length line <= int_max_str_digits)%nat /\ py_int line = Some row /\
         r = Ok tt /\ evs = located_error_report row msg) \/
     (exists pre path line col msg post,
         first_diagnostic stderr_content pre path line col msg post /\
         (int_max_str_digits < length line)%nat /\
         r = Raise ValueError /\ evs = refused_line_report msg) \/
     (~ Contains _is_compile_error stderr_content /\
      r = Ok tt /\ exists quoted, evs = fallback_report exit_code quoted)).
Proof.
  intros Hfi.
  destruct (re_search _is_compile_error stderr_content) as [m|] eqn:Em.
  - pose proof (compile_error_run stderr_content exit_code st m Hfi Em) as Hrun.
    destruct (first_match_diagnostic _ _ Em)
      as (pre & path & line & col & msg & post & Hd & Gline & _ & Gmsg).
    rewrite Gline, Gmsg in Hrun.
    pose proof Hd as (_ & _ & _ & Hline & Fline & _).
    destruct (Nat.le_gt_cases (length line) int_max_str_digits) as [Hle|Hgt].
    + destruct (py_int_total _ Hline Fline Hle) as [row Hrow]. rewrite Hrow in Hrun.
      eexists _, _. split; [exact Hrun|]. left.
      exists pre, path, line, col, msg, post, row. auto.
    + rewrite (py_int_long _ Hgt) in Hrun.
      eexists _, _. split; [exact Hrun|]. right. left.
      exists pre, path, line, col, msg, post. auto.
  - eexists _, _. split.
    + unfold handle_compile_error. rewrite Hfi, Em. apply with_ret.
    + right. right. split; [apply re_search_not_contains; exact Em|].
      split; [reflexivity|]. eexists. reflexivity.
Qed.

(** X1. The classifier touches no temporary file and logs one report. It
    returns with a report of one of the three kinds, unless [int] refuses
    the line number of the first compiler diagnostic: then, and only then,
    it ends with [ValueError], the message of the located report opened and
    closed and no annotation made. That is the case exactly when the text
    holds no undefined reference and the line number of its first compiler
    diagnostic has more than 4300 digits. *)
Theorem handle_compile_error_reports_once stderr_content exit_code st :
  exists r evs,
    handle_compile_error stderr_content exit_code st = (r, add_log st evs) /\
    ((r = Ok tt /\
      ((exists listed, listed <> [] /\ evs = unresolved_symbols_report listed) \/
       (exists row message, evs = located_error_report row message) \/
       (exists quoted, evs = fallback_report exit_code quoted))) \/
     (r = Raise ValueError /\ exists message, evs = refused_line_report message)) /\
    (r = Raise ValueError <->
     ~ Contains _is_undefined_reference stderr_content /\
     exists pre path line col msg post,
       first_diagnostic stderr_content pre path line col msg post /\
       (int_max_str_digits < length line)%nat).
Proof.
  destruct (re_finditer _is_undefined_reference stderr_content) as [|m ms] eqn:Hfi.
  - assert (Hno : ~ Contains _is_undefined_reference stderr_content).
    { intros Hc. exact (re_finditer_complete _ _ Hc Hfi). }
    destruct (no_undefined_reference_run stderr_content exit_code st Hfi)
      as (r & evs & Hrun & H).
    exists r, evs. split; [exact Hrun|].
    destruct H as [(pre & path & line & col & msg & post & row & Hd & Hle & _ & -> & ->)
                  |[(pre & path & line & col & msg & post & Hd & Hgt & -> & ->)
                  |(Hnc & -> & quoted & ->)]].
    + split; [left; split; [reflexivity | right; left; eauto]|].
      split; [discriminate|].
      intros (_ & pre' & path' & line' & col' & msg' & post' & Hd' & Hgt).
      destruct (first_diagnostic_unique _ _ _ _ _ _ _ _ _ _ _ _ _ Hd Hd')
        as (_ & _ & -> & _). lia.
    + split; [right; split; [reflexivity | eauto]|].
      split; [|reflexivity]. intros _. split; [exact Hno|].
      exists pre, path, line, col, msg, post. auto.
    + split; [left; split; [reflexivity | right; right; eauto]|].
      split; [discriminate|].
      intros (_ & pre' & path' & line' & col' & msg' & post' & Hd' & _).
      exfalso. apply Hnc.
      destruct Hd' as (Hs & Hpath & Fpath & Hline & Fline & Hcol & Fcol & Hmsg & Fmsg & _).
      eexists pre', _, post', _. split; [exact Hs|].
      apply compile_error_intro; assumption.
  - assert (Hms : re_finditer _is_undefined_reference stderr_content <> [])
      by (rewrite Hfi; discriminate).
    eexists _, _. split; [exact (undefined_references_run _ exit_code st Hms)|].
    split.
    + left. split; [reflexivity|]. left. eexists. split; [|reflexivity].
      apply set_iter_nonempty. rewrite Hfi. discriminate.
    + split; [discriminate|]. intros (Hno & _). exfalso. apply Hno.
      assert (Hin : In m (re_finditer _is_undefined_reference stderr_content))
        by (rewrite Hfi; left; reflexivity).
      apply finditer_from_sound in Hin. destruct Hin as (pre & w & post & Hs & Hm).
      exists pre, w, post, (m_groups m). auto.
Qed.

(** X2. Every name the classifier extracts is the text between the backquote
    after [undefined reference to] and the next quote: it holds no quote
    character, and it stands in the build output in that place. *)
Theorem missing_references_are_quoted_names stderr_content :
  Forall (fun m =>
            let name := group m "missing_reference" in
            Forall (fun c => c <> chr "'") name /\
            str_in (u "): undefined reference to `" ++ name ++ u "'") stderr_content = true)
         (re_finditer _is_undefined_reference stderr_content).
Proof.
  apply List.Forall_forall. intros m Hm.
  apply finditer_from_sound in Hm. destruct Hm as (pre & w & post & Hs & Hm).
  destruct (undefined_reference_shape _ _ _ Hm)
    as (rest & onl & file & ext & sect & name & Hw & Hg & _ & _ & _ & _ & _ & _ & Fname).
  unfold group. rewrite Hg.
  cbn [group_lookup String.eqb Ascii.eqb Bool.eqb default from_option id].
  split; [exact Fname|]. apply str_in_spec.
  exists (pre ++ u "/usr/bin/ld: " ++ rest ++ onl ++ file ++ u "." ++ ext ++ u ":(" ++ sect), post.
  rewrite Hs, Hw. rewrite <- !app_assoc. reflexivity.
Qed.

(** X3. The linker's complaints are recognised only behind the literal
    [/usr/bin/ld: ] and only for a location in a [.h] or [.cpp] file: a text
    without that prefix, or with neither [.h:(] nor [.cpp:(] in it, is never
    reported as unresolved symbols, whatever undefined references it
    mentions. It gets a located error or the fallback, or, when the line
    number of its first compiler diagnostic has more than 4300 digits, the
    run ends with [ValueError], the message alone opened and closed. *)
Theorem other_linker_output_is_not_unresolved stderr_content exit_code st :
  str_in (u "/usr/bin/ld: ") stderr_content = false \/
  (str_in (u ".h:(") stderr_content = false /\ str_in (u ".cpp:(") stderr_content = false) ->
  exists r evs,
    handle_compile_error stderr_content exit_code st = (r, add_log st evs) /\
    ((r = Ok tt /\
      ((exists row message, evs = located_error_report row message) \/
       (exists quoted, evs = fallback_report exit_code quoted))) \/
     (r = Raise ValueError /\
      exists pre path line col msg post,
        first_diagnostic stderr_content pre path line col msg post /\
        (int_max_str_digits < length line)%nat /\
        evs = refused_line_report msg)) /\
    (forall listed, evs <> unresolved_symbols_report listed).
Proof.
  intros Hno.
  assert (Hfi : re_finditer _is_undefined_reference stderr_content = []).
  { apply re_finditer_none. intros (pre & w & post & g & Hs & Hm).
    destruct (undefined_reference_shape _ _ _ Hm)
      as (rest & onl & file & ext & sect & name & Hw & _ & _ & _ & _ & _ & Hext & _).
    subst w.
    assert (Hld : str_in (u "/usr/bin/ld: ") stderr_content = true).
    { apply str_in_spec. exists pre. eexists. rewrite Hs, <- !app_assoc. reflexivity. }
    assert (Hloc : str_in (u "." ++ ext ++ u ":(") stderr_content = true).
    { apply str_in_spec. exists (pre ++ u "/usr/bin/ld: " ++ rest ++ onl ++ file).
      eexists. rewrite Hs, <- !app_assoc. reflexivity. }
    destruct Hno as [Hno|[Hh Hcpp]]; [congruence|].
    destruct Hext as [-> | ->].
    - change (u "." ++ u "h" ++ u ":(") with (u ".h:(") in Hloc. congruence.
    - change (u "." ++ u "cpp" ++ u ":(") with (u ".cpp:(") in Hloc. congruence. }
  destruct (no_undefined_reference_run stderr_content exit_code st Hfi)
    as (r & evs & Hrun & H).
  exists r, evs. split; [exact Hrun|].
  destruct H as [(pre & path & line & col & msg & post & row & Hd & Hle & _ & -> & ->)
                |[(pre & path & line & col & msg & post & Hd & Hgt & -> & ->)
                |(Hnc & -> & quoted & ->)]].
  - split; [left; split; [reflexivity | left; eauto]|]. intros listed. discriminate.
  - split; [right; split; [reflexivity|]; exists pre, path, line, col, msg, post; auto|].
    intros listed. discriminate.
  - split; [left; split; [reflexivity | right; eauto]|].
    intros listed Heq. injection Heq as Heq. vm_compute in Heq. discriminate.
Qed.

End CompileErrorMore.

(** ** judge.py: where the generated output lies *)

Lemma removelast_last_path (rel : path) : rel <> [] -> rel = path_parent rel ++ [path_name rel].
Proof. intros H. apply app_removelast_last. exact H. Qed.

(** X5. The two files of generated output lie in the folder [Output] next to
    the target of the fixture; they differ from each other, and the files of
    two fixtures (below the evaluation folder) coincide only when the
    fixtures do: no test reads the output of another. *)
Theorem output_files_are_separate src1 src2 eval build rel1 rel2 st :
  relative_to src1 eval = Some rel1 -> rel1 <> [] ->
  relative_to src2 eval = Some rel2 -> rel2 <> [] ->
  exists out1 err1 out2 err2,
    get_test_output_files src1 eval build st = (Ok (out1, err1), st) /\
    get_test_output_files src2 eval build st = (Ok (out2, err2), st) /\
    path_parent out1 = path_parent (build ++ [u "test"] ++ rel1) ++ [u "Output"] /\
    path_parent err1 = path_parent out1 /\
    out1 <> err2 /\
    (out1 = out2 \/ err1 = err2 -> src1 = src2).
Proof.
  intros H1 N1 H2 N2.
  rewrite (get_test_output_files_run _ _ _ _ _ H1), (get_test_output_files_run _ _ _ _ _ H2).
  eexists _, _, _, _. split; [reflexivity|]. split; [reflexivity|].
  pose proof (relative_to_Some _ _ _ H1) as E1. pose proof (relative_to_Some _ _ _ H2) as E2.
  assert (Hn1 : path_name src1 = path_name rel1) by (rewrite E1; apply path_name_app; exact N1).
  assert (Hn2 : path_name src2 = path_name rel2) by (rewrite E2; apply path_name_app; exact N2).
  assert (Hpar : forall (a : path) x, path_parent (a ++ [x]) = a)
    by (intros a x; apply removelast_last).
  split.
  { rewrite !app_assoc, Hpar. f_equal. rewrite <- !app_assoc.
    rewrite (removelast_last_path rel1 N1) at 2. rewrite !app_assoc, Hpar. reflexivity. }
  split; [rewrite !app_assoc, !Hpar; reflexivity|].
  assert (Hinj : forall sfx n1 n2,
            build ++ [u "test"] ++ path_parent rel1 ++ [u "Output"] ++ [n1 ++ sfx] =
            build ++ [u "test"] ++ path_parent rel2 ++ [u "Output"] ++ [n2 ++ sfx] ->
            path_parent rel1 = path_parent rel2 /\ n1 = n2).
  { intros sfx n1 n2 H. apply app_inv_head in H. apply app_inv_head in H.
    rewrite !app_assoc in H. apply app_inj_tail in H. destruct H as [H Hn].
    apply app_inj_tail in H. destruct H as [H _].
    apply app_inv_tail in Hn. auto. }
  split.
  - intros H. apply app_inv_head in H. apply app_inv_head in H.
    rewrite !app_assoc in H. apply app_inj_tail in H. destruct H as [_ H].
    apply (f_equal (@rev _)) in H. rewrite !rev_app_distr in H. discriminate.
  - intros [H|H]; apply Hinj in H; destruct H as [Hp Hn];
      rewrite Hn1, Hn2 in Hn;
      rewrite E1, E2, (removelast_last_path rel1 N1), (removelast_last_path rel2 N2), Hp, Hn;
      reflexivity.
Qed.

(** ** judge.py: what [_test_run_helper] returns *)

(** A run of [_test_run_helper] that returns: the fixture lies below the
    evaluation folder, the tool ran on its target and left a report with a
    status and a duration, and the outcome holds the verdict of the exit
    code; a custom fixture has no texts, any other one the texts of its two
    expectation files (empty for a missing one) and of its two files of
    generated output, which exist. *)
Lemma _test_run_helper_returns w src eo ee eval build st o st1 :
  _test_run_helper w src eo ee eval build st = (Ok o, st1) ->
  exists rel rc t,
    let target := build ++ [u "test"] ++ rel in
    let tmp := fresh (tmp_files st) in
    let out_dir := build ++ [u "test"] ++ path_parent rel ++ [u "Output"] in
    let gen_out := out_dir ++ [path_name src ++ u ".tmp.stdout"] in
    let gen_err := out_dir ++ [path_name src ++ u ".tmp.stderr"] in
    let ran := opt_read_events w eo ++ opt_read_events w ee ++
               [MkTemp tmp; Lit target tmp; OpenTemp tmp; Remove tmp] in
    relative_to src eval = Some rel /\
    lit w target = LitExit rc (Some t) /\
    correct o = (rc =? 0)%Z /\ code t = Some (o_status o) /\ elapsed t = Some (duration o) /\
    if endswith (path_name target) (u ".custom.c") then
      expected_output o = None /\ expected_error o = None /\
      generated_output o = None /\ generated_error o = None /\
      st1 = add_log st ran
    else
      expected_output o = Some (text_at w eo) /\ expected_error o = Some (text_at w ee) /\
      generated_output o = Some (text_at w gen_out) /\
      generated_error o = Some (text_at w gen_err) /\
      (exists text utf, lookup_path (fs w) gen_out = Some (File text utf)) /\
      (exists text utf, lookup_path (fs w) gen_err = Some (File text utf)) /\
      st1 = add_log st (ran ++ [Open gen_out; Open gen_err]).
Proof.
  unfold _test_run_helper. intros H.
  rewrite (bind_run _ _ _ _ _ (opt_read_result w eo st)) in H.
  destruct (lookup_path (fs w) eo) as [[text1 utf1|es1]|] eqn:E1; try discriminate H.
  all: rewrite (bind_run _ _ _ _ _ (opt_read_result w ee _)), add_log_app in H.
  all: destruct (lookup_path (fs w) ee) as [[text2 utf2|es2]|] eqn:E2; try discriminate H.
  all: rewrite (bind_run _ _ _ _ _ (of_option_run _ _ _)) in H.
  all: destruct (relative_to src eval) as [rel|] eqn:Hrel; [|discriminate H].
  all: rewrite lit_block_run in H; cbn zeta in H.
  all: change (tmp_files (add_log st ?x)) with (tmp_files st) in H.
  all: destruct (lit w (build ++ [u "test"] ++ rel)) as [|rc [t|]] eqn:Hlit; try discriminate H.
  all: rewrite add_log_app in H; cbn [fst snd] in H.
  all: rewrite (bind_run _ _ _ _ _ (of_option_run _ _ _)) in H.
  all: destruct (code t) as [test_status|] eqn:Hcode; [|discriminate H].
  all: rewrite (bind_run _ _ _ _ _ (of_option_run _ _ _)) in H.
  all: destruct (elapsed t) as [test_duration|] eqn:Helapsed; [|discriminate H].
  all: exists rel, rc, t; cbn zeta.
  all: split; [reflexivity|]; split; [exact Hlit|].
  all: destruct (endswith (path_name (build ++ [u "test"] ++ rel)) (u ".custom.c")).
  all: try (unfold ret in H; injection H as <- <-; rewrite <- !app_assoc;
            cbn [expected_output expected_error generated_output generated_error correct
                 o_status duration];
            repeat (split; [first [reflexivity | assumption]|]); reflexivity).
  all: rewrite (bind_run _ _ _ _ _ (get_test_output_files_run _ _ _ _ _ Hrel)) in H.
  all: cbn [fst snd] in H.
  all: rewrite (bind_run _ _ _ _ _ (read_text_run _ _ _ _)), add_log_app in H.
  all: destruct (lookup_path (fs w)
                  (build ++ [u "test"] ++ path_parent rel ++ [u "Output"] ++
                   [path_name src ++ u ".tmp.stdout"])) as [[t1 u1|d1]|] eqn:G1;
         try discriminate H.
  all: cbn [andb] in H.
  all: rewrite (bind_run _ _ _ _ _ (read_text_run _ _ _ _)), add_log_app in H.
  all: destruct (lookup_path (fs w)
                  (build ++ [u "test"] ++ path_parent rel ++ [u "Output"] ++
                   [path_name src ++ u ".tmp.stderr"])) as [[t2 u2|d2]|] eqn:G2;
         try discriminate H.
  all: cbn [andb] in H; unfold ret in H; injection H as <- <-.
  all: unfold text_at; rewrite ?E1, ?E2.
  all: rewrite <- !app_assoc in *; rewrite G1, G2.
  all: cbn [expected_output expected_error generated_output generated_error correct
            o_status duration].
  all: repeat (split; [first [reflexivity | assumption]|]).
  all: split; [eauto|]; split; [eauto|]; rewrite <- ?app_assoc; reflexivity.
Qed.

(** X6. For a fixture that is not a custom one, an outcome of
    [_test_run_helper] holds four texts, none of them null: the texts of the
    two expectation files, a missing file counting as empty, and the texts
    of the two files of generated output, which the helper opens and which
    have to exist. The verdict is the exit code of the tool alone: the texts
    are not compared. *)
Theorem ordinary_fixture_outcome w src eo ee eval build st o st1 :
  _test_run_helper w src eo ee eval build st = (Ok o, st1) ->
  src <> eval ->
  endswith (path_name src) (u ".custom.c") = false ->
  exists rel rc t gen_out gen_err,
    relative_to src eval = Some rel /\
    get_test_output_files src eval build st = (Ok (gen_out, gen_err), st) /\
    lit w (build ++ [u "test"] ++ rel) = LitExit rc (Some t) /\
    correct o = (rc =? 0)%Z /\ code t = Some (o_status o) /\ elapsed t = Some (duration o) /\
    expected_output o = Some (text_at w eo) /\
    expected_error o = Some (text_at w ee) /\
    generated_output o = Some (text_at w gen_out) /\
    generated_error o = Some (text_at w gen_err) /\
    (exists text utf, lookup_path (fs w) gen_out = Some (File text utf)) /\
    (exists text utf, lookup_path (fs w) gen_err = Some (File text utf)) /\
    In (Open gen_out) (log st1) /\ In (Open gen_err) (log st1).
Proof.
  intros H Hne Hc.
  destruct (_test_run_helper_returns _ _ _ _ _ _ _ _ _ H)
    as (rel & rc & t & Hrel & Hlit & Hcor & Hcode & Hel & Hrest).
  assert (Nrel : rel <> []).
  { intros ->. apply Hne. rewrite (relative_to_Some _ _ _ Hrel). apply app_nil_r. }
  assert (Hname : endswith (path_name (build ++ [u "test"] ++ rel)) (u ".custom.c") = false).
  { rewrite app_assoc, (path_name_app _ rel Nrel).
    rewrite (relative_to_Some _ _ _ Hrel), (path_name_app _ rel Nrel) in Hc. exact Hc. }
  rewrite Hname in Hrest.
  destruct Hrest as (Heo & Hee & Hgo & Hge & Fo & Fe & ->).
  rewrite <- !app_assoc in Hgo, Hge, Fo, Fe.
  eexists rel, rc, t, _, _. split; [exact Hrel|].
  split; [rewrite (get_test_output_files_run _ _ _ _ _ Hrel); reflexivity|].
  split; [exact Hlit|]. split; [exact Hcor|]. split; [exact Hcode|]. split; [exact Hel|].
  split; [exact Heo|]. split; [exact Hee|]. split; [exact Hgo|]. split; [exact Hge|].
  split; [exact Fo|]. split; [exact Fe|].
  cbn [log add_log]. rewrite <- !app_assoc.
  split; repeat (apply in_or_app; right); simpl; auto 10.
Qed.

(** X7. A fixture that does not lie below the evaluation folder is not run:
    [_test_run_helper] raises, and all it has done by then is to open
    expectation files; no temporary file is made and the tool is not
    started. *)
Theorem fixture_outside_evaluation_is_not_run w src eo ee eval build st :
  relative_to src eval = None ->
  exists e evs,
    _test_run_helper w src eo ee eval build st = (Raise e, add_log st evs) /\
    (forall ev, In ev evs -> ev = Open eo \/ ev = Open ee) /\
    (e = ValueError \/ e = IsADirectoryError).
Proof.
  intros Hrel. unfold _test_run_helper.
  assert (Ho : forall p ev, In ev (opt_read_events w p) -> ev = Open p).
  { intros p ev. unfold opt_read_events. destruct (path_exists w p); simpl; intuition. }
  rewrite (bind_run _ _ _ _ _ (opt_read_result w eo st)).
  destruct (lookup_path (fs w) eo) as [[text1 utf1|es1]|] eqn:E1.
  2:{ eexists _, _. split; [reflexivity|]. split; [|auto]. intros ev Hev. left. eauto. }
  all: rewrite (bind_run _ _ _ _ _ (opt_read_result w ee _)), add_log_app.
  all: assert (Hevs : forall ev, In ev (opt_read_events w eo ++ opt_read_events w ee) ->
                        ev = Open eo \/ ev = Open ee)
         by (intros ev Hev; apply in_app_iff in Hev; destruct Hev; eauto).
  all: destruct (lookup_path (fs w) ee) as [[text2 utf2|es2]|] eqn:E2.
  all: try (eexists _, _; split; [reflexivity|]; split; [exact Hevs | auto]; fail).
  all: rewrite (bind_run _ _ _ _ _ (of_option_run _ _ _)), Hrel.
  all: eexists _, _; split; [reflexivity|]; split; [exact Hevs | auto].
Qed.

(** ** judge.py: what [run_test] reports *)

(** The report of [run_test] once the helper has returned, with the
    description of its test node. *)
Lemma run_test_run w src eo ee eval build st o st1 text rel :
  _test_run_helper w src eo ee eval build st = (Ok o, st1) ->
  lookup_path (fs w) src = Some (File text true) ->
  relative_to src eval = Some rel ->
  let unexpected_error :=
    negb (truthy (expected_error o)) && truthy (generated_error o) in
  let test :=
    Test (test_description rel text)
         (if truthy (expected_error o) then expected_error o else expected_output o) in
  run_test w src eo ee eval build st =
  (Ok (Counter_of (if correct o then 1 else 0) 1),
   add_log st1
     ([Open src; Start test] ++
      (if unexpected_error
       then [Start (unexpected_error_message (default [] (generated_error o)));
             Close (unexpected_error_message (default [] (generated_error o))) []]
       else if str_eqb (o_status o) (u "TIMEOUT")
       then [Start (timeout_message (duration o)); Close (timeout_message (duration o)) []]
       else []) ++
      [Close test
         [if correct o then _status_correct else _status_wrong;
          generated (if truthy (expected_error o) then generated_error o
                     else generated_output o)]])).
Proof.
  intros Hh Hsrc Hrel. cbn zeta. unfold run_test.
  rewrite (bind_run _ _ _ _ _ Hh).
  rewrite (bind_run _ _ _ _ _ (read_text_run _ _ _ _)), Hsrc. cbn [andb negb].
  rewrite (bind_run _ _ _ _ _ (of_option_run _ _ _)), Hrel.
  unfold test_description, shown_code.
  destruct (truthy (expected_error o)); cbn [negb andb].
  - destruct (str_eqb (o_status o) (u "TIMEOUT"));
      unfold with_attrs, warn_timeout, with_, with_attrs, bind, emit, ret, add_log;
      simpl; rewrite <- !app_assoc; reflexivity.
  - destruct (truthy (generated_error o)); [|destruct (str_eqb (o_status o) (u "TIMEOUT"))];
      unfold with_attrs, warn_timeout, warn_unexpected_error, with_, with_attrs, bind, emit,
        ret, add_log; simpl; rewrite <- !app_assoc; reflexivity.
Qed.

(** A run of [run_test] that returns: the helper returned, and the fixture
    is a file below the evaluation folder that decodes as UTF-8. *)
Lemma run_test_returns w src eo ee eval build st c st2 :
  run_test w src eo ee eval build st = (Ok c, st2) ->
  exists o st1 text rel,
    _test_run_helper w src eo ee eval build st = (Ok o, st1) /\
    lookup_path (fs w) src = Some (File text true) /\
    relative_to src eval = Some rel.
Proof.
  intros H. unfold run_test in H.
  destruct (_test_run_helper w src eo ee eval build st) as [[o|e] st1] eqn:Hh.
  2:{ rewrite (bind_run _ _ _ _ _ Hh) in H. discriminate H. }
  rewrite (bind_run _ _ _ _ _ Hh) in H.
  rewrite (bind_run _ _ _ _ _ (read_text_run _ _ _ _)) in H.
  destruct (lookup_path (fs w) src) as [[text [|]|es]|] eqn:Hsrc; try discriminate H.
  cbn [andb negb] in H.
  rewrite (bind_run _ _ _ _ _ (of_option_run _ _ _)) in H.
  destruct (relative_to src eval) as [rel|] eqn:Hrel; [|discriminate H].
  eauto 8.
Qed.

(** X8. The test node of a fixture shows its code cut to ten lines: a fixture of
    at most ten lines is shown whole; of a longer one the first nine lines
    are shown, newlines included, followed by a remark in place of the
    rest. *)
Theorem shown_code_is_cut_to_ten_lines w src eo ee eval build st c st2 :
  run_test w src eo ee eval build st = (Ok c, st2) ->
  exists text rel expected,
    lookup_path (fs w) src = Some (File text true) /\
    relative_to src eval = Some rel /\
    In (Start (Test {| d_description :=
                         u " &#x1F4C4; " ++ path_str rel ++ nl ++
                         (u "```c" ++ nl ++ shown_code text ++ nl ++ u "```");
                       d_format := MARKDOWN |} expected)) (log st2) /\
    (((length (readlines text) <= 10)%nat /\ shown_code text = text) \/
     ((10 < length (readlines text))%nat /\
      exists head rest,
        text = head ++ nl ++ rest /\ rest <> [] /\ count_nl (head ++ nl) = 9%nat /\
        shown_code text = head ++ nl ++ u "... // Remainder of code omitted")).
Proof.
  intros H.
  destruct (run_test_returns _ _ _ _ _ _ _ _ _ H) as (o & st1 & text & rel & Hh & Hsrc & Hrel).
  pose proof (run_test_run _ _ _ _ _ _ _ _ _ _ _ Hh Hsrc Hrel) as Hrun. cbn zeta in Hrun.
  rewrite Hrun in H. injection H as _ <-.
  eexists text, rel, _. split; [exact Hsrc|]. split; [exact Hrel|].
  split; [|apply shown_code_cases].
  cbn [log add_log]. apply in_or_app. right. right. left. reflexivity.
Qed.

(** X9. When the expected error of a fixture is not empty, the test is about
    the error stream: its node expects that text and is closed with the
    generated error as the generated text, the standard output playing no
    part; the unexpected-error warning is never attached, and the only
    warning there can be is the one for a timeout. *)
Theorem expected_error_selects_the_error_stream
    w src eo ee eval build st o st1 text rel expected :
  _test_run_helper w src eo ee eval build st = (Ok o, st1) ->
  lookup_path (fs w) src = Some (File text true) ->
  relative_to src eval = Some rel ->
  expected_error o = Some expected -> expected <> [] ->
  let test := Test (test_description rel text) (Some expected) in
  run_test w src eo ee eval build st =
  (Ok (Counter_of (if correct o then 1 else 0) 1),
   add_log st1
     ([Open src; Start test] ++
      (if str_eqb (o_status o) (u "TIMEOUT")
       then [Start (timeout_message (duration o)); Close (timeout_message (duration o)) []]
       else []) ++
      [Close test [if correct o then _status_correct else _status_wrong;
                   generated (generated_error o)]])).
Proof.
  intros Hh Hsrc Hrel He Hne. cbn zeta.
  rewrite (run_test_run _ _ _ _ _ _ _ _ _ _ _ Hh Hsrc Hrel). cbn zeta.
  rewrite He. destruct expected as [|x expected]; [contradiction|]. reflexivity.
Qed.

(** X10. The test node of a custom fixture expects nothing and is closed with no
    generated text; it never gets the unexpected-error warning, and gets the
    timeout warning exactly when the tool reports the status TIMEOUT. *)
Theorem custom_fixture_report w src eo ee eval build st o st1 text rel :
  _test_run_helper w src eo ee eval build st = (Ok o, st1) ->
  lookup_path (fs w) src = Some (File text true) ->
  relative_to src eval = Some rel -> rel <> [] ->
  endswith (path_name src) (u ".custom.c") = true ->
  let test := Test (test_description rel text) None in
  run_test w src eo ee eval build st =
  (Ok (Counter_of (if correct o then 1 else 0) 1),
   add_log st1
     ([Open src; Start test] ++
      (if str_eqb (o_status o) (u "TIMEOUT")
       then [Start (timeout_message (duration o)); Close (timeout_message (duration o)) []]
       else []) ++
      [Close test [if correct o then _status_correct else _status_wrong; generated None]])).
Proof.
  intros Hh Hsrc Hrel Nrel Hc. cbn zeta.
  rewrite (run_test_run _ _ _ _ _ _ _ _ _ _ _ Hh Hsrc Hrel). cbn zeta.
  destruct (_test_run_helper_returns _ _ _ _ _ _ _ _ _ Hh)
    as (rel' & rc & t & Hrel' & _ & _ & _ & _ & Hrest).
  rewrite Hrel in Hrel'. injection Hrel' as <-.
  assert (Hname : endswith (path_name (build ++ [u "test"] ++ rel)) (u ".custom.c") = true).
  { rewrite app_assoc, (path_name_app _ rel Nrel).
    rewrite (relative_to_Some _ _ _ Hrel), (path_name_app _ rel Nrel) in Hc. exact Hc. }
  rewrite Hname in Hrest. destruct Hrest as (-> & -> & -> & -> & _). reflexivity.
Qed.

(** X11. The verdict of a test is the exit code of the tool and nothing else: a
    run of [run_test] that returns counts one test, correct exactly when the
    tool exited with 0 on the target of the fixture, and closes the test
    node with the status of that verdict. Neither the status the report
    names nor a comparison of expected and generated texts enters it. *)
Theorem verdict_is_the_exit_code w src eo ee eval build st c st2 :
  run_test w src eo ee eval build st = (Ok c, st2) ->
  c = Counter_of (if passes w eval build src then 1 else 0) 1 /\
  exists evs test g,
    st2 = add_log st (evs ++ [Close test [if passes w eval build src
                                          then _status_correct else _status_wrong;
                                          generated g]]).
Proof.
  intros H.
  destruct (run_test_returns _ _ _ _ _ _ _ _ _ H) as (o & st1 & text & rel & Hh & Hsrc & Hrel).
  pose proof (run_test_run _ _ _ _ _ _ _ _ _ _ _ Hh Hsrc Hrel) as Hrun. cbn zeta in Hrun.
  rewrite Hrun in H.
  pose proof (f_equal snd H) as Hs. pose proof (f_equal fst H) as Hc.
  cbn [fst snd] in Hs, Hc. injection Hc as <-. subst st2. clear H.
  destruct (_test_run_helper_returns _ _ _ _ _ _ _ _ _ Hh)
    as (rel' & rc & t & Hrel' & Hlit & Hcor & _ & _ & Hrest).
  rewrite Hrel in Hrel'. injection Hrel' as <-.
  assert (Hp : passes w eval build src = correct o).
  { unfold passes. rewrite Hrel, Hlit. symmetry. exact Hcor. }
  rewrite Hp. split; [reflexivity|].
  assert (Hst : exists ran, st1 = add_log st ran).
  { destruct (endswith _ _); [destruct Hrest as (_ & _ & _ & _ & ->) |
                              destruct Hrest as (_ & _ & _ & _ & _ & _ & ->)]; eauto. }
  destruct Hst as [ran ->]. rewrite add_log_app.
  match goal with
  | |- context [add_log st (ran ++ ?a ++ ?b ++ [Close ?t [_; generated ?g]])] =>
      exists (ran ++ a ++ b), t, g
  end.
  rewrite <- !app_assoc. reflexivity.
Qed.

(** X12. A fixture that cannot be read as UTF-8 text gets no test node:
    [run_test] raises, and all it has logged by then are file and tool
    operations, no report node. When the helper has returned, so that the
    tool has run and its verdict is there, the error is the decoding error
    of the fixture, raised right after the fixture was opened. (The
    expectation files and the generated output are decoded leniently, and
    never fail this way.) *)
Theorem undecodable_fixture_gets_no_test_node w src eo ee eval build st text :
  lookup_path (fs w) src = Some (File text false) ->
  exists e evs,
    run_test w src eo ee eval build st = (Raise e, add_log st evs) /\
    Forall (fun ev => tool_event ev = true) evs /\
    (forall o st1,
       _test_run_helper w src eo ee eval build st = (Ok o, st1) ->
       e = UnicodeDecodeError /\ add_log st evs = add_log st1 [Open src]).
Proof.
  intros Hsrc.
  destruct (helper_spec w src eo ee eval build st) as (r & hevs & Hrun & Hev & _).
  assert (Htool : Forall (fun ev => tool_event ev = true) hevs).
  { eapply List.Forall_impl; [|exact Hev]. intros ev [Ht _]. exact Ht. }
  unfold run_test. rewrite (bind_run _ _ _ _ _ Hrun). destruct r as [o|e].
  - rewrite (bind_run _ _ _ _ _ (read_text_run _ _ _ _)), Hsrc, add_log_app.
    exists UnicodeDecodeError, (hevs ++ [Open src]). split; [reflexivity|]. split.
    + apply Forall_app. split; [exact Htool | repeat constructor].
    + intros o' st1 H. rewrite Hrun in H. injection H as _ <-. rewrite add_log_app. auto.
  - exists e, hevs. split; [reflexivity|]. split; [exact Htool|].
    intros o st1 H. rewrite Hrun in H. discriminate H.
Qed.
(** ** judge.py: what the group runners count *)

Lemma bind_returns {A B} (m : M A) (k : A -> M B) st b st' :
  bind m k st = (Ok b, st') ->
  exists a st1, m st = (Ok a, st1) /\ k a st1 = (Ok b, st').
Proof.
  unfold bind. destruct (m st) as [[a|e] st1]; [eauto | discriminate].
Qed.

Lemma with_attrs_returns {A} n (body : M (A * list attr)) st a st' :
  with_attrs n body st = (Ok a, st') ->
  exists attrs st1,
    body (add_log st [Start n]) = (Ok (a, attrs), st1) /\ st' = add_log st1 [Close n attrs].
Proof.
  unfold with_attrs. rewrite (bind_run _ _ _ _ _ (emit_run _ _)).
  destruct (body (add_log st [Start n])) as [[[a' attrs]|e] st1].
  - rewrite (bind_run _ _ _ _ _ (emit_run _ _)). unfold ret. intros H.
    injection H as <- <-. eauto.
  - rewrite (bind_run _ _ _ _ _ (emit_run _ _)). discriminate.
Qed.

Lemma with_returns {A} n (body : M A) st a st' :
  with_ n body st = (Ok a, st') -> exists st1, body (add_log st [Start n]) = (Ok a, st1).
Proof.
  unfold with_. intros H. apply with_attrs_returns in H. destruct H as (attrs & st1 & H & _).
  apply bind_returns in H. destruct H as (a' & st2 & H & Hr). unfold ret in Hr.
  injection Hr as <- _ <-. eauto.
Qed.

(** A loop that returns has run its body on every element, in order, each
    time from the state the last round left. *)
Lemma for_each_returns {A S} (I : list A -> S -> state -> Prop) (body : A -> S -> M S) :
  (forall done x acc st a st',
     I done acc st -> body x acc st = (Ok a, st') -> I (done ++ [x]) a st') ->
  forall xs done acc st r st',
    I done acc st -> for_each xs body acc st = (Ok r, st') -> I (done ++ xs) r st'.
Proof.
  intros Hbody. induction xs as [|x xs IH]; intros done acc st r st' HI H.
  - unfold for_each, ret in H. injection H as <- <-. rewrite app_nil_r. exact HI.
  - cbn [for_each] in H. apply bind_returns in H. destruct H as (a & st1 & Hx & H).
    change (x :: xs) with ([x] ++ xs). rewrite app_assoc.
    eapply IH; [|exact H]. eapply Hbody; eauto.
Qed.

Lemma helper_verdict w src eo ee eval build st o st1 :
  _test_run_helper w src eo ee eval build st = (Ok o, st1) ->
  correct o = passes w eval build src.
Proof.
  intros H. destruct (_test_run_helper_returns _ _ _ _ _ _ _ _ _ H)
    as (rel & rc & t & Hrel & Hlit & Hcor & _).
  unfold passes. rewrite Hrel, Hlit. exact Hcor.
Qed.

Lemma run_test_verdict w src eo ee eval build st c st2 :
  run_test w src eo ee eval build st = (Ok c, st2) ->
  c = Counter_of (if passes w eval build src then 1 else 0) 1.
Proof.
  intros H.
  destruct (run_test_returns _ _ _ _ _ _ _ _ _ H) as (o & st1 & text & rel & Hh & Hsrc & Hrel).
  pose proof (run_test_run _ _ _ _ _ _ _ _ _ _ _ Hh Hsrc Hrel) as Hrun. cbn zeta in Hrun.
  rewrite Hrun in H. pose proof (f_equal fst H) as Hc. cbn [fst] in Hc. injection Hc as <-.
  rewrite (helper_verdict _ _ _ _ _ _ _ _ _ Hh). reflexivity.
Qed.

Lemma filter_snoc_length {A} (f : A -> bool) l x :
  Z.of_nat (length (List.filter f (l ++ [x]))) =
  (Z.of_nat (length (List.filter f l)) + (if f x then 1 else 0))%Z.
Proof.
  rewrite List.filter_app, length_app. simpl. destruct (f x); simpl; lia.
Qed.

Section GroupCounts.
Context `{RT : PythonRuntime}.

(** X13. A visible group counts its fixtures: when [run_test_case] returns, the
    total of its counter is the number of [*.c] entries directly in the
    folder, and the count of correct tests is the number of those on which
    the tool exited with 0. *)
Theorem run_test_case_counts w folder eval build st c st' :
  run_test_case w folder eval build st = (Ok c, st') ->
  counter_get c (u "total") = Z.of_nat (length (glob_c w folder)) /\
  counter_get c (u "correct") =
    Z.of_nat (length (List.filter (passes w eval build) (glob_c w folder))).
Proof.
  unfold run_test_case. intros H. apply with_returns in H. destruct H as [st1 H].
  pose (I := fun (done : list path) (res : gmap str Z) (_ : state) =>
               counter_nonneg res /\
               counter_get res (u "total") = Z.of_nat (length done) /\
               counter_get res (u "correct") =
                 Z.of_nat (length (List.filter (passes w eval build) done))).
  assert (HI : I ([] ++ glob_c w folder) c st1).
  { eapply (for_each_returns I); [|split; [|split]|exact H].
    - intros done src res st2 a st3 (Hn & Ht & Hc) Hb.
      apply bind_returns in Hb. destruct Hb as (c1 & st4 & Hrun & Hret).
      unfold ret in Hret. injection Hret as <- _.
      apply run_test_verdict in Hrun. subst c1.
      assert (Hn1 : counter_nonneg
                      (Counter_of (if passes w eval build src then 1 else 0) 1)).
      { apply (counter_unit_inv (passes w eval build src)). }
      split; [apply counter_iadd_nonneg; assumption|].
      rewrite !counter_get_iadd_nonneg by assumption.
      rewrite Ht, Hc, !counter_get_of, filter_snoc_length, length_app.
      repeat (destruct (decide _) as [?|?]; try discriminate; try congruence).
      simpl. split; lia.
    - intros key. unfold counter_get, Counter_empty. rewrite lookup_empty. simpl. lia.
    - reflexivity.
    - reflexivity. }
  destruct HI as (_ & Ht & Hc). auto.
Qed.

End GroupCounts.

Lemma counter_of_inj s n s' n' : Counter_of s n = Counter_of s' n' -> s = s' /\ n = n'.
Proof.
  intros H. split.
  - pose proof (counter_get_of s n (u "correct")) as A.
    rewrite H, counter_get_of in A. destruct (decide _); [auto | congruence].
  - pose proof (counter_get_of s n (u "total")) as A.
    rewrite H, counter_get_of in A.
    destruct (decide (u "total" = u "correct")); [discriminate|].
    destruct (decide _); [auto | congruence].
Qed.

(** X14. The hidden batch counts its fixtures: when [run_hidden_tests] returns,
    there is at least one [*.c] entry somewhere below the folder, the total
    is their number and the count of correct tests the number of those on
    which the tool exited with 0; before the summary the batch has logged
    file and tool operations only, and the summary is accepted exactly when
    every fixture passed. *)
Theorem hidden_batch_counts w hid eval build st c st' :
  run_hidden_tests w hid eval build st = (Ok c, st') ->
  let n := Z.of_nat (length (glob_rec_c w hid)) in
  let s := Z.of_nat (length (List.filter (passes w eval build) (glob_rec_c w hid))) in
  c = Counter_of s n /\ (0 < n)%Z /\
  exists evs bar,
    st' = add_log st (evs ++ hidden_summary bar s n) /\
    Forall (fun e => tool_event e = true) evs.
Proof.
  intros H. cbn zeta.
  destruct (run_hidden_tests_shape w hid eval build st) as (r & T & S & Hrun & HT & HS).
  rewrite Hrun in H. pose proof (f_equal fst H) as Hr. pose proof (f_equal snd H) as Hst.
  cbn [fst snd] in Hr, Hst. subst r st'. clear H.
  destruct HS as [[_ [e He]]|(bar & s & n & _ & -> & Hc)]; [discriminate|].
  injection Hc as Hc.
  unfold run_hidden_tests in Hrun.
  apply bind_returns in Hrun. destruct Hrun as (counts & st1 & Hloop & H).
  pose (I := fun (done : list path) (acc : Z * Z) (_ : state) =>
               acc.2 = Z.of_nat (length done) /\
               acc.1 = Z.of_nat (length (List.filter (passes w eval build) done))).
  assert (HI : I ([] ++ glob_rec_c w hid) counts st1).
  { eapply (for_each_returns I); [|split|exact Hloop].
    - intros done src acc st2 a st3 [Ht Hs] Hb.
      apply bind_returns in Hb. destruct Hb as (o & st4 & Hh & Hret).
      unfold ret in Hret. injection Hret as <- _.
      rewrite (helper_verdict _ _ _ _ _ _ _ _ _ Hh).
      split; cbn [fst snd].
      + rewrite Ht, length_app. simpl. lia.
      + rewrite Hs, filter_snoc_length. reflexivity.
    - reflexivity.
    - reflexivity. }
  destruct HI as [Ht Hs]. cbn [app] in Ht, Hs.
  apply bind_returns in H. destruct H as (bar' & st2 & Hbar & H).
  apply bind_returns in H. destruct H as (x & st3 & _ & H).
  unfold ret in H. injection H as H _. rewrite Hc in H.
  apply counter_of_inj in H. destruct H as [<- <-]. rewrite <- Ht, <- Hs.
  split; [exact Hc|]. split.
  - unfold success_bar in Hbar. destruct (counts.2 =? 0)%Z eqn:E; [discriminate Hbar|].
    apply Z.eqb_neq in E. lia.
  - exists T, bar. split; [reflexivity|].
    eapply List.Forall_impl; [|exact HT]. intros e0 [He0 _]. exact He0.
Qed.

(** ** judge.py: the success bar *)

Lemma bar_exact_upto_spec n :
  bar_exact_upto n = true ->
  forall s t, (0 <= s <= t)%Z -> (0 < t <= Z.of_nat n)%Z ->
    bar_length s t 20 = Some (20 * s / t)%Z.
Proof.
  unfold bar_exact_upto. intros H s t Hs Ht.
  rewrite forallb_forall in H.
  specialize (H (Z.to_nat (t - 1)) ltac:(apply in_seq; lia)).
  rewrite forallb_forall in H.
  specialize (H (Z.to_nat s) ltac:(apply in_seq; lia)).
  replace (Z.of_nat (S (Z.to_nat (t - 1)))) with t in H by lia.
  rewrite Z2Nat.id in H by lia.
  destruct (bar_length s t 20) as [k|]; [|discriminate H].
  apply Z.eqb_eq in H. subst k. reflexivity.
Qed.

Lemma bar_exact_upto_200 : bar_exact_upto 200 = true.
Proof. vm_compute. reflexivity. Qed.

(** X15. For up to 200 tests the success bar is exact: with [0 <= num_success <=
    num_total] and [0 < num_total <= 200], the floating-point computation
    fills [20 * num_success / num_total] cells, the exact quotient rounded
    down, and the bar is 20 cells long: no rounding error of the division
    or of the product shows in it. *)
Theorem success_bar_is_exact num_success num_total st :
  (0 <= num_success <= num_total)%Z -> (0 < num_total <= 200)%Z ->
  let filled := (20 * num_success / num_total)%Z in
  success_bar num_success num_total 20 st =
    (Ok (repeat 9608%N (Z.to_nat filled) ++ repeat 9617%N (Z.to_nat (20 - filled))), st) /\
  (0 <= filled <= 20)%Z /\
  forall bar, success_bar num_success num_total 20 st = (Ok bar, st) -> length bar = 20%nat.
Proof.
  intros Hs Ht. cbn zeta.
  assert (Hf : (0 <= 20 * num_success / num_total <= 20)%Z).
  { split; [apply Z.div_pos; lia|]. apply Z.div_le_upper_bound; lia. }
  assert (Hrun : success_bar num_success num_total 20 st =
            (Ok (repeat 9608%N (Z.to_nat (20 * num_success / num_total)) ++
                 repeat 9617%N (Z.to_nat (20 - 20 * num_success / num_total))), st)).
  { pose proof (bar_exact_upto_spec 200 bar_exact_upto_200 num_success num_total Hs) as H.
    specialize (H ltac:(lia)). unfold bar_length in H. unfold success_bar.
    destruct (num_total =? 0)%Z eqn:E; [apply Z.eqb_eq in E; lia|].
    unfold bind, of_option. rewrite H. reflexivity. }
  split; [exact Hrun|]. split; [exact Hf|].
  intros bar Hb. rewrite Hrun in Hb. injection Hb as <-.
  rewrite length_app, !repeat_length. lia.
Qed.

(** ** judge.py: the order of the work in a sub-rubric *)

Lemma add_log_inj st evs evs' : add_log st evs = add_log st evs' -> evs = evs'.
Proof.
  unfold add_log. intros H. injection H as H. apply app_inv_head in H. exact H.
Qed.

(** A run has one result and one log. *)
Lemma same_run {A} (m : M A) st r evs r' evs' :
  m st = (r, add_log st evs) -> m st = (r', add_log st evs') -> r = r' /\ evs = evs'.
Proof.
  intros H H'. rewrite H in H'. injection H' as -> H'.
  split; [reflexivity | exact (app_inv_head _ _ _ H')].
Qed.

Lemma outline_app eval build a b :
  outline eval build (a ++ b) = outline eval build a ++ outline eval build b.
Proof. unfold outline. apply flat_map_app. Qed.

Lemma outline_open eval build evs : Forall is_open evs -> outline eval build evs = [].
Proof.
  induction 1 as [|e evs [p ->] _ IH]; [reflexivity|]. simpl. exact IH.
Qed.

Lemma flat_map_singleton {A B} (f : A -> B) (xs : list A) :
  flat_map (fun x => [f x] ++ []) xs = map f xs.
Proof.
  induction xs as [|x xs IH]; [reflexivity|]. cbn [flat_map map]. rewrite IH. reflexivity.
Qed.

Lemma flat_map_skip {A B} (skip : A -> bool) (f : A -> list B) (xs : list A) :
  flat_map (fun x => if skip x then [] else f x ++ []) xs =
  flat_map f (List.filter (fun x => negb (skip x)) xs).
Proof.
  induction xs as [|x xs IH]; [reflexivity|]. cbn [flat_map List.filter].
  destruct (skip x); cbn [negb flat_map]; rewrite IH, ?app_nil_r; reflexivity.
Qed.

Section Plays.
Variables eval build : path.

Lemma plays_ret {A} (a : A) : plays eval build (ret a) [] True.
Proof.
  intros st. exists (Ok a), []. unfold ret. rewrite add_log_nil.
  split; [reflexivity|]. split; [eauto | auto].
Qed.

Lemma plays_iff {A} (m : M A) e e' (ok ok' : Prop) :
  e = e' -> (ok <-> ok') -> plays eval build m e ok -> plays eval build m e' ok'.
Proof.
  intros <- Hiff H st. destruct (H st) as (r & evs & Hrun & Hok & Hret).
  exists r, evs. split; [exact Hrun|]. split.
  - intros Hk. apply Hok, Hiff, Hk.
  - intros Hr. destruct (Hret Hr) as [Hk He]. split; [apply Hiff, Hk | exact He].
Qed.

Lemma plays_bind {A B} (m : M A) (k : A -> M B) e1 e2 (ok1 ok2 : Prop) :
  plays eval build m e1 ok1 -> (forall a, plays eval build (k a) e2 ok2) ->
  plays eval build (bind m k) (e1 ++ e2) (ok1 /\ ok2).
Proof.
  intros Hm Hk st. destruct (Hm st) as (r1 & evs1 & Hrun1 & Hok1 & Hret1).
  rewrite (bind_run _ _ _ _ _ Hrun1). destruct r1 as [a|e].
  - destruct (Hk a (add_log st evs1)) as (r2 & evs2 & Hrun2 & Hok2 & Hret2).
    exists r2, (evs1 ++ evs2). rewrite Hrun2, add_log_app. split; [reflexivity|].
    destruct (Hret1 ltac:(eauto)) as [H1 He1]. split.
    + intros [_ H2]. exact (Hok2 H2).
    + intros Hr. destruct (Hret2 Hr) as [H2 He2].
      split; [auto|]. rewrite outline_app, He1, He2. reflexivity.
  - exists (Raise e), evs1. split; [reflexivity|]. split.
    + intros [H1 _]. destruct (Hok1 H1) as [a Ha]. discriminate Ha.
    + intros [b Hb]. discriminate Hb.
Qed.

Lemma plays_for_each {A S} (body : A -> S -> M S) (e : A -> list mark) (ok : A -> Prop) :
  forall xs : list A,
    (forall x acc, In x xs -> plays eval build (body x acc) (e x) (ok x)) ->
    forall acc,
      plays eval build (for_each xs body acc) (flat_map e xs) (forall x, In x xs -> ok x).
Proof.
  induction xs as [|x xs IH]; intros Hbody acc.
  - apply plays_iff with (e := []) (ok := True); [reflexivity| |apply plays_ret].
    split; [intros _ x [] | auto].
  - cbn [for_each flat_map].
    apply plays_iff with (e := e x ++ flat_map e xs)
                         (ok := ok x /\ (forall y, In y xs -> ok y)); [reflexivity| |].
    + split.
      * intros [Hx Hxs] y [Hy|Hy]; [subst y; exact Hx | exact (Hxs y Hy)].
      * intros H. split; [apply H; left; reflexivity | intros y Hy; apply H; right; exact Hy].
    + apply plays_bind; [apply Hbody; left; reflexivity|].
      intros acc'. apply IH. intros y acc'' Hy. apply Hbody. right. exact Hy.
Qed.

Lemma plays_with_attrs {A} n (body : M (A * list attr)) e (ok : Prop) :
  plays eval build body e ok ->
  plays eval build (with_attrs n body) (outline eval build [Start n] ++ e) ok.
Proof.
  intros Hb st. destruct (Hb (add_log st [Start n])) as (r & evs & Hrun & Hok & Hret).
  rewrite (with_attrs_run _ _ _ r evs Hrun). eexists _, _. split; [reflexivity|]. split.
  - intros H. destruct (Hok H) as [[a attrs] ->]. eauto.
  - intros [a Ha]. destruct r as [[a' attrs]|e']; [|discriminate Ha].
    destruct (Hret ltac:(eauto)) as [H He]. split; [exact H|].
    rewrite !outline_app, He. simpl. rewrite !app_nil_r. reflexivity.
Qed.

Lemma plays_with {A} n (body : M A) e (ok : Prop) :
  plays eval build body e ok ->
  plays eval build (with_ n body) (outline eval build [Start n] ++ e) ok.
Proof.
  intros Hb. unfold with_. apply plays_with_attrs.
  apply plays_iff with (e := e ++ []) (ok := ok /\ True);
    [apply app_nil_r | tauto |].
  apply plays_bind; [exact Hb|]. intros a. apply plays_ret.
Qed.

(** [_test_run_helper] returns when the files and the report it needs are
    there. *)
Lemma _test_run_helper_ok w src eo ee st :
  helper_returns w eval build src eo ee ->
  exists o evs, _test_run_helper w src eo ee eval build st = (Ok o, add_log st evs).
Proof.
  intros (Deo & Dee & rel & rc & t & test_status & test_duration &
          Hrel & Hlit & Hcode & Hel & Hgen).
  unfold _test_run_helper.
  rewrite (bind_run _ _ _ _ _ (opt_read_ok w eo st Deo)).
  rewrite (bind_run _ _ _ _ _ (opt_read_ok w ee _ Dee)), add_log_app.
  rewrite (bind_run _ _ _ _ _ (of_option_run _ _ _)), Hrel.
  rewrite lit_block_run. cbn zeta. rewrite Hlit, add_log_app. cbn [fst snd].
  rewrite (bind_run _ _ _ _ _ (of_option_run _ _ _)), Hcode.
  rewrite (bind_run _ _ _ _ _ (of_option_run _ _ _)), Hel.
  destruct (endswith (path_name (build ++ [u "test"] ++ rel)) (u ".custom.c")).
  - unfold ret. eexists _, _. reflexivity.
  - destruct (Hgen eq_refl) as [(t1 & u1 & G1) (t2 & u2 & G2)].
    rewrite (bind_run _ _ _ _ _ (get_test_output_files_run _ _ _ _ _ Hrel)). cbn [fst snd].
    rewrite (bind_run _ _ _ _ _ (read_text_run _ _ _ _)), G1, add_log_app. cbn [andb].
    rewrite (bind_run _ _ _ _ _ (read_text_run _ _ _ _)), G2, add_log_app. cbn [andb].
    unfold ret. eexists _, _. reflexivity.
Qed.

Lemma plays_helper w src eo ee :
  plays eval build (_test_run_helper w src eo ee eval build) [Ran (Some src)]
    (helper_returns w eval build src eo ee).
Proof.
  intros st.
  destruct (_test_run_helper_steps w src eo ee eval build st) as (r & evs & Hrun & Hsteps).
  exists r, evs. split; [exact Hrun|]. split.
  - intros Hok. destruct (_test_run_helper_ok w src eo ee st Hok) as (o & evs' & Hrun').
    destruct (same_run _ _ _ _ _ _ Hrun Hrun') as [-> _]. eauto.
  - intros [o ->].
    destruct (_test_run_helper_returns _ _ _ _ _ _ _ _ _ Hrun)
      as (rel & rc & t & Hrel & Hlit & _ & Hcode & Hel & Hres). cbn zeta in Hres.
    assert (Hdirs : is_dir w eo = false /\ is_dir w ee = false).
    { destruct Hsteps as [(_ & _ & H)|[(_ & _ & _ & H)|[(_ & _ & _ & _ & H)
                         |(rel' & post & Deo & Dee & _)]]]; try discriminate H. auto. }
    destruct Hdirs as [Deo Dee]. clear Hsteps.
    assert (Hran : outline eval build
                     (opt_read_events w eo ++ opt_read_events w ee ++
                      [MkTemp (fresh (tmp_files st)); Lit (build ++ [u "test"] ++ rel) (fresh (tmp_files st));
                       OpenTemp (fresh (tmp_files st)); Remove (fresh (tmp_files st))])
                   = [Ran (Some src)]).
    { rewrite !outline_app, !outline_open by apply opt_read_events_open.
      simpl. rewrite (lit_source_target _ _ _ _ Hrel). reflexivity. }
    destruct (endswith (path_name (build ++ [u "test"] ++ rel)) (u ".custom.c")) eqn:Hc.
    + destruct Hres as (_ & _ & _ & _ & Hst). apply add_log_inj in Hst. subst evs.
      split; [|exact Hran].
      split; [exact Deo|]. split; [exact Dee|].
      exists rel, rc, t, (o_status o), (duration o). rewrite Hc. repeat split; auto; discriminate.
    + destruct Hres as (_ & _ & _ & _ & G1 & G2 & Hst). apply add_log_inj in Hst. subst evs.
      split.
      * split; [exact Deo|]. split; [exact Dee|].
        exists rel, rc, t, (o_status o), (duration o).
        split; [exact Hrel|]. split; [exact Hlit|]. split; [exact Hcode|].
        split; [exact Hel|]. intros _. unfold is_file.
        rewrite <- !app_assoc in G1, G2. split; assumption.
      * rewrite app_assoc, outline_app, <- app_assoc, Hran. reflexivity.
Qed.

Lemma plays_run_test w src eo ee :
  plays eval build (run_test w src eo ee eval build) [Ran (Some src)]
    (test_returns w eval build src eo ee).
Proof.
  intros st. destruct (run_test_spec w src eo ee eval build st) as (r & evs & Hrun & _).
  exists r, evs. split; [exact Hrun|]. split.
  - intros [Hh [text Hsrc]].
    destruct (_test_run_helper_ok w src eo ee st Hh) as (o & evs1 & Hh1).
    pose proof Hh as (_ & _ & rel & _ & _ & _ & _ & Hrel & _).
    pose proof (run_test_run _ _ _ _ _ _ _ _ _ _ _ Hh1 Hsrc Hrel) as Hrun'. cbn zeta in Hrun'.
    rewrite Hrun in Hrun'. injection Hrun' as -> _. eauto.
  - intros [c ->].
    destruct (run_test_returns _ _ _ _ _ _ _ _ _ Hrun) as (o & st1 & text & rel & Hh & Hsrc & Hrel).
    destruct (plays_helper w src eo ee st) as (r1 & evs1 & Hh1 & _ & Hret1).
    rewrite Hh in Hh1. injection Hh1 as <- ->.
    destruct (Hret1 ltac:(eauto)) as [Hok He1].
    split; [split; [exact Hok | eauto]|].
    pose proof (run_test_run _ _ _ _ _ _ _ _ _ _ _ Hh Hsrc Hrel) as Hrun'. cbn zeta in Hrun'.
    rewrite Hrun, add_log_app in Hrun'.
    pose proof (f_equal snd Hrun') as Hlog. cbn [snd] in Hlog.
    apply add_log_inj in Hlog. rewrite Hlog, outline_app, He1.
    destruct (negb (truthy (expected_error o)) && truthy (generated_error o));
      [|destruct (str_eqb (o_status o) (u "TIMEOUT"))]; reflexivity.
Qed.

End Plays.

Lemma success_bar_eq num_success num_total st :
  success_bar num_success num_total 20 st =
  if (num_total =? 0)%Z then (Raise ZeroDivisionError, st)
  else match bar_length num_success num_total 20 with
       | Some b => (Ok (repeat 9608%N (Z.to_nat b) ++ repeat 9617%N (Z.to_nat (20 - b))), st)
       | None => (Raise ValueError, st)
       end.
Proof.
  unfold success_bar, bar_length. destruct (num_total =? 0)%Z; [reflexivity|].
  unfold bind, of_option. destruct (floor_float _); reflexivity.
Qed.

Section OrderFacts.
Context `{RT : PythonRuntime}.
Variables (w : world) (eval build : path).

Lemma plays_run_test_case folder :
  plays eval build (run_test_case w folder eval build)
    (group_outline w folder) (group_returns w eval build folder).
Proof.
  unfold run_test_case.
  eapply plays_iff; [| |apply plays_with;
    apply plays_for_each with
      (e := fun src => [Ran (Some src)] ++ [])
      (ok := fun src =>
               test_returns w eval build src (folder ++ [path_name src ++ u ".stdout"])
                 (folder ++ [path_name src ++ u ".stderr"]) /\ True)].
  - rewrite flat_map_singleton. reflexivity.
  - unfold group_returns. split; intros H src Hin; [apply H; exact Hin | split; auto].
  - intros src acc Hin. apply plays_bind; [apply plays_run_test|].
    intros c. apply plays_ret.
Qed.

(** The hidden batch: the helper on every fixture below the folder, in the
    order of the listing, then the bar and the summary. *)
Lemma run_hidden_tests_plays hid st :
  let fixtures := glob_rec_c w hid in
  let n := Z.of_nat (length fixtures) in
  exists r T S,
    run_hidden_tests w hid eval build st = (r, add_log st (T ++ S)) /\
    Forall (hidden_event eval build hid) T /\
    ((S = [] /\ exists e, r = Raise e) \/
     ((exists bar s, S = hidden_summary bar s n /\ r = Ok (Counter_of s n)) /\
      outline eval build T = map (fun src => Ran (Some src)) fixtures /\
      fixtures <> [] /\ batch_returns w eval build hid)) /\
    (batch_returns w eval build hid -> fixtures <> [] -> bar_drawn n ->
     exists c, r = Ok c).
Proof.
  cbn zeta. unfold run_hidden_tests.
  match goal with |- context [for_each ?xs ?body ?acc0] =>
    set (loop := for_each xs body acc0);
    assert (Hspec : spec loop st (hidden_event eval build hid)
                      (fun counts : Z * Z => 0 <= counts.1 <= counts.2)%Z);
    [|assert (Hplays : plays eval build loop
                         (map (fun src => Ran (Some src)) xs)
                         (batch_returns w eval build hid));
      [|assert (Hcount : forall counts st1,
                  loop st = (Ok counts, st1) -> counts.2 = Z.of_nat (length xs))]]
  end.
  { apply spec_for_each; [simpl; lia|]. intros src acc st1 Hin Hacc.
    eapply spec_bind.
    - eapply spec_weaken; [| |apply helper_spec]; [|intros a Ha; exact Ha].
      intros e [Ht Hl]. split; [exact Ht|]. destruct e; try reflexivity.
      simpl. rewrite Hl, (in_glob_rec_c_under _ _ _ Hin). reflexivity.
    - intros o st2 _. apply spec_ret. simpl. destruct (correct o); lia. }
  { eapply plays_iff; [| |apply plays_for_each with
      (e := fun src => [Ran (Some src)] ++ [])
      (ok := fun src =>
               helper_returns w eval build src (hid ++ [path_name src ++ u ".stdout"])
                 (hid ++ [path_name src ++ u ".stderr"]) /\ True)].
    - apply flat_map_singleton.
    - unfold batch_returns. split; intros H src Hin; [apply H; exact Hin | split; auto].
    - intros src acc Hin. apply plays_bind; [apply plays_helper|].
      intros o. apply plays_ret. }
  { intros counts st1 Hloop.
    pose (I := fun (done : list path) (acc : Z * Z) (_ : state) =>
                 acc.2 = Z.of_nat (length done)).
    change (I ([] ++ glob_rec_c w hid) counts st1).
    eapply (for_each_returns I); [| |exact Hloop]; [|reflexivity].
    intros done src acc st2 a st3 Ht Hb.
    apply bind_returns in Hb. destruct Hb as (o & st4 & Hh & Hr).
    unfold ret in Hr. injection Hr as <- _. unfold I in *. cbn [snd].
    rewrite Ht, length_app. simpl. lia. }
  destruct Hspec as (r & T & Hrun & HT & Hres).
  destruct (Hplays st) as (r' & T' & Hrun' & Hok & Hret).
  destruct (same_run _ _ _ _ _ _ Hrun Hrun') as [<- <-]. clear Hrun'.
  rewrite (bind_run _ _ _ _ _ Hrun). destruct r as [[s n']|e].
  2:{ exists (Raise e), T, []. rewrite app_nil_r. split; [reflexivity|].
      split; [exact HT|]. split; [left; eauto|].
      intros Hb _ _. destruct (Hok Hb) as [a Ha]. discriminate Ha. }
  pose proof (Hcount _ _ Hrun) as Hn. cbn [fst snd] in *. subst n'.
  specialize (Hres _ eq_refl). cbn [fst snd] in Hres.
  destruct (Hret ltac:(eauto)) as [Hb HoT].
  pose proof (success_bar_eq s (Z.of_nat (length (glob_rec_c w hid))) (add_log st T)) as Hbar.
  destruct (Z.of_nat (length (glob_rec_c w hid)) =? 0)%Z eqn:E0.
  { rewrite (bind_run _ _ _ _ _ Hbar).
    exists (Raise ZeroDivisionError), T, []. rewrite app_nil_r. split; [reflexivity|].
    split; [exact HT|]. split; [left; eauto|].
    intros _ Hne _. exfalso. apply Z.eqb_eq in E0.
    destruct (glob_rec_c w hid); [contradiction | simpl in E0; lia]. }
  assert (Hne : glob_rec_c w hid <> []).
  { intros Hnil. rewrite Hnil in E0. discriminate E0. }
  destruct (bar_length s (Z.of_nat (length (glob_rec_c w hid))) 20) as [b|] eqn:Eb;
    rewrite (bind_run _ _ _ _ _ Hbar).
  - exists (Ok (Counter_of s (Z.of_nat (length (glob_rec_c w hid))))), T,
      (hidden_summary
         (repeat 9608%N (Z.to_nat b) ++ repeat 9617%N (Z.to_nat (20 - b)))
         s (Z.of_nat (length (glob_rec_c w hid)))).
    split.
    { unfold with_attrs, bind, emit, ret, hidden_summary, add_log. simpl.
      rewrite <- !app_assoc. reflexivity. }
    split; [exact HT|]. split; [|eauto].
    right. split; [eauto|]. auto.
  - exists (Raise ValueError), T, []. rewrite app_nil_r. split; [reflexivity|].
    split; [exact HT|]. split; [left; eauto|].
    intros _ _ Hdrawn. destruct (Hdrawn s Hres) as [b Hb']. congruence.
Qed.

(** Visible groups first, the hidden batch after them, with the outline of
    each. *)
Lemma visible_then_hidden_order {A} (visible_groups : M A) (f : A -> gmap str Z)
    ctx st e (okv : Prop) :
  path_exists w (ctx ++ [u "hidden"]) = true ->
  spec visible_groups st (visible_event eval build (ctx ++ [u "hidden"])) (fun _ => True) ->
  plays eval build visible_groups e okv ->
  exists r V T S,
    (a <- visible_groups ;;
     if path_exists w (ctx ++ [u "hidden"])
     then c <- run_hidden_tests w (ctx ++ [u "hidden"]) eval build ;;
          ret (counter_iadd (f a) c)
     else ret (f a)) st = (r, add_log st (V ++ T ++ S)) /\
    Forall (visible_event eval build (ctx ++ [u "hidden"])) V /\
    Forall (hidden_event eval build (ctx ++ [u "hidden"])) T /\
    (T ++ S <> [] -> outline eval build V = e) /\
    (S <> [] ->
     outline eval build T =
       map (fun src => Ran (Some src)) (glob_rec_c w (ctx ++ [u "hidden"])) /\
     glob_rec_c w (ctx ++ [u "hidden"]) <> [] /\
     exists bar s,
       S = hidden_summary bar s (Z.of_nat (length (glob_rec_c w (ctx ++ [u "hidden"]))))) /\
    ((exists c, r = Ok c) <-> S <> []) /\
    ((exists c, r = Ok c) -> okv /\ batch_returns w eval build (ctx ++ [u "hidden"])) /\
    (okv -> batch_returns w eval build (ctx ++ [u "hidden"]) ->
     glob_rec_c w (ctx ++ [u "hidden"]) <> [] ->
     bar_drawn (Z.of_nat (length (glob_rec_c w (ctx ++ [u "hidden"])))) ->
     exists c, r = Ok c).
Proof.
  intros Hex (rv & V & Hrun & HV & _) Hp.
  destruct (Hp st) as (rv' & V' & Hrun' & Hokv & Hretv).
  destruct (same_run _ _ _ _ _ _ Hrun Hrun') as [<- <-]. clear Hrun'.
  rewrite (bind_run _ _ _ _ _ Hrun), Hex. destruct rv as [a|e0].
  - destruct (run_hidden_tests_plays (ctx ++ [u "hidden"]) (add_log st V))
      as (rh & T & S & Hh & HT & HS & Hokh). cbn zeta in *.
    rewrite (bind_run _ _ _ _ _ Hh), add_log_app.
    destruct (Hretv ltac:(eauto)) as [Hv He].
    destruct HS as [[-> [e1 ->]] | ((bar & s & -> & ->) & HoT & Hne & Hb)].
    + exists (Raise e1), V, T, []. split; [reflexivity|].
      split; [exact HV|]. split; [exact HT|]. split; [auto|].
      split; [intros H; contradiction|].
      split; [split; [intros [c Hc]; discriminate Hc | intros H; contradiction]|].
      split; [intros [c Hc]; discriminate Hc|].
      intros _ Hb Hne Hbar. exact (Hokh Hb Hne Hbar).
    + eexists (Ok _), V, T, (hidden_summary bar s _). split; [reflexivity|].
      split; [exact HV|]. split; [exact HT|]. split; [auto|].
      split; [intros _; eauto|].
      split; [split; [intros _; discriminate | eauto]|].
      split; [auto | eauto].
  - exists (Raise e0), V, [], []. rewrite app_nil_r. split; [reflexivity|].
    split; [exact HV|]. split; [constructor|].
    split; [intros H; contradiction|]. split; [intros H; contradiction|].
    split; [split; [intros [c Hc]; discriminate Hc | intros H; contradiction]|].
    split; [intros [c Hc]; discriminate Hc|].
    intros Hv _ _ _. destruct (Hokv Hv) as [a Ha]. discriminate Ha.
Qed.

End OrderFacts.

Section OrderClaim.
Context `{RT : PythonRuntime}.


End OrderClaim.


(** ** judge.py: the fixtures the tool is run on *)

Section LitOn.
Context `{RT : PythonRuntime}.
Variables (w : world) (evaluation_folder build_path : path).

Local Abbreviation on := (lit_on evaluation_folder build_path).

Lemma helper_lit_on (Q : path -> Prop) src eo ee st :
  Q src ->
  spec (_test_run_helper w src eo ee evaluation_folder build_path) st (on Q) (fun _ => True).
Proof.
  intros HQ. eapply spec_weaken; [| |apply helper_spec]; [|auto].
  intros e [_ He]. destruct e; simpl; auto. eauto.
Qed.

Lemma run_test_lit_on (Q : path -> Prop) src eo ee st :
  Q src ->
  spec (run_test w src eo ee evaluation_folder build_path) st (on Q)
    (fun c => exists b : bool, c = Counter_of (if b then 1 else 0) 1).
Proof.
  intros HQ. eapply spec_weaken; [| |apply run_test_spec]; [|auto].
  intros e He. destruct e; simpl; auto. simpl in He. eauto.
Qed.

Lemma run_test_case_lit_on (Q : path -> Prop) folder st :
  (forall src, In src (glob_c w folder) -> Q src) ->
  spec (run_test_case w folder evaluation_folder build_path) st (on Q) counter_inv.
Proof.
  intros HQ. unfold run_test_case. apply spec_with; [exact I | exact I |]. intros st1.
  apply spec_for_each; [apply counter_empty_inv|].
  intros src res st2 Hin Hres. eapply spec_bind.
  - apply run_test_lit_on. apply HQ. exact Hin.
  - intros c st3 [b ->]. apply spec_ret. apply counter_iadd_inv; [exact Hres|].
    apply counter_unit_inv.
Qed.

Lemma run_hidden_tests_lit_on (Q : path -> Prop) hid st :
  (forall src, In src (glob_rec_c w hid) -> Q src) ->
  spec (run_hidden_tests w hid evaluation_folder build_path) st (on Q) counter_inv.
Proof.
  intros HQ. unfold run_hidden_tests.
  eapply spec_bind with (Pa := fun counts : Z * Z => (0 <= counts.1 <= counts.2)%Z).
  - apply spec_for_each; [simpl; lia|]. intros src acc st1 Hin Hacc.
    eapply spec_bind; [apply helper_lit_on; apply HQ; exact Hin|].
    intros o st2 _. apply spec_ret. simpl. destruct (correct o); lia.
  - intros counts st1 Hc. eapply spec_bind with (Pa := fun _ => True).
    + destruct (success_bar_run counts.1 counts.2 20 st1) as [r Hr].
      exists r, []. rewrite add_log_nil. split; [exact Hr|]. split; [constructor | auto].
    + intros bar st2 _. eapply spec_bind with (Pa := fun _ => True).
      * apply spec_with_attrs with (Pattrs := fun _ => True); [exact I | exact I | auto|].
        intros st3. apply spec_ret. auto.
      * intros _ st3 _. apply spec_ret. apply counter_of_inv. exact Hc.
Qed.

(** A run of [create_context]: the context node, without a description
    for a dummy context and titled by the folder otherwise, around the
    events of its groups. *)
Lemma create_context_run (Q : path -> Prop) ctx is_dummy st :
  (forall src, context_fixture w ctx src -> Q src) ->
  exists r evs,
    let k := Context (if negb is_dummy
                      then Some {| d_description := u "#### " ++ folder_path_to_title ctx;
                                   d_format := MARKDOWN |}
                      else None) in
    create_context w ctx evaluation_folder build_path is_dummy st =
      (r, add_log st ([Start k] ++ evs ++ [Close k []])) /\
    Forall (on Q) evs /\ (forall c, r = Ok c -> counter_inv c).
Proof.
  intros HQ. unfold create_context.
  assert (Hhid : forall res st1, counter_inv res ->
    spec (if path_exists w (ctx ++ [u "hidden"])
          then c <- run_hidden_tests w (ctx ++ [u "hidden"]) evaluation_folder build_path ;;
               ret (counter_iadd res c)
          else ret res) st1 (on Q) counter_inv).
  { intros res st1 Hres. destruct (path_exists w (ctx ++ [u "hidden"]));
      [|apply spec_ret; exact Hres].
    eapply spec_bind.
    - apply run_hidden_tests_lit_on. intros src Hin. apply HQ. right. right. exact Hin.
    - intros c st2 Hc. apply spec_ret. apply counter_iadd_inv; assumption. }
  match goal with |- context [with_ ?n ?body] =>
    assert (Hb : spec body (add_log st [Start n]) (on Q) counter_inv) end.
  { change (nonempty (glob_sub_rec_c w ctx) &&
            negb (forallb (name_in [u "hidden"]) (List.filter (is_dir w) (glob_star w ctx))))
      with (has_sub_folders w ctx).
    destruct (has_sub_folders w ctx) eqn:Hsub; cbn [negb].
    - eapply spec_bind with (Pa := counter_inv).
      + apply spec_for_each; [apply counter_empty_inv|].
        intros folder res st2 Hin Hres.
        destruct (name_in [u "hidden"; u "grading"] folder) eqn:Hn;
          [apply spec_ret; exact Hres|].
        eapply spec_bind.
        * apply run_test_case_lit_on. intros src Hsrc. apply HQ. right. left.
          split; [exact Hsub|]. eauto.
        * intros c st3 Hc. apply spec_ret. apply counter_iadd_inv; assumption.
      + intros res st2 Hres. apply Hhid. exact Hres.
    - eapply spec_bind with (Pa := counter_inv).
      + apply run_test_case_lit_on. intros src Hsrc. apply HQ. left. auto.
      + intros c st2 Hc. apply Hhid.
        apply counter_iadd_inv; [apply counter_empty_inv | exact Hc]. }
  destruct Hb as (r & evs & Hrun & Hevs & Hc).
  exists r, evs. cbn zeta. split; [apply with_run; exact Hrun | auto].
Qed.

Lemma create_context_lit_on (Q : path -> Prop) ctx is_dummy st :
  (forall src, context_fixture w ctx src -> Q src) ->
  spec (create_context w ctx evaluation_folder build_path is_dummy) st (on Q) counter_inv.
Proof.
  intros HQ. destruct (create_context_run Q ctx is_dummy st HQ) as (r & evs & Hrun & Hevs & Hc).
  eexists _, _. split; [exact Hrun|]. split; [|exact Hc].
  apply Forall_app. split; [repeat constructor|].
  apply Forall_app. split; [exact Hevs | repeat constructor].
Qed.

End LitOn.

Section LitOnWalker.
Context `{RT : PythonRuntime}.
Variables (w : world) (evaluation_folder build_path : path).

Local Abbreviation on := (lit_on evaluation_folder build_path).

(** A run of [create_tab] on a rubric that is not for grading only: the
    tab node around the events of its contexts, closed with the badge count
    when the contexts have returned. *)
Lemma create_tab_run (Q : path -> Prop) tab st :
  same_set (glob_rec_c w tab) (glob_grading_rec_c w tab) = false ->
  (forall src, tab_fixture w tab src -> Q src) ->
  exists r evs,
    let n := Tab (folder_path_to_title tab) in
    create_tab w tab evaluation_folder build_path st =
      (r, add_log st
            ([Start n] ++ evs ++
             [Close n match r with
                      | Ok c => [badgeCount (counter_get c (u "total") -
                                             counter_get c (u "correct"))]
                      | Raise _ => []
                      end])) /\
    Forall (on Q) evs /\ (forall c, r = Ok c -> counter_inv c).
Proof.
  intros Hsame HQ. unfold create_tab. rewrite Hsame.
  match goal with |- context [with_attrs ?n (bind ?m ?f)] =>
    assert (Hb : spec m (add_log st [Start n]) (on Q) counter_inv) end.
  { change (nonempty (glob_sub_rec_c w tab) &&
            negb (forallb (name_in [u "hidden"; u "grading"])
                    (List.filter (is_dir w) (glob_star w tab))))
      with (has_sub_rubrics w tab).
    destruct (has_sub_rubrics w tab) eqn:Hsub; cbn [negb].
    + apply spec_for_each; [apply counter_empty_inv|].
      intros folder res st2 Hin Hres. eapply spec_bind.
      * apply create_context_lit_on. intros src Hsrc. apply HQ. right. eauto.
      * intros c st3 Hc. apply spec_ret. apply counter_iadd_inv; assumption.
    + eapply spec_bind.
      * apply create_context_lit_on. intros src Hsrc. apply HQ. left. auto.
      * intros c st2 Hc. apply spec_ret.
        apply counter_iadd_inv; [apply counter_empty_inv | exact Hc]. }
  destruct Hb as (r & evs & Hrun & Hevs & Hc).
  exists r, evs. cbn zeta. split; [|auto].
  destruct r as [c|e].
  - rewrite (with_attrs_run _ _ st
               (Ok (c, [badgeCount (counter_get c (u "total") -
                                    counter_get c (u "correct"))])) evs);
      [reflexivity|].
    rewrite (bind_run _ _ _ _ _ Hrun). reflexivity.
  - rewrite (with_attrs_run _ _ st (Raise e) evs); [reflexivity|].
    rewrite (bind_run _ _ _ _ _ Hrun). reflexivity.
Qed.

Lemma create_tab_lit_on (Q : path -> Prop) tab st :
  (forall src, tab_fixture w tab src -> Q src) ->
  spec (create_tab w tab evaluation_folder build_path) st (on Q) counter_inv.
Proof.
  intros HQ.
  destruct (same_set (glob_rec_c w tab) (glob_grading_rec_c w tab)) eqn:Hsame.
  - unfold create_tab. rewrite Hsame. apply spec_ret. apply counter_empty_inv.
  - destruct (create_tab_run Q tab st Hsame HQ) as (r & evs & Hrun & Hevs & Hc).
    eexists _, _. split; [exact Hrun|]. split; [|exact Hc].
    apply Forall_app. split; [repeat constructor|].
    apply Forall_app. split; [exact Hevs | repeat constructor].
Qed.

Lemma test_submission_lit_on (Q : path -> Prop) st :
  (forall tab src,
     In tab (List.filter (is_dir w) (glob_star w evaluation_folder)) ->
     tab_fixture w tab src -> Q src) ->
  spec (test_submission w evaluation_folder build_path) st (on Q) counter_inv.
Proof.
  intros HQ. unfold test_submission. apply spec_for_each; [apply counter_empty_inv|].
  intros folder res st1 Hin Hres. eapply spec_bind.
  - apply create_tab_lit_on. intros src Hsrc. eapply HQ; eauto.
  - intros c st2 Hc. apply spec_ret. apply counter_iadd_inv; assumption.
Qed.

End LitOnWalker.

(** *** What [glob] finds *)

Lemma in_walk_c : forall n p x,
  In x (walk_c p n) ->
  exists rel, x = p ++ rel /\ rel <> [] /\ is_c_name (path_name rel) = true.
Proof.
  fix IH 1. intros [text utf8|es] p x H; simpl in H; [contradiction|].
  apply in_app_or in H. destruct H as [H|H].
  - apply in_map_iff in H. destruct H as ([name n] & <- & H).
    apply filter_In in H. destruct H as [_ H]. exists [name].
    split; [reflexivity|]. split; [discriminate | exact H].
  - induction es as [|[name sub] es IHes]; simpl in H; [contradiction|].
    apply in_app_or in H. destruct H as [H|H]; [|apply IHes; exact H].
    apply IH in H. destruct H as (rel & -> & Hne & Hc). exists (name :: rel).
    rewrite <- app_assoc. split; [reflexivity|]. split; [discriminate|].
    change (name :: rel) with ([name] ++ rel). rewrite path_name_app by exact Hne. exact Hc.
Qed.

Lemma walk_c_below p es name sub x :
  In (name, sub) es -> In x (walk_c (p ++ [name]) sub) -> In x (walk_c p (Dir es)).
Proof.
  intros Hin Hx. simpl. apply in_or_app. right.
  apply in_flat_map. exists (name, sub). auto.
Qed.

(** What [glob] finds below a folder further down, it finds from here. *)
Lemma walk_c_lookup : forall rel n p n' x,
  lookup_path n rel = Some n' -> In x (walk_c (p ++ rel) n') -> In x (walk_c p n).
Proof.
  induction rel as [|c rel IH]; intros n p n' x Hl Hx.
  - simpl in Hl. injection Hl as ->. rewrite app_nil_r in Hx. exact Hx.
  - simpl in Hl. destruct n as [|es]; [discriminate|].
    destruct (child es c) as [sub|] eqn:Hc; [|discriminate].
    apply child_In in Hc. eapply walk_c_below; [exact Hc|].
    eapply IH; [exact Hl|]. rewrite <- app_assoc. exact Hx.
Qed.

Lemma lookup_path_app : forall p n q,
  lookup_path n (p ++ q) =
  match lookup_path n p with Some n' => lookup_path n' q | None => None end.
Proof.
  induction p as [|c p IH]; intros n q; simpl; [reflexivity|].
  destruct n as [|es]; [reflexivity|]. destruct (child es c); [apply IH | reflexivity].
Qed.

Lemma glob_rec_c_below w p rel x :
  In x (glob_rec_c w (p ++ rel)) -> In x (glob_rec_c w p).
Proof.
  unfold glob_rec_c. rewrite lookup_path_app.
  destruct (lookup_path (fs w) p) as [n|]; [|contradiction].
  destruct (lookup_path n rel) as [n'|] eqn:Hl; [|contradiction].
  apply walk_c_lookup. exact Hl.
Qed.

Lemma glob_c_rec w p x : In x (glob_c w p) -> In x (glob_rec_c w p).
Proof.
  unfold glob_c, glob_rec_c, entries.
  destruct (lookup_path (fs w) p) as [[|es]|]; try contradiction.
  intros H. simpl. apply in_or_app. left. exact H.
Qed.

Lemma in_glob_rec_c w p x :
  In x (glob_rec_c w p) ->
  exists rel, x = p ++ rel /\ rel <> [] /\ is_c_name (path_name rel) = true.
Proof.
  unfold glob_rec_c. destruct (lookup_path (fs w) p) as [n|]; [|contradiction].
  apply in_walk_c.
Qed.

Lemma in_dirs w p folder :
  In folder (List.filter (is_dir w) (glob_star w p)) ->
  exists f, folder = p ++ [f] /\ is_dir w (p ++ [f]) = true.
Proof.
  intros H. apply filter_In in H. destruct H as [H Hd].
  apply in_glob_star in H. destruct H as [f ->]. eauto.
Qed.

(** The fixtures of a sub-rubric folder are [*.c] entries below it, none of
    them below its [grading] folder. *)
Lemma context_fixture_below w ctx src :
  context_fixture w ctx src ->
  In src (glob_rec_c w ctx) /\ under (ctx ++ [u "grading"]) src = false.
Proof.
  intros [[_ H]|[(_ & folder & Hf & Hn & H)|H]].
  - split; [apply glob_c_rec; exact H|].
    apply in_glob_c in H. destruct H as (name & -> & Hc).
    unfold under. rewrite relative_to_app_both. cbn [relative_to].
    destruct (str_eqb name (u "grading")) eqn:E; [|reflexivity].
    apply str_eqb_eq in E. subst name. vm_compute in Hc. discriminate.
  - apply in_dirs in Hf. destruct Hf as (f & -> & _). split.
    + apply (glob_rec_c_below w ctx [f]). apply glob_c_rec. exact H.
    + apply in_glob_c in H. destruct H as (name & -> & Hc).
      unfold name_in in Hn. rewrite path_name_snoc in Hn. cbn [existsb] in Hn.
      apply orb_false_iff in Hn. destruct Hn as [_ Hn].
      apply orb_false_iff in Hn. destruct Hn as [Hn _].
      unfold under. rewrite <- app_assoc, relative_to_app_both.
      cbn [relative_to app]. rewrite Hn. reflexivity.
  - split; [apply (glob_rec_c_below w ctx [u "hidden"]); exact H|].
    apply in_glob_rec_c in H. destruct H as (rel & -> & _).
    unfold under. rewrite <- app_assoc, relative_to_app_both. reflexivity.
Qed.

Lemma spec_lit_on {A} (m : M A) st eval build (Q : path -> Prop) (Pr : A -> Prop) :
  spec m st (lit_on eval build Q) Pr ->
  exists r evs,
    m st = (r, add_log st evs) /\
    forall t out, In (Lit t out) evs ->
      exists src, lit_source eval build t = Some src /\ Q src.
Proof.
  intros (r & evs & Hrun & Hevs & _). exists r, evs. split; [exact Hrun|].
  intros t out Hin. rewrite List.Forall_forall in Hevs. exact (Hevs _ Hin).
Qed.

Section WhichFixtures.
Context `{RT : PythonRuntime}.

(** X16. [create_context] runs the tool on the fixtures of its folder and on
    nothing else, however the run ends: on the [*.c] entries directly in
    the folder when it has no sub-folders, else on those directly in its
    directories other than [hidden] and [grading], and on every [*.c] entry
    below [hidden]. So it never runs a fixture below its [grading] folder,
    a fixture more than one folder down (outside [hidden]), or, when there
    are sub-folders, a fixture lying next to them. *)
Theorem context_runs_its_fixtures_only w ctx eval build is_dummy st :
  exists r evs,
    create_context w ctx eval build is_dummy st = (r, add_log st evs) /\
    forall t out, In (Lit t out) evs ->
      exists src,
        lit_source eval build t = Some src /\
        context_fixture w ctx src /\
        under (ctx ++ [u "grading"]) src = false.
Proof.
  apply spec_lit_on with (Pr := counter_inv)
    (Q := fun src => context_fixture w ctx src /\ under (ctx ++ [u "grading"]) src = false).
  apply create_context_lit_on. intros src H. split; [exact H|].
  apply (context_fixture_below _ _ _ H).
Qed.

(** X17. In a whole run of [test_submission], however it ends, the tool is run
    only on targets [build/test/tab/...] that mirror a [*.c] entry below a
    directory [tab] of the evaluation folder: never on a path outside
    [build/test], never on an entry whose name does not end in [.c], and
    never on a [*.c] entry that lies directly in the evaluation folder. *)
Theorem tool_runs_on_fixtures_only w eval build st :
  exists r evs,
    test_submission w eval build st = (r, add_log st evs) /\
    forall t out, In (Lit t out) evs ->
      exists tab rel,
        t = build ++ [u "test"] ++ tab :: rel /\
        is_dir w (eval ++ [tab]) = true /\
        In (eval ++ tab :: rel) (glob_rec_c w (eval ++ [tab])) /\
        rel <> [] /\ is_c_name (path_name rel) = true.
Proof.
  destruct (spec_lit_on (test_submission w eval build) st eval build
              (fun src => exists tab rel,
                 src = eval ++ tab :: rel /\ is_dir w (eval ++ [tab]) = true /\
                 In src (glob_rec_c w (eval ++ [tab])) /\
                 rel <> [] /\ is_c_name (path_name rel) = true)
              counter_inv) as (r & evs & Hrun & Hevs).
  { apply test_submission_lit_on. intros tab src Htab Hsrc.
    apply in_dirs in Htab. destruct Htab as (f & -> & Hdir).
    assert (Hin : In src (glob_rec_c w (eval ++ [f]))).
    { destruct Hsrc as [[_ H]|(_ & folder & Hf & H)].
      - apply context_fixture_below in H. destruct H as [H _]. exact H.
      - apply in_dirs in Hf. destruct Hf as (g & -> & _).
        apply context_fixture_below in H. destruct H as [H _].
        apply (glob_rec_c_below w (eval ++ [f]) [g]). exact H. }
    destruct (in_glob_rec_c _ _ _ Hin) as (rel & -> & Hne & Hc).
    exists f, rel. split; [rewrite <- app_assoc; reflexivity|].
    split; [exact Hdir|]. split; [exact Hin|]. split; assumption. }
  exists r, evs. split; [exact Hrun|]. intros t out Hin.
  destruct (Hevs t out Hin) as (src & Hs & tab & rel & -> & Hdir & Hg & Hne & Hc).
  exists tab, rel. split; [|auto].
  unfold lit_source in Hs.
  destruct (relative_to t (build ++ [u "test"])) as [rel'|] eqn:Hr; [|discriminate].
  apply relative_to_Some in Hr. simpl in Hs. injection Hs as Hs.
  apply app_inv_head in Hs. subst rel'. rewrite Hr, <- app_assoc. reflexivity.
Qed.

End WhichFixtures.

(** ** judge.py: the report is well nested *)

Lemma nests_nil k : nests k [].
Proof. intros open rest _. reflexivity. Qed.

Lemma nests_app k a b : nests k a -> nests k b -> nests k (a ++ b).
Proof.
  intros Ha Hb open rest Hk. rewrite <- app_assoc, (Ha _ _ Hk). apply Hb. exact Hk.
Qed.

Lemma nests_tools k evs : Forall (fun e => tool_event e = true) evs -> nests k evs.
Proof.
  intros H open rest _. induction H as [|e evs He _ IH]; [reflexivity|].
  destruct e; try discriminate He; exact IH.
Qed.

Lemma nests_node k n attrs inner :
  rank n = k -> nests (S k) inner -> nests k ([Start n] ++ inner ++ [Close n attrs]).
Proof.
  intros Hr Hi open rest Hk. cbn [app well_nested].
  rewrite Hr, Hk, Nat.eqb_refl. cbn [andb].
  rewrite <- app_assoc, (Hi (n :: open)) by (simpl; lia).
  cbn [app well_nested]. destruct (node_eq_dec n n); [reflexivity | contradiction].
Qed.

Lemma nested_ret {A} (a : A) k : nested_run (ret a) k.
Proof. intros st. exists (Ok a), []. rewrite add_log_nil. split; [reflexivity | apply nests_nil]. Qed.

Lemma nested_raise {A} e k : nested_run (@raise A e) k.
Proof.
  intros st. exists (Raise e), []. rewrite add_log_nil. split; [reflexivity | apply nests_nil].
Qed.

Lemma nested_of_option {A} (o : option A) e k : nested_run (of_option o e) k.
Proof. destruct o; [apply nested_ret | apply nested_raise]. Qed.

Lemma nested_bind {A B} (m : M A) (f : A -> M B) k :
  nested_run m k -> (forall a, nested_run (f a) k) -> nested_run (bind m f) k.
Proof.
  intros Hm Hf st. destruct (Hm st) as (r & evs & Hrun & Hn).
  rewrite (bind_run _ _ _ _ _ Hrun). destruct r as [a|e].
  - destruct (Hf a (add_log st evs)) as (r' & evs' & Hrun' & Hn').
    exists r', (evs ++ evs'). rewrite Hrun', add_log_app.
    split; [reflexivity | apply nests_app; assumption].
  - exists (Raise e), evs. auto.
Qed.

Lemma nested_with_attrs {A} n (body : M (A * list attr)) k :
  rank n = k -> nested_run body (S k) -> nested_run (with_attrs n body) k.
Proof.
  intros Hr Hb st. destruct (Hb (add_log st [Start n])) as (r & evs & Hrun & Hn).
  rewrite (with_attrs_run _ _ _ _ _ Hrun). eexists _, _. split; [reflexivity|].
  apply nests_node; assumption.
Qed.

Lemma nested_with {A} n (body : M A) k :
  rank n = k -> nested_run body (S k) -> nested_run (with_ n body) k.
Proof.
  intros Hr Hb. apply nested_with_attrs; [exact Hr|].
  apply nested_bind; [exact Hb|]. intros a. apply nested_ret.
Qed.

Lemma nested_for_each {A S} (xs : list A) (body : A -> S -> M S) k :
  (forall x acc, nested_run (body x acc) k) ->
  forall acc, nested_run (for_each xs body acc) k.
Proof.
  intros Hb. induction xs as [|x xs IH]; intros acc; cbn [for_each].
  - apply nested_ret.
  - apply nested_bind; [apply Hb | exact IH].
Qed.

Lemma nested_tools {A} (m : M A) (Pe : event -> Prop) (Pr : A -> Prop) k :
  (forall e, Pe e -> tool_event e = true) ->
  (forall st, spec m st Pe Pr) -> nested_run m k.
Proof.
  intros HP Hs st. destruct (Hs st) as (r & evs & Hrun & Hevs & _).
  exists r, evs. split; [exact Hrun|]. apply nests_tools.
  eapply List.Forall_impl; [|exact Hevs]. exact HP.
Qed.

Lemma nested_helper w src eo ee eval build k :
  nested_run (_test_run_helper w src eo ee eval build) k.
Proof.
  eapply nested_tools; [|intros st; apply helper_spec]. intros e [He _]. exact He.
Qed.

Lemma nested_read_text w p strict k : nested_run (read_text w p strict) k.
Proof.
  intros st. eexists _, _. split; [apply read_text_run|]. apply nests_tools.
  repeat constructor.
Qed.

Lemma nested_run_test w src eo ee eval build : nested_run (run_test w src eo ee eval build) 3.
Proof.
  unfold run_test.
  apply nested_bind; [apply nested_helper|]. intros o.
  apply nested_bind; [apply nested_read_text|]. intros text.
  apply nested_bind; [apply nested_of_option|]. intros rel.
  destruct (if truthy (expected_error o)
            then (expected_error o, generated_error o, false)
            else (expected_output o, generated_output o, truthy (generated_error o)))
    as [[expected generated_] unexpected_error].
  apply nested_bind; [|intros _; apply nested_ret].
  apply nested_with_attrs; [reflexivity|].
  apply nested_bind; [|intros _; apply nested_ret].
  destruct unexpected_error; [|destruct (str_eqb (o_status o) (u "TIMEOUT"))].
  - apply nested_with; [reflexivity | apply nested_ret].
  - apply nested_with; [reflexivity | apply nested_ret].
  - apply nested_ret.
Qed.

Lemma nested_run_hidden_tests w hid eval build :
  nested_run (run_hidden_tests w hid eval build) 2.
Proof.
  unfold run_hidden_tests.
  apply nested_bind.
  { apply nested_for_each. intros src acc.
    apply nested_bind; [apply nested_helper | intros o; apply nested_ret]. }
  intros counts. apply nested_bind.
  { intros st. destruct (success_bar_run counts.1 counts.2 20 st) as [r Hr].
    exists r, []. rewrite add_log_nil. split; [exact Hr | apply nests_nil]. }
  intros bar. apply nested_bind; [|intros _; apply nested_ret].
  apply nested_with_attrs; [reflexivity | apply nested_ret].
Qed.

Section Nesting.
Context `{RT : PythonRuntime}.

Lemma nested_run_test_case w folder eval build :
  nested_run (run_test_case w folder eval build) 2.
Proof.
  unfold run_test_case. apply nested_with; [reflexivity|].
  apply nested_for_each. intros src res.
  apply nested_bind; [apply nested_run_test | intros c; apply nested_ret].
Qed.

Lemma nested_create_context w ctx eval build is_dummy :
  nested_run (create_context w ctx eval build is_dummy) 1.
Proof.
  unfold create_context. apply nested_with; [reflexivity|].
  assert (Hhid : forall res,
    nested_run (if path_exists w (ctx ++ [u "hidden"])
                then c <- run_hidden_tests w (ctx ++ [u "hidden"]) eval build ;;
                     ret (counter_iadd res c)
                else ret res) 2).
  { intros res. destruct (path_exists w (ctx ++ [u "hidden"])); [|apply nested_ret].
    apply nested_bind; [apply nested_run_hidden_tests | intros c; apply nested_ret]. }
  match goal with |- context [negb (?a && ?b)] => destruct (a && b) end; cbn [negb].
  - apply nested_bind; [|intros res; apply Hhid].
    apply nested_for_each. intros folder res.
    destruct (name_in [u "hidden"; u "grading"] folder); [apply nested_ret|].
    apply nested_bind; [apply nested_run_test_case | intros c; apply nested_ret].
  - apply nested_bind; [apply nested_run_test_case | intros c; apply Hhid].
Qed.

Lemma nested_create_tab w tab eval build : nested_run (create_tab w tab eval build) 0.
Proof.
  unfold create_tab. destruct (same_set _ _); [apply nested_ret|].
  apply nested_with_attrs; [reflexivity|].
  apply nested_bind; [|intros res; apply nested_ret].
  match goal with |- context [negb (?a && ?b)] => destruct (a && b) end; cbn [negb].
  - apply nested_for_each. intros folder res.
    apply nested_bind; [apply nested_create_context | intros c; apply nested_ret].
  - apply nested_bind; [apply nested_create_context | intros c; apply nested_ret].
Qed.

(** X18. The report of a whole run is well nested, however the run ends: every
    node that was opened is closed, in the reverse order of opening, and the
    nodes stand in the hierarchy of the reporting format: tabs at the top,
    contexts in tabs, test cases in contexts, tests in test cases and
    messages in tests. *)
Theorem report_is_well_nested w eval build st :
  exists r evs,
    test_submission w eval build st = (r, add_log st evs) /\
    well_nested [] evs = true.
Proof.
  assert (H : nested_run (test_submission w eval build) 0).
  { unfold test_submission. apply nested_for_each. intros folder res.
    apply nested_bind; [apply nested_create_tab | intros c; apply nested_ret]. }
  destruct (H st) as (r & evs & Hrun & Hn). exists r, evs. split; [exact Hrun|].
  specialize (Hn [] [] eq_refl). rewrite app_nil_r in Hn. exact Hn.
Qed.

End Nesting.

(** ** judge.py: what a rubric reports *)

Section Rubrics.
Context `{RT : PythonRuntime}.

(** X19. The badge of a tab counts the failed tests: when [create_tab] returns
    for a rubric that is not for grading only, the tab node is closed with
    the badge count [total - correct] of the counter it returns, a number
    between 0 and the total. *)
Theorem tab_badge_counts_failures w tab eval build st c st' :
  create_tab w tab eval build st = (Ok c, st') ->
  same_set (glob_rec_c w tab) (glob_grading_rec_c w tab) = false ->
  let failed := (counter_get c (u "total") - counter_get c (u "correct"))%Z in
  (0 <= failed <= counter_get c (u "total"))%Z /\
  exists evs,
    st' = add_log st ([Start (Tab (folder_path_to_title tab))] ++ evs ++
                      [Close (Tab (folder_path_to_title tab)) [badgeCount failed]]).
Proof.
  intros H Hsame. cbn zeta.
  destruct (create_tab_run w eval build (fun _ => True) tab st Hsame)
    as (r & evs & Hrun & _ & Hc); [auto|].
  cbn zeta in Hrun. rewrite Hrun in H.
  pose proof (f_equal fst H) as Hr. pose proof (f_equal snd H) as Hst.
  cbn [fst snd] in Hr, Hst. subst r st'. clear H.
  destruct (Hc c eq_refl) as [_ Hinv]. split; [lia|]. exists evs. reflexivity.
Qed.

(** X20. A rubric without sub-rubrics is reported as one context without a
    description; in a rubric with sub-rubrics every directory of the rubric
    folder gets a context of its own, titled by its name: also a directory
    named [hidden] or [grading], names that are skipped one level further
    down only. *)
Theorem every_directory_of_a_rubric_is_a_context w tab eval build st c st' :
  create_tab w tab eval build st = (Ok c, st') ->
  same_set (glob_rec_c w tab) (glob_grading_rec_c w tab) = false ->
  (has_sub_rubrics w tab = false -> In (Start (Context None)) (log st')) /\
  (has_sub_rubrics w tab = true ->
   forall folder,
     In folder (List.filter (is_dir w) (glob_star w tab)) ->
     In (Start (Context (Some {| d_description := u "#### " ++ folder_path_to_title folder;
                                 d_format := MARKDOWN |}))) (log st')).
Proof.
  intros H Hsame. unfold create_tab in H. rewrite Hsame in H.
  apply with_attrs_returns in H. destruct H as (attrs & st1 & H & ->).
  apply bind_returns in H. destruct H as (res & st2 & H & Hret).
  unfold ret in Hret. injection Hret as _ _ <-.
  change (nonempty (glob_sub_rec_c w tab) &&
          negb (forallb (name_in [u "hidden"; u "grading"])
                  (List.filter (is_dir w) (glob_star w tab))))
    with (has_sub_rubrics w tab) in H.
  assert (Hctx : forall folder is_dummy s c1 s1,
            create_context w folder eval build is_dummy s = (Ok c1, s1) ->
            exists evs,
              log s1 = log s ++
                Start (Context (if negb is_dummy
                                then Some {| d_description :=
                                               u "#### " ++ folder_path_to_title folder;
                                             d_format := MARKDOWN |}
                                else None)) :: evs).
  { intros folder is_dummy s c1 s1 Hc.
    destruct (create_context_run w eval build (fun _ => True) folder is_dummy s)
      as (r & evs & Hrun & _); [auto|].
    cbn zeta in Hrun. rewrite Hrun in Hc. pose proof (f_equal snd Hc) as Hs.
    cbn [fst snd] in Hs. subst s1. eexists. reflexivity. }
  split; intros Hsub; rewrite Hsub in H; cbn [negb] in H.
  - apply bind_returns in H. destruct H as (c1 & st3 & H & Hret).
    unfold ret in Hret. injection Hret as _ <-.
    destruct (Hctx _ _ _ _ _ H) as [evs Hlog].
    cbn [log add_log]. rewrite Hlog. cbn [negb].
    apply in_or_app. left. apply in_or_app. right. left. reflexivity.
  - intros folder Hin.
    pose (I := fun (done : list path) (_ : gmap str Z) (s : state) =>
                 forall f, In f done ->
                   In (Start (Context (Some {| d_description :=
                                                 u "#### " ++ folder_path_to_title f;
                                               d_format := MARKDOWN |}))) (log s)).
    assert (HI : I ([] ++ List.filter (is_dir w) (glob_star w tab)) res st2).
    { eapply (for_each_returns I); [| |exact H].
      - intros done x acc s a s' Hdone Hb.
        apply bind_returns in Hb. destruct Hb as (c1 & s1 & Hc & Hret).
        unfold ret in Hret. injection Hret as _ <-.
        destruct (Hctx _ _ _ _ _ Hc) as [evs Hlog].
        intros f Hf. rewrite Hlog. apply in_or_app.
        apply in_app_or in Hf. destruct Hf as [Hf|[<-|[]]].
        + left. apply Hdone. exact Hf.
        + right. left. reflexivity.
      - intros f []. }
    cbn [log add_log]. apply in_or_app. left. apply HI. exact Hin.
Qed.

(** X21. A whole run leaves no temporary file behind, however it ends: the
    temporary files that exist after [test_submission] are those that
    existed before it. *)
Theorem no_temporary_file_is_left w eval build st :
  tmp_files (test_submission w eval build st).2 = tmp_files st.
Proof.
  destruct (test_submission_spec w eval build st) as (r & evs & Hrun & _).
  rewrite Hrun. reflexivity.
Qed.

(** X22. Where the evaluation folder holds no directory (it has files only, or
    it is missing, or it is a file), [test_submission] reports nothing, runs
    nothing and returns the empty counter: it is no error. *)
Theorem no_rubric_folder_no_report w eval build st :
  (forall name, is_dir w (eval ++ [name]) = false) ->
  test_submission w eval build st = (Ok Counter_empty, st).
Proof.
  intros H. unfold test_submission.
  assert (E : List.filter (is_dir w) (glob_star w eval) = []).
  { unfold glob_star. induction (entries w eval) as [|e es IH]; [reflexivity|].
    cbn [map List.filter]. rewrite H. exact IH. }
  rewrite E. reflexivity.
Qed.

End Rubrics.

(** ** judge.py: the score counts the runs of the tool *)

Lemma counts_runs_empty (w : world) : counts_runs w Counter_empty [].
Proof.
  split; [apply counter_empty_inv|].
  unfold counter_get, Counter_empty. rewrite !lookup_empty. auto.
Qed.

Lemma counts_runs_iadd (w : world) (a b : gmap str Z) (ea eb : list event) :
  counts_runs w a ea -> counts_runs w b eb -> counts_runs w (counter_iadd a b) (ea ++ eb).
Proof.
  intros (Na & Ta & Ca) (Nb & Tb & Cb).
  split; [apply counter_iadd_nonneg; assumption|].
  rewrite !counter_get_iadd_nonneg by assumption.
  rewrite !List.filter_app, !length_app, Ta, Tb, Ca, Cb. lia.
Qed.

Lemma filter_quiet (p : event -> bool) quiet :
  (forall e, is_lit e = false -> p e = false) ->
  Forall (fun e => is_lit e = false) quiet -> List.filter p quiet = [].
Proof.
  intros Hp Hq. induction Hq as [|e q He _ IH]; [reflexivity|].
  cbn [List.filter]. rewrite (Hp e He). exact IH.
Qed.

Lemma lit_passed_is_lit (w : world) e : is_lit e = false -> lit_passed w e = false.
Proof. destruct e; try discriminate; reflexivity. Qed.

Lemma counts_runs_quiet_r (w : world) (c : gmap str Z) (evs quiet : list event) :
  Forall (fun e => is_lit e = false) quiet ->
  counts_runs w c evs -> counts_runs w c (evs ++ quiet).
Proof.
  intros Hq (N & T & C). split; [exact N|].
  rewrite !List.filter_app, (filter_quiet is_lit quiet), (filter_quiet (lit_passed w) quiet),
    !app_nil_r; auto using lit_passed_is_lit.
Qed.

Lemma counts_runs_quiet_l (w : world) (c : gmap str Z) (evs quiet : list event) :
  Forall (fun e => is_lit e = false) quiet ->
  counts_runs w c evs -> counts_runs w c (quiet ++ evs).
Proof.
  intros Hq (N & T & C). split; [exact N|].
  rewrite !List.filter_app, (filter_quiet is_lit quiet), (filter_quiet (lit_passed w) quiet);
    auto using lit_passed_is_lit.
Qed.

Lemma accumulates_ret (w : world) : accumulates w (fun res => ret res).
Proof.
  intros res evs0 st a st' H Hr. unfold ret in Hr. injection Hr as <- <-.
  exists []. rewrite add_log_nil, app_nil_r. auto.
Qed.

Lemma accumulates_iadd (w : world) (m : M (gmap str Z)) :
  accounted w m -> accumulates w (fun res => c <- m ;; ret (counter_iadd res c)).
Proof.
  intros Hm res evs0 st a st' H Hr.
  apply bind_returns in Hr. destruct Hr as (c & st1 & Hc & Hr).
  unfold ret in Hr. injection Hr as <- <-.
  destruct (Hm _ _ _ Hc) as (evs & -> & Hcount).
  exists evs. split; [reflexivity | apply counts_runs_iadd; assumption].
Qed.

Lemma accumulates_for_each (w : world) {A} (xs : list A) (body : A -> gmap str Z -> M (gmap str Z)) :
  (forall x, accumulates w (body x)) -> accumulates w (fun res => for_each xs body res).
Proof.
  intros Hb. induction xs as [|x xs IH]; intros res evs0 st a st' H Hr; cbn [for_each] in Hr.
  - exact (accumulates_ret w res evs0 st a st' H Hr).
  - apply bind_returns in Hr. destruct Hr as (r1 & st1 & H1 & Hr).
    destruct (Hb x _ _ _ _ _ H H1) as (e1 & -> & C1).
    destruct (IH _ _ _ _ _ C1 Hr) as (e2 & -> & C2).
    exists (e1 ++ e2). rewrite add_log_app, app_assoc. auto.
Qed.

Lemma accounted_start (w : world) (step : gmap str Z -> M (gmap str Z)) :
  accumulates w step -> accounted w (step Counter_empty).
Proof. intros Hs st c st' H. exact (Hs _ [] _ _ _ (counts_runs_empty w) H). Qed.

Lemma accounted_with_attrs (w : world) (n : node) (body : M (gmap str Z * list attr)) :
  (forall st c attrs st', body st = (Ok (c, attrs), st') ->
     exists evs, st' = add_log st evs /\ counts_runs w c evs) ->
  accounted w (with_attrs n body).
Proof.
  intros Hb st c st' H. apply with_attrs_returns in H. destruct H as (attrs & st1 & H & ->).
  destruct (Hb _ _ _ _ H) as (evs & -> & Hc).
  exists ([Start n] ++ evs ++ [Close n attrs]). rewrite !add_log_app. split; [reflexivity|].
  apply counts_runs_quiet_l; [repeat constructor|].
  apply counts_runs_quiet_r; [repeat constructor | exact Hc].
Qed.

Lemma accounted_with (w : world) (n : node) (body : M (gmap str Z)) :
  accounted w body -> accounted w (with_ n body).
Proof.
  intros Hb. apply accounted_with_attrs. intros st c attrs st' H.
  apply bind_returns in H. destruct H as (c' & st1 & H & Hr).
  unfold ret in Hr. injection Hr as <- _ <-. exact (Hb _ _ _ H).
Qed.

Lemma opt_read_events_quiet (w : world) p : Forall (fun e => is_lit e = false) (opt_read_events w p).
Proof. unfold opt_read_events. destruct (path_exists w p); repeat constructor. Qed.

(** A run of the helper that returns has run the tool once, on the target
    of the fixture. *)
Lemma helper_runs_once (w : world) (src eo ee eval build : path) st o st1 :
  _test_run_helper w src eo ee eval build st = (Ok o, st1) ->
  exists evs,
    st1 = add_log st evs /\
    length (List.filter is_lit evs) = 1%nat /\
    length (List.filter (lit_passed w) evs) = if correct o then 1%nat else 0%nat.
Proof.
  intros H. destruct (_test_run_helper_returns _ _ _ _ _ _ _ _ _ H)
    as (rel & rc & t & _ & Hlit & Hcor & _ & _ & Hrest).
  assert (Hq1 : forall (p : event -> bool) (tail : list event),
            Forall (fun e => is_lit e = false) tail ->
            (forall e, is_lit e = false -> p e = false) ->
            List.filter p
              (opt_read_events w eo ++ opt_read_events w ee ++
               [MkTemp (fresh (tmp_files st));
                Lit (build ++ [u "test"] ++ rel) (fresh (tmp_files st));
                OpenTemp (fresh (tmp_files st)); Remove (fresh (tmp_files st))] ++ tail) =
            List.filter p [Lit (build ++ [u "test"] ++ rel) (fresh (tmp_files st))]).
  { intros p tail Ht Hp.
    assert (Hnil : forall q, Forall (fun e => is_lit e = false) q -> List.filter p q = [])
      by (intros q; apply filter_quiet; exact Hp).
    rewrite !List.filter_app, (Hnil _ (opt_read_events_quiet w eo)),
      (Hnil _ (opt_read_events_quiet w ee)), (Hnil _ Ht), app_nil_r.
    cbn [List.filter app]. rewrite !(Hp (MkTemp _)), !(Hp (OpenTemp _)), !(Hp (Remove _))
      by reflexivity. reflexivity. }
  pose proof (lit_passed_is_lit w) as Hp.
  destruct (endswith _ _).
  - destruct Hrest as (_ & _ & _ & _ & ->). eexists. split; [reflexivity|].
    rewrite <- (app_nil_r [_; _; _; _]).
    rewrite !(Hq1 _ [] (List.Forall_nil _)) by auto.
    cbn [List.filter is_lit lit_passed]. rewrite Hlit, Hcor.
    destruct (rc =? 0)%Z; auto.
  - destruct Hrest as (_ & _ & _ & _ & _ & _ & ->). eexists. split; [reflexivity|].
    match goal with |- context [_ ++ [Open ?x; Open ?y]] => set (tail := [Open x; Open y]) end.
    assert (Ht : Forall (fun e => is_lit e = false) tail) by (repeat constructor).
    rewrite <- !app_assoc. rewrite !(Hq1 _ tail Ht) by auto.
    cbn [List.filter is_lit lit_passed]. rewrite Hlit, Hcor.
    destruct (rc =? 0)%Z; auto.
Qed.

Lemma accounted_run_test (w : world) (src eo ee eval build : path) :
  accounted w (run_test w src eo ee eval build).
Proof.
  intros st c st2 H.
  destruct (run_test_returns _ _ _ _ _ _ _ _ _ H) as (o & st1 & text & rel & Hh & Hsrc & Hrel).
  pose proof (run_test_run _ _ _ _ _ _ _ _ _ _ _ Hh Hsrc Hrel) as Hrun. cbn zeta in Hrun.
  rewrite Hrun in H.
  pose proof (f_equal snd H) as Hs. pose proof (f_equal fst H) as Hc.
  cbn [fst snd] in Hs, Hc. injection Hc as <-. subst st2. clear H.
  destruct (helper_runs_once _ _ _ _ _ _ _ _ _ Hh) as (evs & -> & H1 & H2).
  eexists. rewrite add_log_app. split; [reflexivity|].
  match goal with |- counts_runs _ _ (evs ++ ?q) =>
    assert (Hq : Forall (fun e => is_lit e = false) q) end.
  { repeat (apply Forall_app; split); try (repeat constructor; fail).
    destruct (_ && _); [|destruct (str_eqb _ _)]; repeat constructor. }
  apply counts_runs_quiet_r; [exact Hq|].
  split; [apply (counter_unit_inv (correct o))|].
  rewrite !counter_get_of, H1, H2.
  repeat (destruct (decide _) as [?|?]; try discriminate; try congruence).
  destruct (correct o); auto.
Qed.

Lemma accounted_run_hidden_tests (w : world) (hid eval build : path) :
  accounted w (run_hidden_tests w hid eval build).
Proof.
  intros st c st' H. unfold run_hidden_tests in H.
  apply bind_returns in H. destruct H as (counts & st1 & Hloop & H).
  pose (I := fun (_ : list path) (acc : Z * Z) (s : state) =>
               exists evs, s = add_log st evs /\
                 acc.2 = Z.of_nat (length (List.filter is_lit evs)) /\
                 acc.1 = Z.of_nat (length (List.filter (lit_passed w) evs))).
  assert (HI : I ([] ++ glob_rec_c w hid) counts st1).
  { eapply (for_each_returns I); [| |exact Hloop].
    - intros done src acc s a s' (evs & -> & Ht & Hs) Hb.
      apply bind_returns in Hb. destruct Hb as (o & s1 & Hh & Hret).
      unfold ret in Hret. injection Hret as <- <-.
      destruct (helper_runs_once _ _ _ _ _ _ _ _ _ Hh) as (e1 & -> & H1 & H2).
      exists (evs ++ e1). rewrite add_log_app. split; [reflexivity|]. cbn [fst snd].
      rewrite !List.filter_app, !length_app, H1, H2, Ht, Hs.
      destruct (correct o); split; lia.
    - exists []. rewrite add_log_nil. auto. }
  destruct HI as (evs & -> & Ht & Hs).
  apply bind_returns in H. destruct H as (bar & st2 & Hbar & H).
  destruct (success_bar_run counts.1 counts.2 20 (add_log st evs)) as [rb Hb].
  rewrite Hb in Hbar. injection Hbar as _ <-.
  apply bind_returns in H. destruct H as (x & st3 & Hw & H).
  unfold ret in H. injection H as <- <-.
  apply with_attrs_returns in Hw. destruct Hw as (attrs & st4 & Hw & ->).
  unfold ret in Hw. injection Hw as _ <- <-.
  eexists. rewrite !add_log_app. split; [reflexivity|].
  apply counts_runs_quiet_r; [repeat constructor|].
  split.
  { intros key. rewrite counter_get_of. repeat destruct (decide _); lia. }
  rewrite !counter_get_of.
  repeat (destruct (decide _) as [?|?]; try discriminate; try congruence). auto.
Qed.

Section Accounting.
Context `{RT : PythonRuntime}.

Lemma accounted_run_test_case (w : world) (folder eval build : path) :
  accounted w (run_test_case w folder eval build).
Proof.
  unfold run_test_case. apply accounted_with.
  apply (accounted_start w (fun res => for_each _ _ res)).
  apply accumulates_for_each. intros src.
  apply (accumulates_iadd w (run_test w src _ _ eval build)). apply accounted_run_test.
Qed.

Lemma accounted_create_context (w : world) (ctx eval build : path) (is_dummy : bool) :
  accounted w (create_context w ctx eval build is_dummy).
Proof.
  unfold create_context. apply accounted_with.
  assert (Hhid : accumulates w
            (fun res => if path_exists w (ctx ++ [u "hidden"])
                        then c <- run_hidden_tests w (ctx ++ [u "hidden"]) eval build ;;
                             ret (counter_iadd res c)
                        else ret res)).
  { destruct (path_exists w (ctx ++ [u "hidden"])); [|apply accumulates_ret].
    apply (accumulates_iadd w (run_hidden_tests w _ eval build)).
    apply accounted_run_hidden_tests. }
  match goal with |- context [negb (?a && ?b)] => destruct (a && b) end; cbn [negb].
  - intros st c st' H. apply bind_returns in H. destruct H as (res & st1 & Hloop & H).
    assert (Hl : accumulates w (fun res =>
              for_each (List.filter (is_dir w) (glob_star w ctx))
                (fun folder res =>
                   if name_in [u "hidden"; u "grading"] folder then ret res
                   else c <- run_test_case w folder eval build ;; ret (counter_iadd res c))
                res)).
    { apply accumulates_for_each. intros folder.
      destruct (name_in [u "hidden"; u "grading"] folder); [apply accumulates_ret|].
      apply (accumulates_iadd w (run_test_case w folder eval build)).
      apply accounted_run_test_case. }
    destruct (Hl _ [] _ _ _ (counts_runs_empty w) Hloop) as (e1 & -> & C1).
    destruct (Hhid _ _ _ _ _ C1 H) as (e2 & -> & C2).
    exists (e1 ++ e2). rewrite add_log_app. auto.
  - intros st c st' H. apply bind_returns in H. destruct H as (c1 & st1 & Hg & H).
    destruct (accounted_run_test_case _ _ _ _ _ _ _ Hg) as (e1 & -> & C1).
    assert (C1' : counts_runs w (counter_iadd Counter_empty c1) ([] ++ e1))
      by (apply counts_runs_iadd; [apply counts_runs_empty | exact C1]).
    destruct (Hhid _ _ _ _ _ C1' H) as (e2 & -> & C2).
    exists (e1 ++ e2). rewrite add_log_app. auto.
Qed.

Lemma accounted_create_tab (w : world) (tab eval build : path) : accounted w (create_tab w tab eval build).
Proof.
  unfold create_tab. destruct (same_set _ _).
  { intros st c st' H. unfold ret in H. injection H as <- <-.
    exists []. rewrite add_log_nil. split; [reflexivity | apply counts_runs_empty]. }
  apply accounted_with_attrs. intros st c attrs st' H.
  apply bind_returns in H. destruct H as (res & st1 & H & Hr).
  unfold ret in Hr. injection Hr as <- _ <-.
  match type of H with context [negb (?a && ?b)] => destruct (a && b) end; cbn [negb] in H.
  - revert H. apply (accounted_start w (fun res => for_each _ _ res)).
    apply accumulates_for_each. intros folder.
    apply (accumulates_iadd w (create_context w folder eval build false)).
    apply accounted_create_context.
  - revert H.
    apply (accounted_start w (fun res => c <- create_context w tab eval build true ;;
                                         ret (counter_iadd res c))).
    apply (accumulates_iadd w (create_context w tab eval build true)).
    apply accounted_create_context.
Qed.

(** X23. The score counts the runs of the tool: when [test_submission] returns,
    the total of its counter is the number of times the tool was run, and
    the count of correct tests the number of those runs that exited with
    0. Every run is counted, once, and nothing else is. *)
Theorem score_counts_the_runs_of_the_tool (w : world) (eval build : path) st c st' :
  test_submission w eval build st = (Ok c, st') ->
  exists evs,
    st' = add_log st evs /\
    counter_get c (u "total") = Z.of_nat (length (List.filter is_lit evs)) /\
    counter_get c (u "correct") = Z.of_nat (length (List.filter (lit_passed w) evs)).
Proof.
  intros H.
  assert (Ha : accounted w (test_submission w eval build)).
  { unfold test_submission. apply (accounted_start w (fun res => for_each _ _ res)).
    apply accumulates_for_each. intros folder.
    apply (accumulates_iadd w (create_tab w folder eval build)).
    apply accounted_create_tab. }
  destruct (Ha _ _ _ H) as (evs & Hst & _ & Ht & Hc). eauto.
Qed.

End Accounting.

(** ** The further properties on the sample data *)

(** The linker failure of a C project names no [.h] or [.cpp] file: it is
    reported through the fallback. *)
Lemma other_linker_output_witness :
  exists quoted,
    handle_compile_error (RT := ascii_runtime) sample_c_link_error (Some 1%Z) initial_state =
      (Ok tt, add_log initial_state (fallback_report (Some 1%Z) quoted)).
Proof.
  destruct (other_linker_output_is_not_unresolved (RT := ascii_runtime)
              sample_c_link_error (Some 1%Z) initial_state)
    as (r & evs & Hrun & [(-> & [(row & message & ->)|(quoted & ->)])
                         |(-> & _)] & _).
  - right. split; reflexivity.
  - exfalso. vm_compute in Hrun. discriminate Hrun.
  - exists quoted. exact Hrun.
  - exfalso. vm_compute in Hrun. discriminate Hrun.
Defined.

(** The output of the sample's [a.c] and [slow.c] lies in two pairs of
    files of the same folder [Output]. *)
Lemma output_files_witness :
  exists out1 err1 out2 err2,
    get_test_output_files (sample_test_case ++ [u "a.c"]) sample_evaluation sample_build
      initial_state = (Ok (out1, err1), initial_state) /\
    get_test_output_files sample_slow sample_evaluation sample_build
      initial_state = (Ok (out2, err2), initial_state) /\
    path_parent out1 = path_parent err1 /\ out1 <> err2 /\ out1 <> out2.
Proof.
  destruct (output_files_are_separate (sample_test_case ++ [u "a.c"]) sample_slow
              sample_evaluation sample_build
              [u "literals"; u "numeric"; u "integers"; u "a.c"]
              [u "literals"; u "numeric"; u "integers"; u "slow.c"] initial_state
              eq_refl ltac:(discriminate) eq_refl ltac:(discriminate))
    as (out1 & err1 & out2 & err2 & H1 & H2 & _ & Hp & Hd & Hinj).
  exists out1, err1, out2, err2. split; [exact H1|]. split; [exact H2|].
  split; [symmetry; exact Hp|]. split; [exact Hd|].
  intros E. specialize (Hinj (or_introl E)). vm_compute in Hinj. discriminate Hinj.
Defined.

(** The sample's [a.c]: the expected output is the text of [a.c.stdout],
    the expected error is empty, there being no [a.c.stderr]. *)
Lemma ordinary_fixture_witness :
  exists o st1,
    _test_run_helper sample_world (sample_test_case ++ [u "a.c"])
      (sample_test_case ++ [u "a.c.stdout"]) (sample_test_case ++ [u "a.c.stderr"])
      sample_evaluation sample_build initial_state = (Ok o, st1) /\
    expected_output o = Some (u "5" ++ nl) /\ expected_error o = Some [] /\
    correct o = true.
Proof.
  destruct (_test_run_helper sample_world (sample_test_case ++ [u "a.c"])
      (sample_test_case ++ [u "a.c.stdout"]) (sample_test_case ++ [u "a.c.stderr"])
      sample_evaluation sample_build initial_state) as [[o|e] st1] eqn:Hh;
    [|vm_compute in Hh; discriminate Hh].
  destruct (ordinary_fixture_outcome _ _ _ _ _ _ _ _ _ Hh
              ltac:(discriminate) eq_refl)
    as (rel & rc & t & gen_out & gen_err & Hrel & _ & Hlit & Hcor & _ & _ & Heo & Hee & _).
  exists o, st1. split; [reflexivity|]. split; [exact Heo|]. split; [exact Hee|].
  vm_compute in Hrel. injection Hrel as <-. vm_compute in Hlit. injection Hlit as <- _.
  exact Hcor.
Defined.

(** A fixture outside the sample's evaluation folder. *)
Lemma fixture_outside_evaluation_witness :
  exists e,
    _test_run_helper sample_world [u "elsewhere"; u "a.c"] [u "elsewhere"; u "a.c.stdout"]
      [u "elsewhere"; u "a.c.stderr"] sample_evaluation sample_build initial_state =
      (Raise e, initial_state).
Proof.
  destruct (fixture_outside_evaluation_is_not_run sample_world [u "elsewhere"; u "a.c"]
              [u "elsewhere"; u "a.c.stdout"] [u "elsewhere"; u "a.c.stderr"]
              sample_evaluation sample_build initial_state eq_refl)
    as (e & evs & Hrun & _).
  exists e. rewrite Hrun. vm_compute in Hrun. injection Hrun as _ Hevs.
  destruct evs; [reflexivity | discriminate Hevs].
Defined.

(** The fixture of twelve lines: nine of them are shown. *)
Lemma shown_code_witness :
  exists c st2 head rest,
    run_test sample_world2 (sample_basics ++ [u "long.c"])
      (sample_basics ++ [u "long.c.stdout"]) (sample_basics ++ [u "long.c.stderr"])
      sample_evaluation sample_build initial_state = (Ok c, st2) /\
    sample_long_code = head ++ nl ++ rest /\ count_nl (head ++ nl) = 9%nat /\
    shown_code sample_long_code = head ++ nl ++ u "... // Remainder of code omitted".
Proof.
  destruct (run_test sample_world2 (sample_basics ++ [u "long.c"])
      (sample_basics ++ [u "long.c.stdout"]) (sample_basics ++ [u "long.c.stderr"])
      sample_evaluation sample_build initial_state) as [[c|e] st2] eqn:H;
    [|vm_compute in H; discriminate H].
  destruct (shown_code_is_cut_to_ten_lines _ _ _ _ _ _ _ _ _ H)
    as (text & rel & expected & Hsrc & _ & _ & Hcases).
  assert (Ht : text = sample_long_code) by (vm_compute in Hsrc; injection Hsrc as <-; reflexivity).
  subst text.
  destruct Hcases as [[Hlen _]|(_ & head & rest & Ht & _ & Hn & Hs)].
  - exfalso. vm_compute in Hlen. lia.
  - exists c, st2, head, rest. auto.
Defined.

(** The fixture [err.c] of the second sample expects the text [Aborted] on
    the standard error, and gets it. *)
Lemma expected_error_witness :
  exists c st2 descr attrs,
    run_test sample_world2 (sample_basics ++ [u "err.c"])
      (sample_basics ++ [u "err.c.stdout"]) (sample_basics ++ [u "err.c.stderr"])
      sample_evaluation sample_build initial_state = (Ok c, st2) /\
    In (Start (Test descr (Some (u "Aborted" ++ nl)))) (log st2) /\
    In (Close (Test descr (Some (u "Aborted" ++ nl)))
          (attrs ++ [generated (Some (u "Aborted" ++ nl))])) (log st2).
Proof.
  destruct (_test_run_helper sample_world2 (sample_basics ++ [u "err.c"])
      (sample_basics ++ [u "err.c.stdout"]) (sample_basics ++ [u "err.c.stderr"])
      sample_evaluation sample_build initial_state) as [[o|e] st1] eqn:Hh;
    [|vm_compute in Hh; discriminate Hh].
  assert (Ho : expected_error o = Some (u "Aborted" ++ nl) /\
               generated_error o = Some (u "Aborted" ++ nl)).
  { vm_compute in Hh. injection Hh as <- _. split; reflexivity. }
  destruct Ho as [He Hg].
  pose proof (expected_error_selects_the_error_stream sample_world2 _ _ _ _ _ _ o st1
                (u "int main() { abort(); }") [u "basics"; u "err.c"] (u "Aborted" ++ nl)
                Hh eq_refl eq_refl He ltac:(discriminate)) as Hrun.
  cbn zeta in Hrun. rewrite Hg in Hrun.
  eexists _, _, _, [_]. split; [exact Hrun|]. cbn [log add_log].
  split; apply in_or_app; right.
  - right. left. reflexivity.
  - apply in_or_app. right. apply in_or_app. right. left. reflexivity.
Defined.

(** The custom fixture of the sample: no expected and no generated text. *)
Lemma custom_fixture_report_witness :
  exists c st2 descr status,
    run_test sample_world sample_custom sample_custom_stdout sample_custom_stderr
      sample_evaluation sample_build initial_state = (Ok c, st2) /\
    In (Close (Test descr None) [status; generated None]) (log st2).
Proof.
  destruct (_test_run_helper sample_world sample_custom sample_custom_stdout
              sample_custom_stderr sample_evaluation sample_build initial_state)
    as [[o|e] st1] eqn:Hh; [|vm_compute in Hh; discriminate Hh].
  pose proof (custom_fixture_report sample_world _ _ _ _ _ _ o st1 (u "// RUN: custom")
                [u "literals"; u "numeric"; u "integers"; u "t.custom.c"]
                Hh eq_refl eq_refl ltac:(discriminate) eq_refl) as Hrun.
  cbn zeta in Hrun. eexists _, _, _, _. split; [exact Hrun|]. cbn [log add_log].
  apply in_or_app. right. apply in_or_app. right. apply in_or_app. right. left. reflexivity.
Defined.

(** The sample's [slow.c] fails: the tool exits with 1 on it. *)
Lemma verdict_witness :
  exists c st2,
    run_test sample_world sample_slow (sample_test_case ++ [u "slow.c.stdout"])
      (sample_test_case ++ [u "slow.c.stderr"]) sample_evaluation sample_build
      initial_state = (Ok c, st2) /\
    c = Counter_of 0 1.
Proof.
  destruct (run_test sample_world sample_slow (sample_test_case ++ [u "slow.c.stdout"])
      (sample_test_case ++ [u "slow.c.stderr"]) sample_evaluation sample_build
      initial_state) as [[c|e] st2] eqn:H; [|vm_compute in H; discriminate H].
  destruct (verdict_is_the_exit_code _ _ _ _ _ _ _ _ _ H) as [Hc _].
  exists c, st2. split; [reflexivity | exact Hc].
Defined.

(** The fixture [bad.c] of the second sample cannot be decoded. *)
Lemma undecodable_fixture_witness :
  exists evs,
    run_test sample_world2 (sample_basics ++ [u "bad.c"])
      (sample_basics ++ [u "bad.c.stdout"]) (sample_basics ++ [u "bad.c.stderr"])
      sample_evaluation sample_build initial_state =
    (Raise UnicodeDecodeError, add_log initial_state evs) /\
    Forall (fun ev => tool_event ev = true) evs.
Proof.
  destruct (undecodable_fixture_gets_no_test_node sample_world2 (sample_basics ++ [u "bad.c"])
              (sample_basics ++ [u "bad.c.stdout"]) (sample_basics ++ [u "bad.c.stderr"])
              sample_evaluation sample_build initial_state (u "int main() { }") eq_refl)
    as (e & evs & Hrun & Htool & He).
  destruct (_test_run_helper sample_world2 (sample_basics ++ [u "bad.c"])
      (sample_basics ++ [u "bad.c.stdout"]) (sample_basics ++ [u "bad.c.stderr"])
      sample_evaluation sample_build initial_state) as [[o|e'] st1] eqn:Hh;
    [|vm_compute in Hh; discriminate Hh].
  destruct (He o st1 eq_refl) as [-> _].
  exists evs. split; [exact Hrun | exact Htool].
Defined.

(** The test case [integers] of the sample: three fixtures, one passes. *)
Lemma run_test_case_counts_witness :
  exists c st',
    run_test_case (RT := ascii_runtime) sample_world sample_test_case sample_evaluation
      sample_build initial_state = (Ok c, st') /\
    counter_get c (u "total") = 3%Z /\ counter_get c (u "correct") = 1%Z.
Proof.
  destruct (run_test_case (RT := ascii_runtime) sample_world sample_test_case
              sample_evaluation sample_build initial_state) as [[c|e] st'] eqn:H;
    [|vm_compute in H; discriminate H].
  destruct (run_test_case_counts (RT := ascii_runtime) _ _ _ _ _ _ _ H) as [Ht Hc].
  exists c, st'. split; [reflexivity|]. split; [exact Ht | exact Hc].
Defined.

(** The hidden batch of the sample: one fixture, and it passes. *)
Lemma hidden_batch_counts_witness :
  exists st',
    run_hidden_tests sample_world (sample_context ++ [u "hidden"]) sample_evaluation
      sample_build initial_state = (Ok (Counter_of 1 1), st').
Proof.
  destruct (run_hidden_tests sample_world (sample_context ++ [u "hidden"]) sample_evaluation
              sample_build initial_state) as [[c|e] st'] eqn:H;
    [|vm_compute in H; discriminate H].
  destruct (hidden_batch_counts _ _ _ _ _ _ _ H) as [Hc _].
  exists st'. rewrite Hc. reflexivity.
Defined.

(** Seven of twenty tests: seven cells of twenty are filled. *)
Lemma success_bar_witness :
  success_bar 7 20 20 initial_state =
    (Ok (repeat 9608%N 7 ++ repeat 9617%N 13), initial_state).
Proof.
  destruct (success_bar_is_exact 7 20 initial_state ltac:(lia) ltac:(lia)) as [H _].
  exact H.
Defined.

(** The rubric [literals] of the sample: two of its four tests fail. *)
Lemma tab_badge_witness :
  exists c st' evs,
    create_tab (RT := ascii_runtime) sample_world [u "evaluation"; u "literals"]
      sample_evaluation sample_build initial_state = (Ok c, st') /\
    st' = add_log initial_state
            ([Start (Tab (u "Literals"))] ++ evs ++ [Close (Tab (u "Literals")) [badgeCount 2]]).
Proof.
  destruct (create_tab (RT := ascii_runtime) sample_world [u "evaluation"; u "literals"]
              sample_evaluation sample_build initial_state) as [[c|e] st'] eqn:H;
    [|vm_compute in H; discriminate H].
  destruct (tab_badge_counts_failures (RT := ascii_runtime) _ _ _ _ _ _ _ H eq_refl)
    as (_ & evs & Hst).
  exists c, st', evs. split; [reflexivity|]. rewrite Hst.
  assert (Hc : (counter_get c (u "total") - counter_get c (u "correct"))%Z = 2%Z).
  { vm_compute in H. injection H as <- _. reflexivity. }
  rewrite Hc. reflexivity.
Defined.

(** The rubric [literals] of the sample has the sub-rubric [numeric]. *)
Lemma every_directory_witness :
  exists c st',
    create_tab (RT := ascii_runtime) sample_world [u "evaluation"; u "literals"]
      sample_evaluation sample_build initial_state = (Ok c, st') /\
    In (Start (Context (Some {| d_description := u "#### Numeric"; d_format := MARKDOWN |})))
       (log st').
Proof.
  destruct (create_tab (RT := ascii_runtime) sample_world [u "evaluation"; u "literals"]
              sample_evaluation sample_build initial_state) as [[c|e] st'] eqn:H;
    [|vm_compute in H; discriminate H].
  destruct (every_directory_of_a_rubric_is_a_context (RT := ascii_runtime)
              _ _ _ _ _ _ _ H eq_refl) as [_ Hsub].
  exists c, st'. split; [reflexivity|].
  apply (Hsub eq_refl [u "evaluation"; u "literals"; u "numeric"]).
  left. reflexivity.
Defined.

(** An evaluation folder that does not exist. *)
Lemma no_rubric_folder_witness :
  test_submission (RT := ascii_runtime) sample_world [u "nowhere"] sample_build initial_state =
    (Ok Counter_empty, initial_state).
Proof.
  apply (no_rubric_folder_no_report (RT := ascii_runtime)). intros name. reflexivity.
Defined.

(** The sample course: four runs of the tool, four tests counted. *)
Lemma score_witness :
  exists c st' evs,
    test_submission (RT := ascii_runtime) sample_world sample_evaluation sample_build
      initial_state = (Ok c, st') /\
    st' = add_log initial_state evs /\
    counter_get c (u "total") = Z.of_nat (length (List.filter is_lit evs)) /\
    counter_get c (u "total") = 4%Z.
Proof.
  destruct (test_submission (RT := ascii_runtime) sample_world sample_evaluation sample_build
              initial_state) as [[c|e] st'] eqn:H; [|vm_compute in H; discriminate H].
  destruct (score_counts_the_runs_of_the_tool (RT := ascii_runtime) _ _ _ _ _ _ H)
    as (evs & Hst & Ht & _).
  exists c, st', evs. split; [reflexivity|]. split; [exact Hst|]. split; [exact Ht|].
  vm_compute in H. injection H as <- _. reflexivity.
Defined.

